(** * FLIRImageProcessor: a shallow embedding of [FlirImageProcessor.py]

    The development follows the class [FLIRImage]: radiometric conversion of
    the raw sensor grid ([GetThermalData]), colour-map rescaling
    ([RescaleImageColorMap]), the min/max markers
    ([GetMinMaxTemperatureAndLocation]), the selection box and the two
    region operations ([AddOverlayBox], [PlotMeasurementBoxes]) and the
    temperature markers ([AddMeasurementPointMouseClickCallback]).

    Numbers.  Raw sensor counts are numpy [uint16] values: integers with the
    wrap-around at 2^16 written out.  Temperatures are numpy [float64]
    values; they are modelled as exact rationals extended with the three
    IEEE special values that numpy produces instead of raising
    (division by zero gives an infinity or NaN), and a result whose
    magnitude is beyond the float64 range becomes an infinity.  Rounding to
    53 bits and the sign of zero are not modelled.  [numpy.exp] and
    [numpy.log] are library functions outside the repository and are taken
    as parameters.  Display coordinates (matplotlib [xdata]/[ydata]) are
    finite floats; dividing them by 4 is exact, so they are modelled as
    rationals and [int(.)] as truncation toward zero.  The difference of two
    coordinates (lines 390-391) is taken exactly as well: its rounding is
    not modelled, and the properties of [AddOverlayBox] are stated in terms
    of the pixel width and height it computes. *)

From Stdlib Require Import String Ascii ZArith QArith Qcanon Qround Qabs List Bool Lia Lqa.
Import ListNotations.

Local Open Scope Z_scope.

(** ** Python results: a value or a raised exception *)

Module Py.

Inductive exn : Type :=
| ZeroDivisionError
| TypeError
| IndexError
| ValueError
| AttributeError.

Inductive result (A : Type) : Type :=
| Ok (a : A)
| Raise (e : exn).

Arguments Ok {A} a.
Arguments Raise {A} e.

Definition bind {A B : Type} (m : result A) (k : A -> result B) : result B :=
  match m with
  | Ok a => k a
  | Raise e => Raise e
  end.

Definition raises {A : Type} (m : result A) : bool :=
  match m with
  | Ok _ => false
  | Raise _ => true
  end.

(** [int(x)] on a finite float: truncation toward zero. *)
Definition int (x : Q) : Z := Z.quot (Qnum x) (Zpos (Qden x)).

(** [s.split(sep)] for a one-character separator. *)
Fixpoint split (sep : ascii) (s : string) : list string :=
  match s with
  | EmptyString => [EmptyString]
  | String c r =>
      if Ascii.eqb c sep then EmptyString :: split sep r
      else match split sep r with
           | h :: t => String c h :: t
           | [] => [String c EmptyString]
           end
  end.

(** Normalisation of one slice bound against a length [n], as
    [slice.indices] does for step 1: a negative bound counts from the end,
    then the bound is clipped to [0, n]. *)
Definition clip (n i : Z) : Z :=
  let j := if i <? 0 then i + n else i in
  if j <? 0 then 0 else if n <? j then n else j.

(** [l[start:stop]] *)
Definition slice {A : Type} (start stop : Z) (l : list A) : list A :=
  let n := Z.of_nat (List.length l) in
  let a := clip n start in
  let b := clip n stop in
  firstn (Z.to_nat (b - a)) (skipn (Z.to_nat a) l).

(** [l[i]] for an integer index: negative indices count from the end. *)
Definition index {A : Type} (l : list A) (i : Z) : result A :=
  let n := Z.of_nat (List.length l) in
  let j := if i <? 0 then i + n else i in
  if (j <? 0) || (n <=? j) then Raise IndexError
  else match nth_error l (Z.to_nat j) with
       | Some a => Ok a
       | None => Raise IndexError
       end.

End Py.

Notation "x <- m ;; k" := (Py.bind m (fun x => k))
  (at level 61, m at next level, right associativity).

(** ** numpy values and arrays *)

Module Np.

(** A [float64]: a finite value or one of the IEEE special values. *)
Inductive float64 : Type :=
| Fin (q : Qc)
| PInf
| NInf
| NaN.

Definition of_Z (z : Z) : float64 := Fin (Q2Qc (inject_Z z)).
Definition of_Q (q : Q) : float64 := Fin (Q2Qc q).

Definition zeroQc : Qc := Q2Qc 0.

Definition Qc_eqb (a b : Qc) : bool :=
  match Qccompare a b with Eq => true | _ => false end.
Definition Qc_ltb (a b : Qc) : bool :=
  match Qccompare a b with Lt => true | _ => false end.
Definition Qc_leb (a b : Qc) : bool :=
  match Qccompare a b with Gt => false | _ => true end.

(** The bound from which round-to-nearest turns a result into an
    infinity: 2^1024 - 2^970, half a unit in the last place above the
    largest float64. *)
Definition overflow_bound : Qc := Q2Qc (inject_Z (2 ^ 1024 - 2 ^ 970)).

(** The float64 for an exact result [q]: an infinity when [q] is out of
    range. *)
Definition fin (q : Qc) : float64 :=
  if Qc_leb overflow_bound q then PInf
  else if Qc_leb q (- overflow_bound)%Qc then NInf
  else Fin q.

Definition neg (a : float64) : float64 :=
  match a with
  | Fin q => Fin (- q)%Qc
  | PInf => NInf
  | NInf => PInf
  | NaN => NaN
  end.

Definition add (a b : float64) : float64 :=
  match a, b with
  | NaN, _ | _, NaN => NaN
  | Fin x, Fin y => fin (x + y)%Qc
  | PInf, NInf | NInf, PInf => NaN
  | PInf, _ | _, PInf => PInf
  | NInf, _ | _, NInf => NInf
  end.

Definition sub (a b : float64) : float64 := add a (neg b).

(** The infinity whose sign is that of [q] times [s]; NaN for [q = 0]. *)
Definition signed_inf (positive : bool) (q : Qc) : float64 :=
  match Qccompare q zeroQc with
  | Eq => NaN
  | Gt => if positive then PInf else NInf
  | Lt => if positive then NInf else PInf
  end.

Definition mul (a b : float64) : float64 :=
  match a, b with
  | NaN, _ | _, NaN => NaN
  | Fin x, Fin y => fin (x * y)%Qc
  | PInf, Fin y => signed_inf true y
  | NInf, Fin y => signed_inf false y
  | Fin x, PInf => signed_inf true x
  | Fin x, NInf => signed_inf false x
  | PInf, PInf | NInf, NInf => PInf
  | PInf, NInf | NInf, PInf => NInf
  end.

(** numpy division: never raises.  A finite value divided by zero is an
    infinity of the sign of the numerator, and 0/0 is NaN. *)
Definition div (a b : float64) : float64 :=
  match a, b with
  | NaN, _ | _, NaN => NaN
  | Fin x, Fin y =>
      if Qc_eqb y zeroQc then signed_inf true x else fin (x / y)%Qc
  | Fin _, PInf | Fin _, NInf => Fin zeroQc
  | PInf, Fin y => if Qc_ltb y zeroQc then NInf else PInf
  | NInf, Fin y => if Qc_ltb y zeroQc then PInf else NInf
  | _, _ => NaN
  end.

Definition eqb (a b : float64) : bool :=
  match a, b with
  | Fin x, Fin y => Qc_eqb x y
  | PInf, PInf | NInf, NInf => true
  | _, _ => false
  end.

Definition leb (a b : float64) : bool :=
  match a, b with
  | NaN, _ | _, NaN => false
  | NInf, _ | _, PInf => true
  | Fin x, Fin y => Qc_leb x y
  | _, _ => false
  end.

Definition ltb (a b : float64) : bool :=
  match a, b with
  | NaN, _ | _, NaN => false
  | Fin x, Fin y => Qc_ltb x y
  | NInf, NInf | PInf, PInf => false
  | NInf, _ | _, PInf => true
  | _, _ => false
  end.

Definition is_nan (a : float64) : bool :=
  match a with NaN => true | _ => false end.

Definition is_finite (a : float64) : bool :=
  match a with Fin _ => true | _ => false end.

(** [numpy.minimum] / [numpy.maximum]: NaN propagates. *)
Definition minimum (a b : float64) : float64 :=
  match a, b with
  | NaN, _ | _, NaN => NaN
  | _, _ => if leb a b then a else b
  end.

Definition maximum (a b : float64) : float64 :=
  match a, b with
  | NaN, _ | _, NaN => NaN
  | _, _ => if leb b a then a else b
  end.

(** A 2-D array, row-major: the list of its rows. *)
Definition array2 (A : Type) : Type := list (list A).
Definition grid : Type := array2 float64.

Definition size {A : Type} (g : array2 A) : nat := List.length (concat g).

(** [numpy.amin] and [numpy.amax] over the whole array; they raise
    [ValueError] on an array without elements. *)
Definition amin (g : grid) : Py.result float64 :=
  match concat g with
  | [] => Py.Raise Py.ValueError
  | x :: xs => Py.Ok (fold_left minimum xs x)
  end.

Definition amax (g : grid) : Py.result float64 :=
  match concat g with
  | [] => Py.Raise Py.ValueError
  | x :: xs => Py.Ok (fold_left maximum xs x)
  end.

(** [numpy.where(g == m)]: the (row, column) positions of the matching
    cells, in row-major order. *)
Fixpoint where_row (m : float64) (row : list float64) (r c : nat)
  : list (nat * nat) :=
  match row with
  | [] => []
  | x :: rest =>
      if eqb x m then (r, c) :: where_row m rest r (S c)
      else where_row m rest r (S c)
  end.

Fixpoint where_from (m : float64) (g : grid) (r : nat) : list (nat * nat) :=
  match g with
  | [] => []
  | row :: rest => where_row m row r 0 ++ where_from m rest (S r)
  end.

Definition where_eq (g : grid) (m : float64) : list (nat * nat) :=
  where_from m g 0.

(** The cell at (row, column), when there is one. *)
Definition cell {A : Type} (g : array2 A) (r c : nat) : option A :=
  match nth_error g r with
  | Some row => nth_error row c
  | None => None
  end.

(** [g[i, j]] with integer indices. *)
Definition index2 {A : Type} (g : array2 A) (i j : Z) : Py.result A :=
  row <- Py.index g i ;; Py.index row j.

(** [g[r0:r1, c0:c1]] *)
Definition slice2 {A : Type} (r0 r1 c0 c1 : Z) (g : array2 A) : array2 A :=
  map (Py.slice c0 c1) (Py.slice r0 r1 g).

(** Element-wise operations with a scalar (broadcasting). *)
Definition map2d {A B : Type} (f : A -> B) (g : array2 A) : array2 B :=
  map (map f) g.

End Np.

(** ** The class [FLIRImage] *)

Module FLIR.

Import Py Np.

(** *** Raw sensor data and the byte-order fix-up *)

(** numpy [uint16] arithmetic: results are reduced modulo 2^16. *)
Definition u16 (z : Z) : Z := z mod 65536.

Definition right_shift (g : array2 Z) (k : Z) : array2 Z :=
  map2d (fun x => Z.shiftr x k) g.

Definition left_shift (g : array2 Z) (k : Z) : array2 Z :=
  map2d (fun x => u16 (Z.shiftl x k)) g.

Definition bitwise_and (g : array2 Z) (m : Z) : array2 Z :=
  map2d (fun x => Z.land x m) g.

Fixpoint zip_with {A B C : Type} (f : A -> B -> C) (l : list A) (l' : list B)
  : list C :=
  match l, l' with
  | a :: t, b :: t' => f a b :: zip_with f t t'
  | _, _ => []
  end.

(** Element-wise [+] of two [uint16] arrays of the same shape. *)
Definition add_u16 (g g' : array2 Z) : array2 Z :=
  zip_with (zip_with (fun x y => u16 (x + y))) g g'.

(** [ExifByteOrder.split("-")[0] == "Little"] *)
Definition is_little (ExifByteOrder : string) : bool :=
  String.eqb (nth 0 (split "-"%char ExifByteOrder) EmptyString) "Little".

(** Lines 151-152: the swap of the higher and the lower byte. *)
Definition FixByteOrder (ExifByteOrder : string) (ImageData : array2 Z)
  : array2 Z :=
  if is_little ExifByteOrder
  then add_u16 (right_shift ImageData 8)
               (left_shift (bitwise_and ImageData 255) 8)
  else ImageData.

(** *** Calibration constants, as read from the Exif metadata *)

Record Calibration : Type := {
  PlanckR1 : float64;
  PlanckR2 : float64;
  PlanckB : float64;
  PlanckF : float64;
  PlanckO : float64;
  Emissivity : float64;
  RAT : float64
}.

(** The literals [273.15] and [1] of the source. *)
Definition kelvin : float64 := of_Q (27315 # 100).
Definition one : float64 := of_Z 1.

(** [a / b] between two Python scalars raises on a zero divisor. *)
Definition truediv (a b : float64) : result float64 :=
  if eqb b (Fin zeroQc) then Raise ZeroDivisionError else Ok (div a b).

Section ThermalData.

(** [numpy.exp] and [numpy.log]. *)
Variable np_exp : float64 -> float64.
Variable np_log : float64 -> float64.

(** Lines 155-157, after the byte-order fix-up.  The exponent
    [PlanckB / (RAT + 273.15)] is a division of Python scalars; every
    other operation involves a numpy value and is a whole-array pass. *)
Definition Radiance2Temperature (c : Calibration) (ImageData : array2 Z)
  : result grid :=
  e <- truediv (PlanckB c) (add (RAT c) kelvin) ;;
  let ReflectedRadiationFactor :=
    sub (div (PlanckR1 c) (mul (PlanckR2 c) (sub (np_exp e) (PlanckF c))))
        (PlanckO c) in
  let reflected := mul (sub one (Emissivity c)) ReflectedRadiationFactor in
  let ObjectRadiation :=
    map2d (fun x => div x (Emissivity c))
      (map2d (fun raw => sub (of_Z raw) reflected) ImageData) in
  let TemperatureData :=
    map2d (fun x => sub x kelvin)
      (map2d (fun x => div (PlanckB c) x)
        (map2d np_log
          (map2d (fun x => add x (PlanckF c))
            (map2d (fun x => div (PlanckR1 c) x)
              (map2d (fun x => mul (PlanckR2 c) x)
                (map2d (fun x => add x (PlanckO c)) ObjectRadiation)))))) in
  Ok TemperatureData.

Definition GetThermalData (c : Calibration) (ExifByteOrder : string)
  (ImageData : array2 Z) : result grid :=
  Radiance2Temperature c (FixByteOrder ExifByteOrder ImageData).

(** The formula of the specification, one pixel at a time: the three steps
    written as scalar functions. *)
Definition spec_ReflFactor (c : Calibration) : result float64 :=
  e <- truediv (PlanckB c) (add (RAT c) kelvin) ;;
  Ok (sub (div (PlanckR1 c) (mul (PlanckR2 c) (sub (np_exp e) (PlanckF c))))
          (PlanckO c)).

Definition spec_ObjRad (c : Calibration) (ReflFactor corrected : float64)
  : float64 :=
  div (sub corrected (mul (sub one (Emissivity c)) ReflFactor)) (Emissivity c).

Definition spec_Temp (c : Calibration) (ObjRad : float64) : float64 :=
  sub (div (PlanckB c)
           (np_log (add (div (PlanckR1 c)
                             (mul (PlanckR2 c) (add ObjRad (PlanckO c))))
                        (PlanckF c))))
      kelvin.

Definition spec_pixel (c : Calibration) (ReflFactor : float64) (corrected : Z)
  : float64 :=
  spec_Temp c (spec_ObjRad c ReflFactor (of_Z corrected)).

End ThermalData.

(** The byte swap of the specification, on one sample. *)
Definition spec_swap (raw : Z) : Z :=
  Z.lor (Z.shiftr raw 8) (Z.shiftl (Z.land raw 255) 8).

(** *** Display space and data space *)

(** The display is the thermal grid scaled up by a fixed factor; the source
    writes the factor as the literal 4 wherever it converts
    (lines 186-189 upwards, lines 222, 225, 403-406 and 433-436 downwards). *)
Definition ResolutionScale : Z := 4.

(** [int(x / s)] and [s * i]. *)
Definition scale_down (s : Z) (x : Q) : Z := int (x / inject_Z s)%Q.
Definition scale_up (s : Z) (i : Z) : Z := s * i.

(** *** Colour-map rescaling (line 178) *)

Definition RescaleImageColorMap (ImageArray : grid) : result grid :=
  lo <- amin ImageArray ;;
  let shifted := map2d (fun x => sub x lo) ImageArray in
  hi <- amax ImageArray ;;
  lo' <- amin ImageArray ;;
  let NormalizedImage := map2d (fun x => div x (sub hi lo')) shifted in
  Ok NormalizedImage.

(** *** Minimum and maximum with their marker locations (lines 181-192) *)

(** [g[ys, xs]]: the values at the listed positions. *)
Definition take_cells (g : grid) (ys xs : list nat) : list float64 :=
  map (fun p => nth (snd p) (nth (fst p) g []) NaN) (combine ys xs).

Record MinMax : Type := {
  MinTemperature : float64;
  MaxTemperature : float64;
  MinLocation : Z * Z;
  MaxLocation : Z * Z
}.

Definition GetMinMaxTemperatureAndLocation (ThermalData : grid)
  : result MinMax :=
  lo <- amin ThermalData ;;
  let MinLocationY := map fst (where_eq ThermalData lo) in
  let MinLocationX := map snd (where_eq ThermalData lo) in
  hi <- amax ThermalData ;;
  let MaxLocationY := map fst (where_eq ThermalData hi) in
  let MaxLocationX := map snd (where_eq ThermalData hi) in
  tmin <- index (take_cells ThermalData MinLocationY MinLocationX) 0 ;;
  tmax <- index (take_cells ThermalData MaxLocationY MaxLocationX) 0 ;;
  minx <- index MinLocationX 0 ;;
  miny <- index MinLocationY 0 ;;
  maxx <- index MaxLocationX 0 ;;
  maxy <- index MaxLocationY 0 ;;
  Ok {| MinTemperature := tmin;
        MaxTemperature := tmax;
        MinLocation := (scale_up ResolutionScale (Z.of_nat minx),
                        scale_up ResolutionScale (Z.of_nat miny));
        MaxLocation := (scale_up ResolutionScale (Z.of_nat maxx),
                        scale_up ResolutionScale (Z.of_nat maxy)) |}.


(** *** Selection boxes *)

(** [int(X/4)], as in lines 222, 225, 403-406 and 433-436. *)
Definition display_to_data (x : Q) : Z := scale_down ResolutionScale x.

(** The selection box kept in [CurrentSelectionBox]: the press point
    (X1, Y1) and the release point (X2, Y2), in display coordinates. *)
Record Box : Type := {
  X1 : Q;
  Y1 : Q;
  X2 : Q;
  Y2 : Q
}.

Definition Qltb (a b : Q) : bool := negb (Qle_bool b a).

(** Lines 194-203: a selection is recorded only when both corners lie left
    of 640 and above 480; otherwise the previous selection is kept. *)
Definition selection_accepted (b : Box) : bool :=
  Qltb (X1 b) 640 && Qltb (X2 b) 640 && Qltb (Y1 b) 480 && Qltb (Y2 b) 480.

Definition SelectionBoxMouseClickCallback (current : option Box) (b : Box)
  : option Box :=
  if selection_accepted b then Some b else current.

(** The slice [ThermalData[NewY1-1:NewY2, NewX1-1:NewX2]] that lines 407
    and 437 both take of the thermal data for a box. *)
Definition Subregion {A : Type} (g : array2 A) (b : Box) : array2 A :=
  slice2 (display_to_data (Y1 b) - 1) (display_to_data (Y2 b))
         (display_to_data (X1 b) - 1) (display_to_data (X2 b)) g.

(** The arithmetic mean of all the values of a grid, as the specification
    words it: the sum of the cells divided by their number. *)
Definition mean (g : grid) : float64 :=
  div (fold_left add (concat g) (of_Z 0)) (of_Z (Z.of_nat (size g))).

(** *** Overlays, markers and the session state *)

(** Axes objects are compared by identity; they are numbered in the order
    in which [inset_axes] creates them. *)
Definition axes : Type := nat.

(** The entries of an overlay dictionary that the temperature code reads.
    The two resized images are rendering data and are left out. *)
Record Overlay : Type := {
  PixelWidth : Z;
  PixelHeight : Z;
  OverlayAxes : axes;
  OverlayColorBarAxes : axes;
  TemperatureArray : grid;
  ThermalMin : float64;
  ThermalMax : float64
}.

Record Marker : Type := {
  X : Q;
  Y : Q;
  HostAxes : axes;
  Temperature : float64
}.

Record State : Type := {
  ThermalData : grid;
  MeasurementPoints : list Marker;
  MeasurementBoxes : list Box;
  OverlayBoxes : list Overlay;
  CurrentSelectionBox : option Box;
  NextAxes : axes
}.

(** [a / b] between two Python integers. *)
Definition truediv_int (a b : Z) : result Q :=
  if b =? 0 then Raise ZeroDivisionError else Ok (inject_Z a / inject_Z b)%Q.

(** [Image.resize] of line 408 raises [ValueError] for a width or a height
    that is not positive.  For a temperature array without cells the
    function raises [ValueError] as well, at line 410 at the latest. *)
Definition resize (width height : Z) : result unit :=
  if (width <=? 0) || (height <=? 0) then Raise ValueError else Ok tt.

(** Lines 386-412.  Reading [CurrentSelectionBox] before any selection was
    made raises [AttributeError]; the two colour-bar percentages divide by
    the pixel height and width of the box; the temperature array is
    resized to the pixel size of the box.  Each call of [inset_axes]
    creates new axes.  The result is the state once the overlay has been
    appended; the redraw of line 413 is rendering and is left out. *)
Definition AddOverlayBox (st : State) : result State :=
  match CurrentSelectionBox st with
  | None => Raise AttributeError
  | Some b =>
      let width := int (X2 b - X1 b)%Q in
      let height := int (Y2 b - Y1 b)%Q in
      let overlay_axes := NextAxes st in
      _ <- truediv_int (100 * (height - 38)) height ;;
      _ <- truediv_int 1000 width ;;
      let colorbar_axes := S overlay_axes in
      let NewX1 := display_to_data (X1 b) in
      let NewY1 := display_to_data (Y1 b) in
      let NewX2 := display_to_data (X2 b) in
      let NewY2 := display_to_data (Y2 b) in
      let temperatures :=
        slice2 (NewY1 - 1) NewY2 (NewX1 - 1) NewX2 (ThermalData st) in
      _ <- resize width height ;;
      lo <- amin temperatures ;;
      hi <- amax temperatures ;;
      let OverlayDict :=
        {| PixelWidth := width;
           PixelHeight := height;
           OverlayAxes := overlay_axes;
           OverlayColorBarAxes := colorbar_axes;
           TemperatureArray := temperatures;
           ThermalMin := lo;
           ThermalMax := hi |} in
      Ok {| ThermalData := ThermalData st;
            MeasurementPoints := MeasurementPoints st;
            MeasurementBoxes := MeasurementBoxes st;
            OverlayBoxes := OverlayBoxes st ++ [OverlayDict];
            CurrentSelectionBox := CurrentSelectionBox st;
            NextAxes := S colorbar_axes |}
  end.

(** Lines 426-427; the redraw of line 428 is left out. *)
Definition CreateAverageTemperatureBox (st : State) : result State :=
  match CurrentSelectionBox st with
  | None => Raise AttributeError
  | Some b =>
      Ok {| ThermalData := ThermalData st;
            MeasurementPoints := MeasurementPoints st;
            MeasurementBoxes := MeasurementBoxes st ++ [b];
            OverlayBoxes := OverlayBoxes st;
            CurrentSelectionBox := CurrentSelectionBox st;
            NextAxes := NextAxes st |}
  end.

(** *** The average of a measurement box (lines 433-439) *)

(** What the built-in [sum] returns: its integer start value when there was
    nothing to add, a numpy value otherwise. *)
Inductive row_sum : Type :=
| NoRows
| Rows (v : list float64).

Inductive total : Type :=
| IntZero
| Float (f : float64).

(** [sum(a)] over a 2-D array adds its rows, starting from the integer 0. *)
Definition sum_rows (g : grid) : row_sum :=
  match g with
  | [] => NoRows
  | r :: rest => Rows (fold_left (zip_with add) rest (map (add (of_Z 0)) r))
  end.

(** [sum(.)] of the result: the integer 0 is not iterable. *)
Definition sum_total (s : row_sum) : result total :=
  match s with
  | NoRows => Raise TypeError
  | Rows [] => Ok IntZero
  | Rows (x :: xs) => Ok (Float (fold_left add xs (add (of_Z 0) x)))
  end.

(** [total / TemperatureSamples], the divisor being a Python integer. *)
Definition divide_by_samples (t : total) (samples : nat) : result float64 :=
  match t with
  | IntZero =>
      q <- truediv_int 0 (Z.of_nat samples) ;; Ok (of_Q q)
  | Float f => Ok (div f (of_Z (Z.of_nat samples)))
  end.

(** The body of the loop of [PlotMeasurementBoxes] for one box. *)
Definition AverageTemperature (ThermalData : grid) (box : Box)
  : result float64 :=
  let NewX1 := display_to_data (X1 box) in
  let NewY1 := display_to_data (Y1 box) in
  let NewX2 := display_to_data (X2 box) in
  let NewY2 := display_to_data (Y2 box) in
  let NewTemperatureArray :=
    slice2 (NewY1 - 1) NewY2 (NewX1 - 1) NewX2 ThermalData in
  let TemperatureSamples := size NewTemperatureArray in
  t <- sum_total (sum_rows NewTemperatureArray) ;;
  divide_by_samples t TemperatureSamples.

(** [PlotMeasurementBoxes]: the averages written into the picture, box by
    box; the first failing box ends the loop with its exception. *)
Fixpoint PlotMeasurementBoxes (ThermalData : grid) (boxes : list Box)
  : result (list float64) :=
  match boxes with
  | [] => Ok []
  | box :: rest =>
      a <- AverageTemperature ThermalData box ;;
      tl <- PlotMeasurementBoxes ThermalData rest ;;
      Ok (a :: tl)
  end.

(** *** Temperature markers (lines 211-228) *)

(** The loop over [OverlayBoxes]: every overlay whose axes are the host
    axes of the click assigns [NewTemperature]; there is no [break]. *)
Fixpoint overlay_loop (host : axes) (x y : Q) (overlays : list Overlay)
  (NewTemperature : option float64) : result (option float64) :=
  match overlays with
  | [] => Ok NewTemperature
  | overlay :: rest =>
      if Nat.eqb host (OverlayAxes overlay)
      then t <- index2 (TemperatureArray overlay)
                       (display_to_data y) (display_to_data x) ;;
           overlay_loop host x y rest (Some t)
      else overlay_loop host x y rest NewTemperature
  end.

(** The temperature a click produces: [None] when the guard of line 213
    drops the click.  [AxesFound] is true exactly when the loop assigned
    [NewTemperature]. *)
Definition SamplePoint (st : State) (host : axes) (x y : Q)
  : result (option float64) :=
  if Qltb 1 x && Qltb 1 y then
    found <- overlay_loop host x y (OverlayBoxes st) None ;;
    match found with
    | Some t => Ok (Some t)
    | None =>
        t <- index2 (ThermalData st) (display_to_data y) (display_to_data x) ;;
        Ok (Some t)
    end
  else Ok None.

Definition AddMeasurementPointMouseClickCallback (st : State) (host : axes)
  (x y : Q) : result State :=
  sample <- SamplePoint st host x y ;;
  match sample with
  | None => Ok st
  | Some t =>
      let NewDict := {| X := x; Y := y; HostAxes := host; Temperature := t |} in
      Ok {| ThermalData := ThermalData st;
            MeasurementPoints := MeasurementPoints st ++ [NewDict];
            MeasurementBoxes := MeasurementBoxes st;
            OverlayBoxes := OverlayBoxes st;
            CurrentSelectionBox := CurrentSelectionBox st;
            NextAxes := NextAxes st |}
  end.

(** *** Marker labels (lines 230-239) *)

(** Where the label of a marker at (X, Y) is written. *)
Definition GetMarkerTextCoordinates (X Y : Q) : Q * Q :=
  let TextX := if Qltb 600 X then (X - 43)%Q else (X + 10)%Q in
  let TextY := if Qltb 473 Y then Y else (Y + 3)%Q in
  (TextX, TextY).

(** *** The minimum and maximum markers (lines 303-312) *)

(** What [PlotMinMaxMarkers] draws: the two markers and the anchors of
    their labels. *)
Record MinMaxMarkers : Type := {
  MinMarker : Q * Q;
  MaxMarker : Q * Q;
  MinText : Q * Q;
  MaxText : Q * Q
}.

Definition PlotMinMaxMarkers (ThermalData : grid) : result MinMaxMarkers :=
  r <- GetMinMaxTemperatureAndLocation ThermalData ;;
  let X1 := inject_Z (fst (MinLocation r)) in
  let Y1 := inject_Z (snd (MinLocation r)) in
  let X2 := inject_Z (fst (MaxLocation r)) in
  let Y2 := inject_Z (snd (MaxLocation r)) in
  Ok {| MinMarker := (X1, Y1);
        MaxMarker := (X2, Y2);
        MinText := GetMarkerTextCoordinates X1 Y1;
        MaxText := GetMarkerTextCoordinates X2 Y2 |}.

(** *** The frame of a measurement box (line 441) *)

(** The rectangle drawn for a box: its corner, its width and its height,
    in display coordinates. *)
Definition MeasurementFrame (box : Box) : (Z * Z) * Z * Z :=
  let NewX1 := display_to_data (X1 box) in
  let NewY1 := display_to_data (Y1 box) in
  let NewX2 := display_to_data (X2 box) in
  let NewY2 := display_to_data (Y2 box) in
  ((NewX1 * 4, NewY1 * 4), (NewX2 - NewX1) * 4, (NewY2 - NewY1) * 4).

(** *** Redrawing (lines 314-329) *)

(** The steps of [PlotImages] that compute on the session data: the
    minimum and maximum markers, when they are switched on, and the
    averages of the measurement boxes.  The first exception ends the
    redraw. *)
Definition PlotImages (ShowMinMaxTemperature : bool) (st : State)
  : result (list float64) :=
  _ <- (if ShowMinMaxTemperature
        then (m <- PlotMinMaxMarkers (ThermalData st) ;; Ok tt)
        else Ok tt) ;;
  PlotMeasurementBoxes (ThermalData st) (MeasurementBoxes st).

(** *** Key presses (lines 205-209) *)

Definition key_in (key : string) (keys : list string) : bool :=
  existsb (String.eqb key) keys.

(** [active] is [MyToggleSelectorRS.active]. *)
Definition ProcessKeyPresses (active : bool) (key : string) (st : State)
  : result State :=
  st1 <- (if key_in key ["A"%string; "a"%string] && active
          then CreateAverageTemperatureBox st else Ok st) ;;
  if key_in key ["T"%string; "t"%string] && active
  then AddOverlayBox st1 else Ok st1.

(** *** The two mode buttons (lines 338-362) *)

Inductive HelpText : Type :=
| MarkerHelpText
| SelectionBoxHelpText.

(** The mode flags together with what the two buttons touch besides them:
    the click callbacks connected to the canvas, the identifier kept for
    disconnecting (an attribute that does not exist before the first
    connection), and the texts written into the help panel. *)
Record Modes : Type := {
  MeasurementPointActive : bool;
  SelectorActive : bool;
  Connected : list nat;
  MeasurementPointMouseEventCallbackID : option nat;
  NextCallbackID : nat;
  HelpPanel : list HelpText
}.

Definition ClearHelpInfoText (m : Modes) : Modes :=
  {| MeasurementPointActive := MeasurementPointActive m;
     SelectorActive := SelectorActive m;
     Connected := Connected m;
     MeasurementPointMouseEventCallbackID :=
       MeasurementPointMouseEventCallbackID m;
     NextCallbackID := NextCallbackID m;
     HelpPanel := [] |}.

Definition write_help (t : HelpText) (m : Modes) : Modes :=
  {| MeasurementPointActive := MeasurementPointActive m;
     SelectorActive := SelectorActive m;
     Connected := Connected m;
     MeasurementPointMouseEventCallbackID :=
       MeasurementPointMouseEventCallbackID m;
     NextCallbackID := NextCallbackID m;
     HelpPanel := HelpPanel m ++ [t] |}.

Definition set_selector (b : bool) (m : Modes) : Modes :=
  {| MeasurementPointActive := MeasurementPointActive m;
     SelectorActive := b;
     Connected := Connected m;
     MeasurementPointMouseEventCallbackID :=
       MeasurementPointMouseEventCallbackID m;
     NextCallbackID := NextCallbackID m;
     HelpPanel := HelpPanel m |}.

(** [MeasurementPointActive=False] followed by [mpl_disconnect] of the
    identifier [cid]. *)
Definition marker_off (cid : nat) (m : Modes) : Modes :=
  {| MeasurementPointActive := false;
     SelectorActive := SelectorActive m;
     Connected := filter (fun c => negb (Nat.eqb c cid)) (Connected m);
     MeasurementPointMouseEventCallbackID :=
       MeasurementPointMouseEventCallbackID m;
     NextCallbackID := NextCallbackID m;
     HelpPanel := HelpPanel m |}.

(** [MeasurementPointActive=True] followed by [mpl_connect], which hands
    out a new identifier. *)
Definition marker_on (m : Modes) : Modes :=
  {| MeasurementPointActive := true;
     SelectorActive := SelectorActive m;
     Connected := Connected m ++ [NextCallbackID m];
     MeasurementPointMouseEventCallbackID := Some (NextCallbackID m);
     NextCallbackID := S (NextCallbackID m);
     HelpPanel := HelpPanel m |}.

(** The two handlers call each other; [fuel] bounds the depth of the
    calls, and [None] means that it ran out. *)
Fixpoint PressMeasurementMarkerButton (fuel : nat) (m : Modes)
  : option (result Modes) :=
  match fuel with
  | O => None
  | S fuel' =>
      if MeasurementPointActive m
      then match MeasurementPointMouseEventCallbackID m with
           | None => Some (Raise AttributeError)
           | Some cid => Some (Ok (ClearHelpInfoText (marker_off cid m)))
           end
      else
        match (if SelectorActive m
               then PressSelectionBoxButton fuel' m else Some (Ok m)) with
        | None => None
        | Some (Raise e) => Some (Raise e)
        | Some (Ok m1) => Some (Ok (write_help MarkerHelpText (marker_on m1)))
        end
  end
with PressSelectionBoxButton (fuel : nat) (m : Modes)
  : option (result Modes) :=
  match fuel with
  | O => None
  | S fuel' =>
      if SelectorActive m
      then Some (Ok (ClearHelpInfoText (set_selector false m)))
      else
        match (if MeasurementPointActive m
               then PressMeasurementMarkerButton fuel' m else Some (Ok m)) with
        | None => None
        | Some (Raise e) => Some (Raise e)
        | Some (Ok m1) =>
            Some (Ok (write_help SelectionBoxHelpText (set_selector true m1)))
        end
  end.

(** The modes once [__init__] and [AddWidgets] have run. *)
Definition initial_modes : Modes :=
  {| MeasurementPointActive := false;
     SelectorActive := false;
     Connected := [];
     MeasurementPointMouseEventCallbackID := None;
     NextCallbackID := 0%nat;
     HelpPanel := [] |}.

Inductive button : Type :=
| MarkerButton
| SelectBoxButton.

Definition press (fuel : nat) (b : button) (m : Modes)
  : option (result Modes) :=
  match b with
  | MarkerButton => PressMeasurementMarkerButton fuel m
  | SelectBoxButton => PressSelectionBoxButton fuel m
  end.

(** *** Sessions *)

(** One user action on the session data: a selection, one of the two key
    commands, or a click in marker mode. *)
Inductive action : Type :=
| Select (b : Box)
| KeyAverage
| KeyOverlay
| Click (host : axes) (x y : Q).

Definition select (b : Box) (st : State) : State :=
  {| ThermalData := ThermalData st;
     MeasurementPoints := MeasurementPoints st;
     MeasurementBoxes := MeasurementBoxes st;
     OverlayBoxes := OverlayBoxes st;
     CurrentSelectionBox :=
       SelectionBoxMouseClickCallback (CurrentSelectionBox st) b;
     NextAxes := NextAxes st |}.

Definition perform (a : action) (st : State) : result State :=
  match a with
  | Select b => Ok (select b st)
  | KeyAverage => CreateAverageTemperatureBox st
  | KeyOverlay => AddOverlayBox st
  | Click host x y => AddMeasurementPointMouseClickCallback st host x y
  end.

(** A failed [AddOverlayBox] may already have created its two axes; their
    numbers are not handed out again.  Every other failure happens before
    anything is changed. *)
Definition after_failure (a : action) (st : State) : State :=
  match a with
  | KeyOverlay =>
      {| ThermalData := ThermalData st;
         MeasurementPoints := MeasurementPoints st;
         MeasurementBoxes := MeasurementBoxes st;
         OverlayBoxes := OverlayBoxes st;
         CurrentSelectionBox := CurrentSelectionBox st;
         NextAxes := S (S (NextAxes st)) |}
  | _ => st
  end.

(** A run of actions: after an action that raises, the event loop goes on
    with the next one. *)
Fixpoint run (actions : list action) (st : State) : State :=
  match actions with
  | [] => st
  | a :: rest =>
      match perform a st with
      | Ok st' => run rest st'
      | Raise _ => run rest (after_failure a st)
      end
  end.

(** The session once [__init__] has run. *)
Definition initial_state (T : grid) : State :=
  {| ThermalData := T;
     MeasurementPoints := [];
     MeasurementBoxes := [];
     OverlayBoxes := [];
     CurrentSelectionBox := None;
     NextAxes := 1%nat |}.

End FLIR.

(** * Example inputs *)

Import Py Np FLIR.

(** The constants of the end-to-end example: R1 = 1000, R2 = 0.01,
    B = 1400, F = 1, O = 0, Emissivity = 0.95, RAT = 20.0. *)
Definition example_constants : Calibration :=
  {| PlanckR1 := of_Z 1000;
     PlanckR2 := of_Q (1 # 100);
     PlanckB := of_Z 1400;
     PlanckF := of_Z 1;
     PlanckO := of_Z 0;
     Emissivity := of_Q (95 # 100);
     RAT := of_Z 20 |}.

(** The same constants with a zero emissivity. *)
Definition zero_emissivity_constants : Calibration :=
  {| PlanckR1 := of_Z 1000;
     PlanckR2 := of_Q (1 # 100);
     PlanckB := of_Z 1400;
     PlanckF := of_Z 1;
     PlanckO := of_Z 0;
     Emissivity := of_Z 0;
     RAT := of_Z 20 |}.

(** A 4x4 grid holding 1 .. 16 in row-major order, shown at scale 4 on a
    16x16 display. *)
Definition grid4 : grid :=
  map (map of_Z) [[1; 2; 3; 4]; [5; 6; 7; 8]; [9; 10; 11; 12]; [13; 14; 15; 16]].

(** The box from display point (4, 4) to (8, 8): truncated corners (1, 1)
    and (2, 2). *)
Definition box_inner : Box := {| X1 := 4; Y1 := 4; X2 := 8; Y2 := 8 |}.

(** The box covering the whole 16x16 display. *)
Definition box_full : Box := {| X1 := 0; Y1 := 0; X2 := 16; Y2 := 16 |}.

(** The box covering the 640x480 display up to its last pixel. *)
Definition box_display : Box := {| X1 := 0; Y1 := 0; X2 := 639; Y2 := 479 |}.

(** A box at the left edge of the 640x480 display. *)
Definition box_left : Box := {| X1 := 2; Y1 := 50; X2 := 100; Y2 := 100 |}.

(** The box from display point (8, 8) to (16, 16): truncated corners
    (2, 2) and (4, 4). *)
Definition box_lower : Box := {| X1 := 8; Y1 := 8; X2 := 16; Y2 := 16 |}.

(** A session on the 4x4 grid in which one overlay was made from
    [box_lower]; its axes are numbered 1, the main picture has the
    axes 0. *)
Definition session_start : State :=
  {| ThermalData := grid4;
     MeasurementPoints := [];
     MeasurementBoxes := [];
     OverlayBoxes := [];
     CurrentSelectionBox := SelectionBoxMouseClickCallback None box_lower;
     NextAxes := 1%nat |}.

Definition session_with_overlay : State :=
  match AddOverlayBox session_start with
  | Ok st => st
  | Raise _ => session_start
  end.

(** Overlays made by [AddOverlayBox] have pairwise distinct axes, all
    numbered below the next free number. *)
Definition axes_distinct (st : State) : Prop :=
  NoDup (map OverlayAxes (OverlayBoxes st)) /\
  Forall (fun overlay => (OverlayAxes overlay < NextAxes st)%nat)
         (OverlayBoxes st).

(** A grid holding 3, 1 in its first row and 2, 5 in its second. *)
Definition grid2 : grid := map (map of_Z) [[3; 1]; [2; 5]].

(** A grid in which both extrema occur twice. *)
Definition grid_ties : grid := map (map of_Z) [[4; 9; 1]; [1; 9; 4]].

(** A grid with a cell that is not a number. *)
Definition grid_nan : grid := [[NaN; of_Z 1]].

(** A uniform grid, and a grid holding 0, 5 and 10. *)
Definition grid_flat : grid := map (map of_Z) [[5; 5]; [5; 5]].
Definition grid_0_5_10 : grid := map (map of_Z) [[0; 5; 10]].

(** A grid whose range, 2^1024, is beyond the largest float64. *)
Definition grid_wide : grid := [[of_Z (- 2 ^ 1023); of_Z (2 ^ 1023)]].

(** * Auxiliary definitions *)

(** The uint16 expression of line 152 on one sample. *)
Definition swap16 (raw : Z) : Z :=
  u16 (Z.shiftr raw 8 + u16 (Z.shiftl (Z.land raw 255) 8)).

Definition samples_16bit (g : array2 Z) : Prop :=
  Forall (Forall (fun raw => 0 <= raw < 65536)) g.

(** [l'] is [l] with further elements appended. *)
Definition extends {A : Type} (l l' : list A) : Prop :=
  exists more : list A, l' = l ++ more.

(** What every action keeps: the thermal data, and everything already in
    the three sequences. *)
Definition grows (st st' : State) : Prop :=
  ThermalData st' = ThermalData st /\
  extends (MeasurementPoints st) (MeasurementPoints st') /\
  extends (MeasurementBoxes st) (MeasurementBoxes st') /\
  extends (OverlayBoxes st) (OverlayBoxes st') /\
  (NextAxes st <= NextAxes st')%nat.

(** What holds of a session however it was reached. *)
Definition session_ok (st : State) : Prop :=
  axes_distinct st /\
  (1 <= NextAxes st)%nat /\
  Forall (fun overlay =>
            (1 <= OverlayAxes overlay)%nat /\
            concat (TemperatureArray overlay) <> [] /\
            PixelWidth overlay <> 0 /\
            PixelHeight overlay <> 0)
         (OverlayBoxes st) /\
  (forall b, CurrentSelectionBox st = Some b -> selection_accepted b = true) /\
  Forall (fun b => selection_accepted b = true) (MeasurementBoxes st).

(** A sequence of button presses; a press that raises ends it. *)
Fixpoint presses (fuel : nat) (buttons : list button) (m : Modes)
  : option (result Modes) :=
  match buttons with
  | [] => Some (Ok m)
  | b :: rest =>
      match press fuel b m with
      | Some (Ok m') => presses fuel rest m'
      | other => other
      end
  end.

(** At most one mode is active; the click callback is connected exactly
    while the marker mode is active, once, under the identifier kept for
    disconnecting it; and the help panel shows the text of the active
    mode and nothing else. *)
Definition modes_ok (m : Modes) : Prop :=
  (MeasurementPointActive m && SelectorActive m = false) /\
  (if MeasurementPointActive m
   then exists cid : nat,
          MeasurementPointMouseEventCallbackID m = Some cid /\
          Connected m = [cid]
   else Connected m = []) /\
  HelpPanel m =
    (if MeasurementPointActive m then [MarkerHelpText]
     else if SelectorActive m then [SelectionBoxHelpText]
     else []).

(** * Properties *)

(** ** Cells of arrays built by whole-array operations *)

Section Arrays.

Context {A B C : Type}.

Lemma nth_error_zip_with (f : A -> B -> C) (l : list A) (l' : list B) (n : nat) :
  nth_error (zip_with f l l') n =
  match nth_error l n, nth_error l' n with
  | Some a, Some b => Some (f a b)
  | _, _ => None
  end.
Proof.
  revert l' n.
  induction l as [|a l IH]; intros [|b l'] [|n]; simpl; try reflexivity.
  - destruct (nth_error l n); reflexivity.
  - apply IH.
Qed.

Lemma cell_map2d (f : A -> B) (g : array2 A) (r c : nat) :
  cell (map2d f g) r c = option_map f (cell g r c).
Proof.
  unfold cell, map2d.
  rewrite nth_error_map.
  destruct (nth_error g r) as [row|]; simpl; [|reflexivity].
  apply nth_error_map.
Qed.

Lemma length_map2d (f : A -> B) (g : array2 A) :
  length (map2d f g) = length g.
Proof. apply length_map. Qed.

End Arrays.

Lemma cell_zip_map2d {A B C D : Type} (h : B -> C -> D) (f : A -> B)
  (f' : A -> C) (g : array2 A) (r c : nat) :
  cell (zip_with (zip_with h) (map2d f g) (map2d f' g)) r c =
  option_map (fun x => h (f x) (f' x)) (cell g r c).
Proof.
  unfold cell, map2d.
  rewrite nth_error_zip_with, !nth_error_map.
  destruct (nth_error g r) as [row|]; simpl; [|reflexivity].
  rewrite nth_error_zip_with, !nth_error_map.
  destruct (nth_error row c); reflexivity.
Qed.

(** ** The byte-order fix-up *)

Section ByteOrder.

Lemma swap_halves_disjoint (raw : Z) :
  0 <= raw < 65536 ->
  Z.land (Z.shiftr raw 8) (Z.shiftl (Z.land raw 255) 8) = 0.
Proof.
  intros Hraw.
  apply Z.bits_inj'; intros n Hn.
  rewrite Z.land_spec, Z.bits_0, Z.shiftr_spec by assumption.
  destruct (Z.ltb_spec n 8) as [Hlt|Hge].
  - rewrite Z.shiftl_spec_low by assumption. apply andb_false_r.
  - destruct (Z.eq_dec raw 0) as [->|Hnz].
    + rewrite Z.bits_0. reflexivity.
    + rewrite (Z.bits_above_log2 raw (n + 8)); [reflexivity|lia|].
      apply Z.log2_lt_pow2; [lia|].
      apply Z.lt_le_trans with (2 ^ 16); [simpl; lia|].
      apply Z.pow_le_mono_r; lia.
Qed.

Lemma swap_in_range (raw : Z) :
  0 <= raw < 65536 ->
  0 <= Z.shiftl (Z.land raw 255) 8 < 65536 /\
  0 <= Z.shiftr raw 8 + Z.shiftl (Z.land raw 255) 8 < 65536.
Proof.
  intros Hraw.
  change 255 with (Z.ones 8).
  rewrite Z.land_ones, Z.shiftl_mul_pow2, Z.shiftr_div_pow2 by lia.
  change (2 ^ 8) with 256.
  assert (0 <= raw mod 256 < 256) by (apply Z.mod_pos_bound; lia).
  assert (0 <= raw / 256 < 256).
  { split; [apply Z.div_pos; lia|apply Z.div_lt_upper_bound; lia]. }
  lia.
Qed.

(** On a 16-bit sample the uint16 arithmetic of line 152 is the byte swap
    [(raw >> 8) | ((raw & 0xFF) << 8)]. *)
Lemma swap_sample (raw : Z) :
  0 <= raw < 65536 ->
  u16 (Z.shiftr raw 8 + u16 (Z.shiftl (Z.land raw 255) 8)) = spec_swap raw.
Proof.
  intros Hraw.
  destruct (swap_in_range raw Hraw) as [Hhi Hsum].
  unfold u16, spec_swap.
  rewrite (Z.mod_small (Z.shiftl _ _)) by assumption.
  rewrite Z.mod_small by assumption.
  rewrite Z.add_nocarry_lxor by (apply swap_halves_disjoint; assumption).
  apply Z.lxor_lor, swap_halves_disjoint; assumption.
Qed.

Lemma cell_FixByteOrder (bo : string) (g : array2 Z) (r c : nat) :
  cell (FixByteOrder bo g) r c =
  if is_little bo
  then option_map
         (fun raw => u16 (Z.shiftr raw 8 + u16 (Z.shiftl (Z.land raw 255) 8)))
         (cell g r c)
  else cell g r c.
Proof.
  unfold FixByteOrder.
  destruct (is_little bo); [|reflexivity].
  unfold add_u16, right_shift, left_shift, bitwise_and.
  assert (Hfuse : map2d (fun x => u16 (Z.shiftl x 8))
                        (map2d (fun x => Z.land x 255) g) =
                  map2d (fun x => u16 (Z.shiftl (Z.land x 255) 8)) g).
  { unfold map2d. rewrite map_map. apply map_ext; intros row.
    rewrite map_map. reflexivity. }
  rewrite Hfuse.
  apply (cell_zip_map2d (fun x y => u16 (x + y))).
Qed.

(** C3.  Every 16-bit raw sample is replaced by
    [(raw >> 8) | ((raw & 0xFF) << 8)] exactly when the part of the declared
    byte order before its first dash is ["Little"] (as it is for
    ["Little-endian (Intel, II)"]), and is passed through unchanged for
    every other declared byte order (such as
    ["Big-endian (Motorola, MM)"]). *)
Theorem byte_order_fix_swaps_exactly_little :
  forall (bo : string) (g : array2 Z) (r c : nat) (raw : Z),
    cell g r c = Some raw ->
    0 <= raw < 65536 ->
    cell (FixByteOrder bo g) r c =
      Some (if is_little bo then spec_swap raw else raw)
    /\ is_little "Little-endian (Intel, II)" = true
    /\ is_little "Big-endian (Motorola, MM)" = false.
Proof.
  intros bo g r c raw Hcell Hraw.
  split; [|split; reflexivity].
  rewrite cell_FixByteOrder, Hcell.
  destruct (is_little bo); simpl; [|reflexivity].
  f_equal. apply swap_sample; assumption.
Qed.

Lemma byte_order_fix_witness :
  cell (FixByteOrder "Little-endian (Intel, II)" [[30000; 1]; [258; 65535]])
       1 0 = Some 513.
Proof.
  destruct (byte_order_fix_swaps_exactly_little
              "Little-endian (Intel, II)" [[30000; 1]; [258; 65535]]
              1%nat 0%nat 258 eq_refl ltac:(lia)) as [H _].
  exact H.
Defined.

End ByteOrder.

(** ** Radiometric conversion *)

Lemma map2d_map2d {A B C : Type} (f : B -> C) (h : A -> B) (g : array2 A) :
  map2d f (map2d h g) = map2d (fun x => f (h x)) g.
Proof.
  unfold map2d. rewrite map_map. apply map_ext; intros row.
  rewrite map_map. reflexivity.
Qed.

Lemma Qc_eqb_eq (a b : Qc) : Qc_eqb a b = true -> a = b.
Proof.
  unfold Qc_eqb. intros H.
  apply Qc_is_canon, Qeq_alt.
  unfold Qccompare in H.
  destruct (this a ?= this b)%Q; [reflexivity|discriminate..].
Qed.

Lemma Qc_eqb_refl (a : Qc) : Qc_eqb a a = true.
Proof.
  unfold Qc_eqb, Qccompare.
  replace (this a ?= this a)%Q with Eq; [reflexivity|].
  symmetry. apply Qeq_alt. reflexivity.
Qed.

Lemma eqb_eq (a b : float64) : eqb a b = true -> a = b.
Proof.
  destruct a, b; simpl; intros H; try discriminate; try reflexivity.
  f_equal. apply Qc_eqb_eq; assumption.
Qed.

Section Calibrate.

Variable np_exp : float64 -> float64.
Variable np_log : float64 -> float64.

(** The whole-array passes of lines 155-157 compute, in every cell, the
    three-step formula on that cell's corrected sample; the reflected
    radiation factor is computed once, before the grid is touched. *)
Lemma Radiance2Temperature_pixels (c : Calibration) (g : array2 Z) :
  Radiance2Temperature np_exp np_log c g =
  (ReflFactor <- spec_ReflFactor np_exp c ;;
   Ok (map2d (spec_pixel np_log c ReflFactor) g)).
Proof.
  unfold Radiance2Temperature, spec_ReflFactor.
  destruct (truediv (PlanckB c) (add (RAT c) kelvin)) as [e|err]; simpl;
    [|reflexivity].
  rewrite !map2d_map2d. reflexivity.
Qed.

Lemma GetThermalData_pixels (c : Calibration) (bo : string) (g : array2 Z) :
  match spec_ReflFactor np_exp c with
  | Raise e => GetThermalData np_exp np_log c bo g = Raise e
  | Ok ReflFactor =>
      exists T : grid,
        GetThermalData np_exp np_log c bo g = Ok T /\
        forall r k : nat,
          cell T r k =
          option_map (spec_pixel np_log c ReflFactor)
                     (cell (FixByteOrder bo g) r k)
  end.
Proof.
  unfold GetThermalData. rewrite Radiance2Temperature_pixels.
  destruct (spec_ReflFactor np_exp c) as [refl|e]; simpl; [|reflexivity].
  eexists; split; [reflexivity|].
  intros r k. apply cell_map2d.
Qed.

(** The scalar factor fails only on the Python division of its exponent,
    that is when [RAT + 273.15] is zero. *)
Lemma spec_ReflFactor_raises (c : Calibration) :
  raises (spec_ReflFactor np_exp c) = eqb (add (RAT c) kelvin) (Fin zeroQc).
Proof.
  unfold spec_ReflFactor, truediv.
  destruct (eqb (add (RAT c) kelvin) (Fin zeroQc)); reflexivity.
Qed.

(** With a zero emissivity the object radiation is never a finite number:
    numpy divides by zero without raising. *)
Lemma spec_ObjRad_zero_emissivity (c : Calibration) (refl x : float64) :
  eqb (Emissivity c) (of_Z 0) = true ->
  is_finite (spec_ObjRad c refl x) = false.
Proof.
  intros H. apply eqb_eq in H.
  unfold spec_ObjRad. rewrite H.
  destruct (sub x (mul (sub one (of_Z 0)) refl)) as [q| | |]; simpl;
    try reflexivity.
  change (Qc_eqb (Q2Qc (inject_Z 0)) zeroQc) with true; simpl.
  unfold signed_inf. destruct (Qccompare q zeroQc); reflexivity.
Qed.

End Calibrate.

(** C1.  For constants with a positive emissivity, every output pixel of
    the conversion is the three-step formula applied to the corrected
    sample of the same cell: the reflected radiation factor is computed
    once, the object radiation and the temperature per pixel.  (When the
    factor itself cannot be computed, because its exponent divides by a
    zero [RAT + 273.15], the conversion raises that same error.)  In
    particular the raw sample 30000 under the example constants converts to
    the value of the formula evaluated on its own. *)
Theorem calibrate_follows_formula :
  forall (np_exp np_log : float64 -> float64) (c : Calibration)
         (bo : string) (g : array2 Z),
    ltb (of_Z 0) (Emissivity c) = true ->
    match spec_ReflFactor np_exp c with
    | Raise e => GetThermalData np_exp np_log c bo g = Raise e
    | Ok ReflFactor =>
        exists T : grid,
          GetThermalData np_exp np_log c bo g = Ok T /\
          forall r k : nat,
            cell T r k =
            option_map
              (fun corrected =>
                 spec_Temp np_log c
                   (spec_ObjRad c ReflFactor (of_Z corrected)))
              (cell (FixByteOrder bo g) r k)
    end
    /\ exists ReflFactor : float64,
         spec_ReflFactor np_exp example_constants = Ok ReflFactor /\
         GetThermalData np_exp np_log example_constants
           "Big-endian (Motorola, MM)" [[30000]] =
         Ok [[spec_Temp np_log example_constants
                (spec_ObjRad example_constants ReflFactor (of_Z 30000))]].
Proof.
  intros np_exp np_log c bo g _.
  split.
  - exact (GetThermalData_pixels np_exp np_log c bo g).
  - eexists; split; reflexivity.
Qed.

Lemma calibrate_follows_formula_witness :
  ltb (of_Z 0) (Emissivity example_constants) = true /\
  exists T : grid,
    GetThermalData (fun x => x) (fun x => x) example_constants
      "Little-endian (Intel, II)" [[30000; 12405]] = Ok T /\
    length T = 1%nat.
Proof.
  split; [reflexivity|].
  destruct (calibrate_follows_formula (fun x => x) (fun x => x)
              example_constants "Little-endian (Intel, II)"
              [[30000; 12405]] eq_refl) as [[T [HT _]] _].
  exists T. split; [exact HT|].
  apply (f_equal (fun r => match r with Ok t => length t | Raise _ => 0%nat end))
    in HT.
  symmetry. exact HT.
Defined.

(** C2, as stated, fails: with a zero emissivity the conversion of the
    sample 30000 raises nothing and returns a grid. *)
Lemma zero_emissivity_returns_grid :
  eqb (Emissivity zero_emissivity_constants) (of_Z 0) = true /\
  forall (np_exp np_log : float64 -> float64) (bo : string),
    exists T : grid,
      GetThermalData np_exp np_log zero_emissivity_constants bo [[30000]] =
      Ok T.
Proof.
  split; [reflexivity|].
  intros np_exp np_log bo.
  unfold GetThermalData. rewrite Radiance2Temperature_pixels.
  eexists. reflexivity.
Qed.

(** C2, amended.  A zero emissivity is not rejected: the conversion behaves
    as for any other emissivity.  It returns the grid of the three-step
    formula, in which the object radiation of every pixel is the
    non-finite result (an infinity or NaN) of numpy's division by zero;
    the only error it can raise is the one of the reflected radiation
    factor, which does not depend on the emissivity. *)
Theorem zero_emissivity_not_rejected :
  forall (np_exp np_log : float64 -> float64) (c : Calibration)
         (bo : string) (g : array2 Z),
    eqb (Emissivity c) (of_Z 0) = true ->
    match spec_ReflFactor np_exp c with
    | Raise e => GetThermalData np_exp np_log c bo g = Raise e
    | Ok ReflFactor =>
        exists T : grid,
          GetThermalData np_exp np_log c bo g = Ok T /\
          (forall r k : nat,
             cell T r k =
             option_map
               (fun corrected =>
                  spec_Temp np_log c
                    (spec_ObjRad c ReflFactor (of_Z corrected)))
               (cell (FixByteOrder bo g) r k)) /\
          forall corrected : Z,
            is_finite (spec_ObjRad c ReflFactor (of_Z corrected)) = false
    end
    /\ raises (spec_ReflFactor np_exp c) =
       eqb (add (RAT c) kelvin) (of_Z 0).
Proof.
  intros np_exp np_log c bo g Hzero.
  split; [|apply spec_ReflFactor_raises].
  pose proof (GetThermalData_pixels np_exp np_log c bo g) as H.
  destruct (spec_ReflFactor np_exp c) as [refl|e]; [|exact H].
  destruct H as [T [HT Hcells]].
  exists T. split; [exact HT|]. split; [exact Hcells|].
  intros corrected. apply spec_ObjRad_zero_emissivity; assumption.
Qed.

Lemma zero_emissivity_not_rejected_witness :
  eqb (Emissivity zero_emissivity_constants) (of_Z 0) = true /\
  raises (GetThermalData (fun x => x) (fun x => x) zero_emissivity_constants
            "Little-endian (Intel, II)" [[30000]]) = false.
Proof.
  split; [reflexivity|].
  destruct (zero_emissivity_not_rejected (fun x => x) (fun x => x)
              zero_emissivity_constants "Little-endian (Intel, II)"
              [[30000]] eq_refl) as [[T [HT _]] _].
  rewrite HT. reflexivity.
Defined.

(** ** Display space and data space *)

Section Resolution.

Local Open Scope Q_scope.

Lemma int_floor (q : Q) : 0 <= q -> Py.int q = Qfloor q.
Proof.
  destruct q as [n d]. unfold Qle, Py.int, Qfloor. simpl. intros Hn.
  apply Z.quot_div_nonneg; lia.
Qed.

Lemma scale_down_bounds (s : Z) (x : Q) :
  (0 < s)%Z -> 0 <= x ->
  inject_Z (scale_up s (scale_down s x)) <= x /\
  x < inject_Z (scale_up s (scale_down s x)) + inject_Z s.
Proof.
  intros Hs Hx.
  assert (HS : 0 < inject_Z s).
  { change 0 with (inject_Z 0). rewrite <- Zlt_Qlt. assumption. }
  assert (Hq : 0 <= x / inject_Z s).
  { apply Qle_shift_div_l; [assumption|]. rewrite Qmult_0_l. assumption. }
  unfold scale_up, scale_down.
  rewrite (int_floor _ Hq), inject_Z_mult.
  pose proof (Qfloor_le (x / inject_Z s)) as Hlo.
  pose proof (Qlt_floor (x / inject_Z s)) as Hhi.
  rewrite inject_Z_plus in Hhi.
  set (f := inject_Z (Qfloor (x / inject_Z s))) in *.
  assert (Hx' : x == (x / inject_Z s) * inject_Z s).
  { rewrite Qmult_comm, Qmult_div_r; [reflexivity|].
    intros H0. rewrite H0 in HS. discriminate. }
  set (q := x / inject_Z s) in *.
  clearbody q f. change (inject_Z 1) with 1 in Hhi.
  split.
  - rewrite Hx', Qmult_comm.
    apply Qmult_le_compat_r; [assumption|apply Qlt_le_weak; assumption].
  - rewrite Hx'.
    setoid_replace (inject_Z s * f + inject_Z s) with ((f + 1) * inject_Z s)
      by ring.
    apply Qmult_lt_compat_r; assumption.
Qed.

(** C9.  For every non-negative display coordinate, dividing by the scale
    factor, truncating, and multiplying back lands at or below the original
    coordinate and strictly less than one scale factor away from it; the
    source's conversions are the instance of the factor 4. *)
Theorem round_trip_within_one_cell :
  forall (s : Z) (x : Q),
    (0 < s)%Z -> 0 <= x ->
    Qabs (x - inject_Z (scale_up s (scale_down s x))) < inject_Z s
    /\ inject_Z (scale_up s (scale_down s x)) <= x
    /\ (s = ResolutionScale ->
        scale_down s x = display_to_data x /\
        scale_up s (scale_down s x) = (4 * Py.int (x / 4))%Z).
Proof.
  intros s x Hs Hx.
  destruct (scale_down_bounds s x Hs Hx) as [Hlo Hhi].
  split; [|split].
  - apply Qabs_Qlt_condition. split; lra.
  - assumption.
  - intros ->. split; reflexivity.
Qed.

Lemma round_trip_within_one_cell_witness :
  (0 < 4)%Z /\ 0 <= 639 # 2 /\
  scale_up 4 (scale_down 4 (639 # 2)) = 316%Z /\
  Qabs ((639 # 2) - inject_Z (scale_up 4 (scale_down 4 (639 # 2)))) < inject_Z 4.
Proof.
  split; [lia|]. split; [discriminate|]. split; [reflexivity|].
  apply (round_trip_within_one_cell 4 (639 # 2)); [lia|discriminate].
Defined.

End Resolution.

(** ** Slices *)

Section Slices.

Context {A : Type}.

Lemma clip_nonneg (n i : Z) : 0 <= n -> 0 <= i -> clip n i = Z.min i n.
Proof.
  intros Hn Hi. unfold clip.
  destruct (Z.ltb_spec i 0); [lia|].
  destruct (Z.ltb_spec i 0); [lia|].
  destruct (Z.ltb_spec n i); lia.
Qed.

Lemma clip_minus_one (n : Z) : 0 < n -> clip n (-1) = n - 1.
Proof.
  intros Hn. unfold clip. change (-1 <? 0) with true. cbv iota.
  destruct (Z.ltb_spec (-1 + n) 0); [lia|].
  destruct (Z.ltb_spec n (-1 + n)); lia.
Qed.

Lemma nth_error_slice (start stop : Z) (l : list A) (i : nat) :
  0 <= start -> 0 <= stop ->
  nth_error (slice start stop l) i =
  if Z.of_nat i <? stop - start
  then nth_error l (Z.to_nat start + i)
  else None.
Proof.
  intros Hstart Hstop.
  unfold slice.
  rewrite !clip_nonneg by lia.
  rewrite nth_error_firstn, nth_error_skipn.
  match goal with
  | |- context [Nat.ltb ?a ?b] => destruct (Nat.ltb_spec a b)
  end;
    destruct (Z.ltb_spec (Z.of_nat i) (stop - start));
    try reflexivity;
    try (f_equal; lia);
    try (symmetry; apply nth_error_None; lia);
    try (apply nth_error_None; lia).
Qed.

Lemma length_slice (start stop : Z) (l : list A) :
  0 <= start <= stop -> stop <= Z.of_nat (length l) ->
  length (slice start stop l) = Z.to_nat (stop - start).
Proof.
  intros Hs Hn.
  unfold slice.
  rewrite !clip_nonneg by lia.
  rewrite length_firstn, length_skipn. lia.
Qed.

(** A start of -1 is the last index: the slice is empty unless the stop
    lies at or beyond the end of the list. *)
Lemma slice_from_minus_one_empty (stop : Z) (l : list A) :
  0 <= stop < Z.of_nat (length l) ->
  slice (-1) stop l = [].
Proof.
  intros Hstop.
  unfold slice.
  rewrite clip_minus_one, clip_nonneg by lia.
  replace (Z.to_nat (Z.min stop (Z.of_nat (length l)) -
                     (Z.of_nat (length l) - 1))) with 0%nat by lia.
  reflexivity.
Qed.

End Slices.

Lemma cell_slice2 {A : Type} (r0 r1 c0 c1 : Z) (g : array2 A) (i j : nat) :
  0 <= r0 -> 0 <= r1 -> 0 <= c0 -> 0 <= c1 ->
  cell (slice2 r0 r1 c0 c1 g) i j =
  if (Z.of_nat i <? r1 - r0) && (Z.of_nat j <? c1 - c0)
  then cell g (Z.to_nat r0 + i) (Z.to_nat c0 + j)
  else None.
Proof.
  intros Hr0 Hr1 Hc0 Hc1.
  unfold cell, slice2.
  rewrite nth_error_map, nth_error_slice by assumption.
  destruct (Z.of_nat i <? r1 - r0); simpl; [|reflexivity].
  destruct (nth_error g (Z.to_nat r0 + i)) as [row|]; simpl.
  - apply nth_error_slice; assumption.
  - destruct (Z.of_nat j <? c1 - c0); reflexivity.
Qed.

(** ** The subregion of a box *)

(** C4, as stated, fails: for truncated corners (1, 1) and (2, 2) the
    subregion is the 2x2 block of the base rows and columns 0 and 1; the
    pixel at the truncated upper index (2, 2) is not part of it. *)
Lemma subregion_misses_upper_index :
  display_to_data (X1 box_inner) = 1 /\
  display_to_data (Y1 box_inner) = 1 /\
  display_to_data (X2 box_inner) = 2 /\
  display_to_data (Y2 box_inner) = 2 /\
  Subregion grid4 box_inner = [[of_Z 1; of_Z 2]; [of_Z 5; of_Z 6]] /\
  cell grid4 2 2 = Some (of_Z 11) /\
  cell (Subregion grid4 box_inner) 2 2 = None.
Proof. repeat split; reflexivity. Qed.

(** C4, amended.  For a box whose truncated low corner indices are at least
    1, the subregion spans, in each axis, from one index before the
    truncated low corner (inclusive) up to one index before the truncated
    upper index (inclusive): the base cell (r, c) is the subregion cell
    (r - (y1 - 1), c - (x1 - 1)) exactly when y1 - 1 <= r < y2 and
    x1 - 1 <= c < x2, so the pixel at the truncated upper index is left
    out. *)
Theorem subregion_is_half_open :
  forall (A : Type) (T : array2 A) (b : Box),
    1 <= display_to_data (X1 b) ->
    1 <= display_to_data (Y1 b) ->
    0 <= display_to_data (X2 b) ->
    0 <= display_to_data (Y2 b) ->
    forall i j : nat,
      cell (Subregion T b) i j =
      if (display_to_data (Y1 b) - 1 + Z.of_nat i <? display_to_data (Y2 b))
         && (display_to_data (X1 b) - 1 + Z.of_nat j <? display_to_data (X2 b))
      then cell T (Z.to_nat (display_to_data (Y1 b) - 1) + i)
                  (Z.to_nat (display_to_data (X1 b) - 1) + j)
      else None.
Proof.
  intros A T b Hx1 Hy1 Hx2 Hy2 i j.
  unfold Subregion.
  rewrite cell_slice2 by lia.
  replace (Z.of_nat i <? display_to_data (Y2 b) - (display_to_data (Y1 b) - 1))
    with (display_to_data (Y1 b) - 1 + Z.of_nat i <? display_to_data (Y2 b)).
  2:{ destruct (Z.ltb_spec (display_to_data (Y1 b) - 1 + Z.of_nat i)
                           (display_to_data (Y2 b)));
      symmetry; [apply Z.ltb_lt|apply Z.ltb_ge]; lia. }
  replace (Z.of_nat j <? display_to_data (X2 b) - (display_to_data (X1 b) - 1))
    with (display_to_data (X1 b) - 1 + Z.of_nat j <? display_to_data (X2 b)).
  2:{ destruct (Z.ltb_spec (display_to_data (X1 b) - 1 + Z.of_nat j)
                           (display_to_data (X2 b)));
      symmetry; [apply Z.ltb_lt|apply Z.ltb_ge]; lia. }
  reflexivity.
Qed.

Lemma subregion_is_half_open_witness :
  1 <= display_to_data (X1 box_inner) /\
  cell (Subregion grid4 box_inner) 1 1 = cell grid4 1 1 /\
  cell (Subregion grid4 box_inner) 1 2 = None.
Proof.
  split; [discriminate|].
  split.
  - apply (subregion_is_half_open float64 grid4 box_inner
             ltac:(discriminate) ltac:(discriminate)
             ltac:(discriminate) ltac:(discriminate) 1%nat 1%nat).
  - apply (subregion_is_half_open float64 grid4 box_inner
             ltac:(discriminate) ltac:(discriminate)
             ltac:(discriminate) ltac:(discriminate) 1%nat 2%nat).
Defined.

(** ** Boxes at the left or top edge *)

Lemma fold_zip_with_nil {A : Type} (f : A -> A -> A) (rows : list (list A)) :
  fold_left (zip_with f) rows [] = [].
Proof. induction rows as [|r rows IH]; simpl; [reflexivity|exact IH]. Qed.

Lemma concat_all_nil {A : Type} (rows : list (list A)) :
  Forall (fun r => r = []) rows -> concat rows = [].
Proof.
  induction 1 as [|r rows Hr _ IH]; simpl; [reflexivity|].
  rewrite Hr, IH. reflexivity.
Qed.

(** The column slice of every row is empty when the truncated low column
    index is 0 and the truncated upper one lies inside the rows. *)
Lemma columns_wrap_to_empty {A : Type} (w : nat) (x2 : Z) (rows : list (list A)) :
  Forall (fun row => length row = w) rows ->
  0 <= x2 < Z.of_nat w ->
  Forall (fun r => r = []) (map (slice (0 - 1) x2) rows).
Proof.
  intros Hrows Hx2.
  apply Forall_map.
  eapply Forall_impl; [|exact Hrows].
  intros row Hlen. apply slice_from_minus_one_empty. rewrite Hlen. assumption.
Qed.

Lemma Forall_firstn {A : Type} (P : A -> Prop) (n : nat) (l : list A) :
  Forall P l -> Forall P (firstn n l).
Proof.
  intros H. revert n.
  induction H as [|a l Ha _ IH]; intros [|n]; simpl; constructor; auto.
Qed.

Lemma Forall_skipn {A : Type} (P : A -> Prop) (n : nat) (l : list A) :
  Forall P l -> Forall P (skipn n l).
Proof.
  intros H. revert n.
  induction H as [|a l Ha Hl IH]; intros [|n]; simpl; auto.
Qed.

Lemma Forall_slice {A : Type} (P : A -> Prop) (start stop : Z) (l : list A) :
  Forall P l -> Forall P (slice start stop l).
Proof.
  intros H. unfold slice.
  apply Forall_firstn, Forall_skipn. assumption.
Qed.

(** With at least one row selected and every column slice empty, the sum is
    the integer 0 and the number of samples is 0: the division raises. *)
Lemma average_of_empty_columns (T : grid) (b : Box) (w : nat) :
  Forall (fun row => length row = w) T ->
  display_to_data (X1 b) = 0 ->
  0 <= display_to_data (X2 b) < Z.of_nat w ->
  slice (display_to_data (Y1 b) - 1) (display_to_data (Y2 b)) T <> [] ->
  size (Subregion T b) = 0%nat /\
  sum_total (sum_rows (Subregion T b)) = Ok IntZero /\
  AverageTemperature T b = Raise ZeroDivisionError.
Proof.
  intros Hrect Hx1 Hx2 Hrows.
  assert (Hempty : Forall (fun r => r = []) (Subregion T b)).
  { unfold Subregion, slice2. rewrite Hx1.
    apply columns_wrap_to_empty with (w := w); [|assumption].
    apply Forall_slice. assumption. }
  assert (Hsize : size (Subregion T b) = 0%nat).
  { unfold size. rewrite concat_all_nil by assumption. reflexivity. }
  assert (Hsum : sum_total (sum_rows (Subregion T b)) = Ok IntZero).
  { unfold Subregion, slice2 in *.
    destruct (slice (display_to_data (Y1 b) - 1) (display_to_data (Y2 b)) T)
      as [|r rest]; [contradiction|].
    simpl in *. inversion Hempty as [|? ? Hr Hrest]; subst.
    rewrite Hr. simpl. rewrite fold_zip_with_nil. reflexivity. }
  split; [assumption|]. split; [assumption|].
  unfold AverageTemperature. fold (Subregion T b).
  rewrite Hsum, Hsize. reflexivity.
Qed.

(** C10.  The box from (2, 50) to (100, 100) is accepted by the selection
    path, is not degenerate and lies inside the 640x480 display; its
    truncated low column index is 0, so the column slice starts at -1; on
    every 120x160 grid its subregion has no cell, and the average is the
    sum (the integer 0) divided by a cell count of 0, which raises
    [ZeroDivisionError].  More generally a row slice starting at -1 is
    empty whenever its stop lies inside the row. *)
Theorem edge_box_divides_by_zero :
  exists b : Box,
    selection_accepted b = true /\
    (0 <= X1 b)%Q /\ (X1 b < X2 b)%Q /\ (0 <= Y1 b)%Q /\ (Y1 b < Y2 b)%Q /\
    display_to_data (X1 b) - 1 = -1 /\
    (forall T : grid,
       length T = 120%nat ->
       Forall (fun row => length row = 160%nat) T ->
       size (Subregion T b) = 0%nat /\
       sum_total (sum_rows (Subregion T b)) = Ok IntZero /\
       divide_by_samples IntZero (size (Subregion T b)) =
         Raise ZeroDivisionError /\
       AverageTemperature T b = Raise ZeroDivisionError) /\
    (forall (row : list float64) (b' : Box),
       display_to_data (X1 b') = 0 ->
       0 <= display_to_data (X2 b') < Z.of_nat (length row) ->
       slice (display_to_data (X1 b') - 1) (display_to_data (X2 b')) row = []).
Proof.
  exists box_left.
  split; [reflexivity|].
  split; [discriminate|]. split; [reflexivity|].
  split; [discriminate|]. split; [reflexivity|].
  split; [reflexivity|].
  split.
  - intros T Hlen Hrect.
    destruct (average_of_empty_columns T box_left 160 Hrect eq_refl)
      as [Hsize [Hsum Havg]].
    + split; [discriminate|reflexivity].
    + change (display_to_data (Y1 box_left) - 1) with 11.
      change (display_to_data (Y2 box_left)) with 25.
      intros Hnil. apply (f_equal (@length _)) in Hnil.
      rewrite length_slice in Hnil by lia. discriminate.
    + repeat split; try assumption.
      rewrite Hsize. reflexivity.
  - intros row b' Hx1 Hx2. rewrite Hx1.
    apply slice_from_minus_one_empty. assumption.
Qed.

(** ** The average of a box *)

(** Both region operations take the same slice of the thermal data. *)
Lemma AddOverlayBox_region (st st' : State) (b : Box) :
  CurrentSelectionBox st = Some b ->
  AddOverlayBox st = Ok st' ->
  exists overlay : Overlay,
    OverlayBoxes st' = OverlayBoxes st ++ [overlay] /\
    TemperatureArray overlay = Subregion (ThermalData st) b /\
    OverlayAxes overlay = NextAxes st /\
    (NextAxes st < NextAxes st')%nat.
Proof.
  intros Hb. unfold AddOverlayBox. rewrite Hb.
  destruct (truediv_int _ _) as [q|e]; simpl; [|discriminate].
  destruct (truediv_int _ _) as [q'|e]; simpl; [|discriminate].
  fold (Subregion (ThermalData st) b).
  destruct (resize _ _) as [u|e]; simpl; [|discriminate].
  destruct (amin _) as [lo|e]; simpl; [|discriminate].
  destruct (amax _) as [hi|e]; simpl; [|discriminate].
  intros H. injection H as <-. simpl.
  eexists. split; [reflexivity|]. simpl. repeat split. lia.
Qed.

Lemma AverageTemperature_region (T : grid) (b : Box) :
  AverageTemperature T b =
  (t <- sum_total (sum_rows (Subregion T b)) ;;
   divide_by_samples t (size (Subregion T b))).
Proof. reflexivity. Qed.

(** On a 120x160 grid the box covering the display has the row slice
    [-1:119], which is empty: [sum] returns its integer start value and the
    outer [sum] fails on it. *)
Lemma average_of_whole_display_raises (T : grid) :
  length T = 120%nat ->
  AverageTemperature T box_display = Raise TypeError.
Proof.
  intros Hlen.
  unfold AverageTemperature, slice2.
  change (display_to_data (Y1 box_display) - 1) with (-1).
  change (display_to_data (Y2 box_display)) with 119.
  rewrite slice_from_minus_one_empty by lia.
  reflexivity.
Qed.

(** C6 at the box covering the whole display of the 4x4 grid: the
    truncated low corner is (0, 0), the slice starts at -1 in both axes
    and holds the last cell only; the average is 16 and not the mean 8.5
    of the sixteen values.  On every 120x160 grid the box covering the
    640x480 display has no average at all. *)
Theorem average_of_full_box_is_last_cell :
  display_to_data (X1 box_full) - 1 = -1 /\
  display_to_data (X2 box_full) = 4 /\
  Subregion grid4 box_full = [[of_Z 16]] /\
  (exists a : float64,
     AverageTemperature grid4 box_full = Ok a /\
     eqb a (of_Z 16) = true /\
     eqb a (mean grid4) = false) /\
  eqb (mean grid4) (of_Q (17 # 2)) = true /\
  selection_accepted box_display = true /\
  forall T : grid,
    length T = 120%nat ->
    AverageTemperature T box_display = Raise TypeError.
Proof.
  split; [reflexivity|]. split; [reflexivity|]. split; [reflexivity|].
  split; [|split; [vm_compute; reflexivity|split; [reflexivity|]]].
  - eexists. split; [reflexivity|].
    split; vm_compute; reflexivity.
  - exact average_of_whole_display_raises.
Qed.

(** When the truncated low corner is (1, 1) the slice starts at 0, and
    with upper indices at the size of the grid the average is the mean. *)
Example average_from_index_one :
  exists a : float64,
    AverageTemperature grid4 {| X1 := 4; Y1 := 4; X2 := 16; Y2 := 16 |} = Ok a /\
    eqb a (mean grid4) = true.
Proof. eexists. split; [reflexivity|]. vm_compute. reflexivity. Qed.

(** ** Temperature markers *)

Lemma Qltb_lt (a b : Q) : Qltb a b = true <-> (a < b)%Q.
Proof.
  unfold Qltb. rewrite negb_true_iff.
  split.
  - intros H. apply Qnot_le_lt. intros Hle.
    apply Qle_bool_iff in Hle. congruence.
  - intros H. destruct (Qle_bool b a) eqn:E; [|reflexivity].
    apply Qle_bool_iff in E. exfalso. apply (Qlt_not_le _ _ H E).
Qed.

Section Markers.

Variable host : axes.
Variables x y : Q.

Let claims (overlay : Overlay) : bool := Nat.eqb host (OverlayAxes overlay).

Lemma overlay_loop_no_match (overlays : list Overlay) (acc : option float64) :
  ~ In host (map OverlayAxes overlays) ->
  overlay_loop host x y overlays acc = Ok acc.
Proof.
  revert acc.
  induction overlays as [|ov rest IH]; intros acc Hnot; simpl; [reflexivity|].
  destruct (Nat.eqb_spec host (OverlayAxes ov)) as [Heq|Hne].
  - exfalso. apply Hnot. left. symmetry. assumption.
  - apply IH. intros Hin. apply Hnot. right. assumption.
Qed.

(** With pairwise distinct overlay axes the loop without [break] returns
    the sample of the first overlay, in list order, that has the host axes
    of the click. *)
Lemma overlay_loop_first_match (overlays : list Overlay) (acc : option float64) :
  NoDup (map OverlayAxes overlays) ->
  overlay_loop host x y overlays acc =
  match find claims overlays with
  | Some overlay =>
      t <- index2 (TemperatureArray overlay)
                  (display_to_data y) (display_to_data x) ;;
      Ok (Some t)
  | None => Ok acc
  end.
Proof.
  revert acc.
  induction overlays as [|ov rest IH]; intros acc Hnd; simpl; [reflexivity|].
  inversion Hnd as [|a l Hnotin Hnd']; subst.
  unfold claims at 1.
  destruct (Nat.eqb_spec host (OverlayAxes ov)) as [Heq|Hne].
  - destruct (index2 (TemperatureArray ov) (display_to_data y)
                     (display_to_data x)) as [t|e]; simpl; [|reflexivity].
    apply overlay_loop_no_match. rewrite Heq. assumption.
  - apply IH. assumption.
Qed.

End Markers.

Lemma axes_distinct_AddOverlayBox (st st' : State) :
  axes_distinct st -> AddOverlayBox st = Ok st' -> axes_distinct st'.
Proof.
  intros [Hnd Hlt] Hadd.
  destruct (CurrentSelectionBox st) as [b|] eqn:Hb.
  2:{ unfold AddOverlayBox in Hadd. rewrite Hb in Hadd. discriminate. }
  destruct (AddOverlayBox_region st st' b Hb Hadd)
    as [ov [Hboxes [_ [Haxes Hnext]]]].
  unfold axes_distinct. rewrite Hboxes. split.
  - rewrite map_app. simpl.
    apply NoDup_app; [assumption|repeat constructor; intros []|].
    intros a Hin [Ha|[]]. subst a.
    apply in_map_iff in Hin. destruct Hin as [ov' [Heq Hin]].
    rewrite Forall_forall in Hlt. specialize (Hlt ov' Hin). lia.
  - apply Forall_app. split.
    + eapply Forall_impl; [|exact Hlt]. simpl. intros; lia.
    + constructor; [lia|constructor].
Qed.

Lemma axes_distinct_AddMeasurementPoint (st st' : State) (host : axes) (x y : Q) :
  axes_distinct st ->
  AddMeasurementPointMouseClickCallback st host x y = Ok st' ->
  axes_distinct st'.
Proof.
  intros Hd. unfold AddMeasurementPointMouseClickCallback.
  destruct (SamplePoint st host x y) as [[t|]|e]; simpl; try discriminate;
    intros H; injection H as <-; exact Hd.
Qed.

(** C5, as stated, fails: a click at (0.5, 0.5) inside the overlay, whose
    own grid holds 6 at the local index (0, 0), produces no sample at all;
    nor does a click at (0.5, 3) on the main picture, which no overlay
    claims and where the thermal data holds 1. *)
Lemma click_near_origin_is_dropped :
  map OverlayAxes (OverlayBoxes session_with_overlay) = [1%nat] /\
  map TemperatureArray (OverlayBoxes session_with_overlay) =
    [map (map of_Z) [[6; 7; 8]; [10; 11; 12]; [14; 15; 16]]] /\
  SamplePoint session_with_overlay 1%nat (1 # 2) (1 # 2) = Ok None /\
  index2 (map (map of_Z) [[6; 7; 8]; [10; 11; 12]; [14; 15; 16]])
         (display_to_data (1 # 2)) (display_to_data (1 # 2)) = Ok (of_Z 6) /\
  SamplePoint session_with_overlay 0%nat (1 # 2) 3 = Ok None /\
  index2 (ThermalData session_with_overlay)
         (display_to_data 3) (display_to_data (1 # 2)) = Ok (of_Z 1).
Proof. repeat split; reflexivity. Qed.

(** C5, amended.  A click with X <= 1.0 or Y <= 1.0 is dropped.  For every
    other click and every sequence of overlays made by [AddOverlayBox]
    (their axes are pairwise distinct), the overlays are tested in the
    order of their creation for being the axes the click landed in, and
    the first match wins: the temperature is read from that overlay's own
    temperature array at the index [int(Y/4), int(X/4)] of the click's
    coordinates inside the overlay; only if no overlay matches is the
    thermal data of the whole picture read, at [int(Y/4), int(X/4)]. *)
Theorem sample_point_prefers_first_overlay :
  forall (st : State) (host : axes) (x y : Q),
    (1 < x)%Q -> (1 < y)%Q ->
    axes_distinct st ->
    SamplePoint st host x y =
    match find (fun overlay => Nat.eqb host (OverlayAxes overlay))
               (OverlayBoxes st) with
    | Some overlay =>
        t <- index2 (TemperatureArray overlay)
                    (display_to_data y) (display_to_data x) ;;
        Ok (Some t)
    | None =>
        t <- index2 (ThermalData st)
                    (display_to_data y) (display_to_data x) ;;
        Ok (Some t)
    end.
Proof.
  intros st host x y Hx Hy [Hnd _].
  unfold SamplePoint.
  apply Qltb_lt in Hx. apply Qltb_lt in Hy. rewrite Hx, Hy. simpl.
  rewrite overlay_loop_first_match by assumption.
  destruct (find _ (OverlayBoxes st)) as [ov|]; simpl; [|reflexivity].
  destruct (index2 (TemperatureArray ov) _ _); reflexivity.
Qed.

Lemma sample_point_prefers_first_overlay_witness :
  (1 < 6)%Q /\ (1 < 5)%Q /\ axes_distinct session_with_overlay /\
  SamplePoint session_with_overlay 1%nat 6 5 = Ok (Some (of_Z 11)) /\
  index2 (ThermalData session_with_overlay)
         (display_to_data 5) (display_to_data 6) = Ok (of_Z 6) /\
  SamplePoint session_with_overlay 0%nat 6 5 = Ok (Some (of_Z 6)).
Proof.
  assert (Hd : axes_distinct session_with_overlay).
  { split.
    - repeat constructor; simpl; intros [].
    - repeat constructor. }
  split; [reflexivity|]. split; [reflexivity|]. split; [exact Hd|].
  split; [|split; [reflexivity|]].
  - rewrite (sample_point_prefers_first_overlay session_with_overlay 1%nat 6 5
               eq_refl eq_refl Hd).
    reflexivity.
  - rewrite (sample_point_prefers_first_overlay session_with_overlay 0%nat 6 5
               eq_refl eq_refl Hd).
    reflexivity.
Defined.

(** ** The order of [float64] values *)

Lemma Qc_leb_le (a b : Qc) : Qc_leb a b = true <-> (a <= b)%Qc.
Proof.
  unfold Qc_leb, Qcle, Qccompare. rewrite Qle_alt.
  destruct (this a ?= this b)%Q; split; intros H;
    try reflexivity; try discriminate; try congruence.
Qed.

Lemma eqb_refl (a : float64) : is_nan a = false -> eqb a a = true.
Proof.
  destruct a; simpl; intros H; try reflexivity; try discriminate.
  apply Qc_eqb_refl.
Qed.

Lemma leb_refl (a : float64) : is_nan a = false -> leb a a = true.
Proof.
  destruct a; simpl; intros H; try reflexivity; try discriminate.
  apply Qc_leb_le, Qcle_refl.
Qed.

Lemma leb_trans (a b c : float64) :
  leb a b = true -> leb b c = true -> leb a c = true.
Proof.
  destruct a, b, c; simpl; intros H1 H2;
    try reflexivity; try discriminate.
  apply Qc_leb_le. apply Qc_leb_le in H1. apply Qc_leb_le in H2.
  eapply Qcle_trans; eassumption.
Qed.

Lemma leb_total (a b : float64) :
  is_nan a = false -> is_nan b = false ->
  leb a b = true \/ leb b a = true.
Proof.
  destruct a as [p| | |], b as [q| | |]; simpl; intros H1 H2;
    try discriminate; auto.
  destruct (Qclt_le_dec p q) as [Hlt|Hle].
  - left. apply Qc_leb_le, Qclt_le_weak. assumption.
  - right. apply Qc_leb_le. assumption.
Qed.

Lemma leb_antisym (a b : float64) :
  leb a b = true -> leb b a = true -> a = b.
Proof.
  destruct a as [p| | |], b as [q| | |]; simpl; intros H1 H2;
    try discriminate; try reflexivity.
  f_equal. apply Qcle_antisym; apply Qc_leb_le; assumption.
Qed.

(** *** Folding a selection over a list *)

Section Extremum.

(** [pick] is [minimum] with [below := leb], or [maximum] with
    [below a b := leb b a]. *)
Variable pick : float64 -> float64 -> float64.
Variable below : float64 -> float64 -> bool.

Hypothesis pick_choice :
  forall a b, is_nan a = false -> is_nan b = false ->
              pick a b = a \/ pick a b = b.
Hypothesis pick_below :
  forall a b, is_nan a = false -> is_nan b = false ->
              below (pick a b) a = true /\ below (pick a b) b = true.
Hypothesis below_trans :
  forall a b c, below a b = true -> below b c = true -> below a c = true.

Lemma fold_pick (xs : list float64) (x : float64) :
  is_nan x = false ->
  Forall (fun v => is_nan v = false) xs ->
  In (fold_left pick xs x) (x :: xs) /\
  is_nan (fold_left pick xs x) = false /\
  forall v, In v (x :: xs) -> below (fold_left pick xs x) v = true.
Proof.
  revert x.
  induction xs as [|a xs IH]; intros x Hx Hxs.
  - simpl. split; [left; reflexivity|]. split; [assumption|].
    intros v [<-|[]].
    destruct (pick_below x x Hx Hx) as [H _].
    destruct (pick_choice x x Hx Hx) as [E|E]; rewrite E in H; exact H.
  - inversion Hxs as [|? ? Ha Hxs']; subst. simpl fold_left.
    assert (Hp : is_nan (pick x a) = false).
    { destruct (pick_choice x a Hx Ha) as [E|E]; rewrite E; assumption. }
    destruct (IH (pick x a) Hp Hxs') as [Hin [Hnan Hall]].
    split; [|split; [assumption|]].
    + destruct Hin as [E|Hin].
      * rewrite <- E.
        destruct (pick_choice x a Hx Ha) as [E'|E']; rewrite E';
          [left|right; left]; reflexivity.
      * right. right. assumption.
    + pose proof (Hall (pick x a) (or_introl eq_refl)) as Hm.
      destruct (pick_below x a Hx Ha) as [Hpx Hpa].
      intros v [<-|[<-|Hv]].
      * eapply below_trans; eassumption.
      * eapply below_trans; eassumption.
      * apply Hall. right. assumption.
Qed.

End Extremum.

Lemma minimum_choice (a b : float64) :
  is_nan a = false -> is_nan b = false ->
  minimum a b = a \/ minimum a b = b.
Proof.
  destruct a, b; simpl; intros Ha Hb; try discriminate;
    try (left; reflexivity); try (right; reflexivity).
  destruct (Qc_leb q q0); auto.
Qed.

Lemma maximum_choice (a b : float64) :
  is_nan a = false -> is_nan b = false ->
  maximum a b = a \/ maximum a b = b.
Proof.
  destruct a, b; simpl; intros Ha Hb; try discriminate;
    try (left; reflexivity); try (right; reflexivity).
  destruct (Qc_leb q0 q); auto.
Qed.

Lemma minimum_below (a b : float64) :
  is_nan a = false -> is_nan b = false ->
  leb (minimum a b) a = true /\ leb (minimum a b) b = true.
Proof.
  intros Ha Hb.
  assert (E : minimum a b = if leb a b then a else b)
    by (destruct a, b; try discriminate; reflexivity).
  rewrite E.
  destruct (leb a b) eqn:Hab.
  - split; [apply leb_refl|]; assumption.
  - destruct (leb_total a b Ha Hb) as [H|H]; [congruence|].
    split; [assumption|apply leb_refl; assumption].
Qed.

Lemma maximum_above (a b : float64) :
  is_nan a = false -> is_nan b = false ->
  leb a (maximum a b) = true /\ leb b (maximum a b) = true.
Proof.
  intros Ha Hb.
  assert (E : maximum a b = if leb b a then a else b)
    by (destruct a, b; try discriminate; reflexivity).
  rewrite E.
  destruct (leb b a) eqn:Hba.
  - split; [apply leb_refl|]; assumption.
  - destruct (leb_total a b Ha Hb) as [H|H]; [|congruence].
    split; [assumption|apply leb_refl; assumption].
Qed.

(** [numpy.amin] and [numpy.amax] of an array with at least one cell and
    without NaN: a value of the array that bounds all of them. *)
Lemma amin_spec (g : grid) :
  concat g <> [] ->
  Forall (fun v => is_nan v = false) (concat g) ->
  exists lo,
    amin g = Ok lo /\ In lo (concat g) /\ is_nan lo = false /\
    forall v, In v (concat g) -> leb lo v = true.
Proof.
  intros Hne Hnan. unfold amin.
  destruct (concat g) as [|x xs]; [contradiction|].
  inversion Hnan as [|? ? Hx Hxs]; subst.
  eexists. split; [reflexivity|].
  apply (fold_pick minimum leb minimum_choice minimum_below leb_trans);
    assumption.
Qed.

Lemma amax_spec (g : grid) :
  concat g <> [] ->
  Forall (fun v => is_nan v = false) (concat g) ->
  exists hi,
    amax g = Ok hi /\ In hi (concat g) /\ is_nan hi = false /\
    forall v, In v (concat g) -> leb v hi = true.
Proof.
  intros Hne Hnan. unfold amax.
  destruct (concat g) as [|x xs]; [contradiction|].
  inversion Hnan as [|? ? Hx Hxs]; subst.
  eexists. split; [reflexivity|].
  apply (fold_pick maximum (fun a b => leb b a) maximum_choice maximum_above).
  - intros a b c H1 H2. eapply leb_trans; eassumption.
  - assumption.
  - assumption.
Qed.

Lemma In_concat_cell {A : Type} (g : array2 A) (v : A) :
  In v (concat g) <-> exists i j, cell g i j = Some v.
Proof.
  rewrite in_concat. unfold cell. split.
  - intros [row [Hrow Hv]].
    apply In_nth_error in Hrow. destruct Hrow as [i Hi].
    apply In_nth_error in Hv. destruct Hv as [j Hj].
    exists i, j. rewrite Hi. assumption.
  - intros [i [j H]].
    destruct (nth_error g i) as [row|] eqn:Hi; [|discriminate].
    exists row. split; eapply nth_error_In; eassumption.
Qed.

(** ** Minimum and maximum markers *)

Section Where.

Variable m : float64.

Lemma where_row_head (row : list float64) (r c0 : nat) :
  match where_row m row r c0 with
  | [] => Forall (fun v => eqb v m = false) row
  | (r', c') :: _ =>
      r' = r /\
      exists j : nat,
        c' = (c0 + j)%nat /\
        (exists v, nth_error row j = Some v /\ eqb v m = true) /\
        forall j' v', (j' < j)%nat -> nth_error row j' = Some v' ->
                      eqb v' m = false
  end.
Proof.
  revert c0.
  induction row as [|x rest IH]; intros c0; simpl; [constructor|].
  destruct (eqb x m) eqn:Hx.
  - split; [reflexivity|].
    exists 0%nat. split; [lia|]. split.
    + exists x. split; [reflexivity|assumption].
    + intros j' v' Hlt. lia.
  - specialize (IH (S c0)).
    destruct (where_row m rest r (S c0)) as [|[r' c'] tl].
    + constructor; assumption.
    + destruct IH as [Hr [j [Hc [Hv Hbefore]]]].
      split; [assumption|].
      exists (S j). split; [lia|]. split; [exact Hv|].
      intros [|j'] v' Hlt Hnth; simpl in Hnth.
      * injection Hnth as <-. assumption.
      * apply (Hbefore j' v'); [lia|assumption].
Qed.

(** The first position reported by [numpy.where] is the first cell, in
    row-major order, that equals [m]. *)
Lemma where_from_head (g : grid) (r0 : nat) :
  match where_from m g r0 with
  | [] => Forall (Forall (fun v => eqb v m = false)) g
  | (r', c') :: _ =>
      exists i : nat,
        r' = (r0 + i)%nat /\
        (exists v, cell g i c' = Some v /\ eqb v m = true) /\
        forall i' j' v',
          cell g i' j' = Some v' ->
          (i' < i)%nat \/ (i' = i /\ (j' < c')%nat) ->
          eqb v' m = false
  end.
Proof.
  revert r0.
  induction g as [|row rest IH]; intros r0; simpl; [constructor|].
  pose proof (where_row_head row r0 0) as Hrow.
  destruct (where_row m row r0 0) as [|[r' c'] tl]; simpl.
  - specialize (IH (S r0)).
    destruct (where_from m rest (S r0)) as [|[r' c'] tl].
    + constructor; assumption.
    + destruct IH as [i [Hr [Hv Hbefore]]].
      exists (S i). split; [lia|]. split; [exact Hv|].
      intros [|i'] j' v' Hcell Hlt.
      * unfold cell in Hcell. simpl in Hcell.
        rewrite Forall_forall in Hrow. apply Hrow.
        eapply nth_error_In; eassumption.
      * apply (Hbefore i' j' v'); [exact Hcell|lia].
  - destruct Hrow as [Hr [j [Hc [Hv Hbefore]]]].
    exists 0%nat. split; [lia|].
    simpl in Hc. subst c'. split; [exact Hv|].
    intros i' j' v' Hcell [Hlt|[-> Hlt]]; [lia|].
    apply (Hbefore j' v'); assumption.
Qed.

End Where.

Lemma index_0_cons {A : Type} (a : A) (l : list A) : index (a :: l) 0 = Ok a.
Proof.
  unfold index. change (0 <? 0) with false. cbv iota.
  destruct (Z.leb_spec (Z.of_nat (length (a :: l))) 0) as [H|H].
  - simpl length in H. lia.
  - reflexivity.
Qed.

Lemma cell_nth (g : grid) (r c : nat) (v : float64) :
  cell g r c = Some v -> nth c (nth r g []) NaN = v.
Proof.
  unfold cell. intros H.
  destruct (nth_error g r) as [row|] eqn:Hr; [|discriminate].
  rewrite (nth_error_nth g r [] Hr).
  apply nth_error_nth. assumption.
Qed.

(** What lines 182 and 184 (and 183, 185) compute for a value [m] that
    occurs in the grid: the first position of [m] in row-major order. *)
Lemma first_position (g : grid) (m : float64) :
  is_nan m = false ->
  In m (concat g) ->
  exists (row col : nat) (rest : list (nat * nat)),
    where_eq g m = (row, col) :: rest /\
    cell g row col = Some m /\
    forall i j v,
      cell g i j = Some v ->
      (i < row)%nat \/ (i = row /\ (j < col)%nat) ->
      eqb v m = false.
Proof.
  intros Hnan Hin.
  apply In_concat_cell in Hin. destruct Hin as [i0 [j0 Hcell0]].
  pose proof (where_from_head m g 0) as H. unfold where_eq.
  destruct (where_from m g 0) as [|[r c] rest].
  - exfalso.
    assert (Hfalse : eqb m m = false).
    { unfold cell in Hcell0.
      destruct (nth_error g i0) as [row|] eqn:Hrow; [|discriminate].
      rewrite Forall_forall in H.
      specialize (H row (nth_error_In _ _ Hrow)).
      rewrite Forall_forall in H.
      apply H. eapply nth_error_In; eassumption. }
    rewrite eqb_refl in Hfalse by assumption. discriminate.
  - destruct H as [i [Hr [[v [Hv Heq]] Hbefore]]].
    simpl in Hr. subst r.
    apply eqb_eq in Heq. subst v.
    exists i, c, rest. repeat split; assumption.
Qed.

(** C7, as stated, fails: the minimum 1 of [grid2] sits in row 0,
    column 1, and the maximum 5 in row 1, column 1; the locations returned
    are (4, 0) and (4, 4), not the data-space positions (1, 0) and
    (1, 1).  On a grid with a NaN nothing is returned: no cell equals the
    NaN minimum, and taking the first match raises. *)
Lemma min_max_locations_are_scaled :
  cell grid2 0 1 = Some (of_Z 1) /\
  cell grid2 1 1 = Some (of_Z 5) /\
  (exists r : MinMax,
     GetMinMaxTemperatureAndLocation grid2 = Ok r /\
     MinTemperature r = of_Z 1 /\
     MaxTemperature r = of_Z 5 /\
     MinLocation r = (4, 0) /\
     MaxLocation r = (4, 4) /\
     MinLocation r <> (1, 0) /\
     MaxLocation r <> (1, 1)) /\
  GetMinMaxTemperatureAndLocation grid_nan = Raise IndexError.
Proof.
  split; [reflexivity|]. split; [reflexivity|].
  split; [|reflexivity].
  eexists. split; [reflexivity|].
  repeat split; try reflexivity; discriminate.
Qed.

(** C7, amended.  For every grid with at least one cell and no NaN the
    minimum and the maximum temperature are returned together with their
    locations in display space: the column and the row index of the cell,
    in this order, each multiplied by 4.  The cell is the first one in
    row-major order that holds the extremum. *)
Theorem min_max_with_display_locations :
  forall T : grid,
    concat T <> [] ->
    Forall (fun v => is_nan v = false) (concat T) ->
    exists (r : MinMax) (ymin xmin ymax xmax : nat),
      GetMinMaxTemperatureAndLocation T = Ok r /\
      MinLocation r = (4 * Z.of_nat xmin, 4 * Z.of_nat ymin) /\
      MaxLocation r = (4 * Z.of_nat xmax, 4 * Z.of_nat ymax) /\
      cell T ymin xmin = Some (MinTemperature r) /\
      cell T ymax xmax = Some (MaxTemperature r) /\
      (forall i j v, cell T i j = Some v ->
         leb (MinTemperature r) v = true /\
         leb v (MaxTemperature r) = true) /\
      (forall i j v, cell T i j = Some v ->
         (i < ymin)%nat \/ (i = ymin /\ (j < xmin)%nat) ->
         eqb v (MinTemperature r) = false) /\
      (forall i j v, cell T i j = Some v ->
         (i < ymax)%nat \/ (i = ymax /\ (j < xmax)%nat) ->
         eqb v (MaxTemperature r) = false).
Proof.
  intros T Hne Hnan.
  destruct (amin_spec T Hne Hnan) as [lo [Hlo [Hlo_in [Hlo_nan Hlo_min]]]].
  destruct (amax_spec T Hne Hnan) as [hi [Hhi [Hhi_in [Hhi_nan Hhi_max]]]].
  destruct (first_position T lo Hlo_nan Hlo_in)
    as [ymin [xmin [rest_lo [Hwlo [Hclo Hfirst_lo]]]]].
  destruct (first_position T hi Hhi_nan Hhi_in)
    as [ymax [xmax [rest_hi [Hwhi [Hchi Hfirst_hi]]]]].
  eexists. exists ymin, xmin, ymax, xmax.
  split.
  - unfold GetMinMaxTemperatureAndLocation.
    rewrite Hlo, Hhi. cbn [bind]. rewrite Hwlo, Hwhi.
    unfold take_cells. cbn [map fst snd combine].
    rewrite !index_0_cons. cbn [bind].
    rewrite (cell_nth T ymin xmin lo Hclo), (cell_nth T ymax xmax hi Hchi).
    reflexivity.
  - simpl. repeat split; try assumption; try reflexivity.
    + apply Hlo_min, In_concat_cell. eauto.
    + apply Hhi_max, In_concat_cell. eauto.
Qed.

Lemma min_max_with_display_locations_witness :
  concat grid_ties <> [] /\
  exists r : MinMax,
    GetMinMaxTemperatureAndLocation grid_ties = Ok r /\
    MinLocation r = (8, 0) /\ MaxLocation r = (4, 0).
Proof.
  split; [discriminate|].
  destruct (min_max_with_display_locations grid_ties)
    as [r [ymin [xmin [ymax [xmax [Hr _]]]]]].
  - discriminate.
  - repeat constructor.
  - exists r.
    split; [exact Hr|].
    assert (E : Ok r = GetMinMaxTemperatureAndLocation grid_ties)
      by (symmetry; exact Hr).
    vm_compute in E. injection E as ->. split; reflexivity.
Defined.

(** ** Colour-map rescaling *)

Lemma Qc_eqb_false (a b : Qc) : Qc_eqb a b = false -> a <> b.
Proof.
  intros H E. subst b. rewrite Qc_eqb_refl in H. discriminate.
Qed.

Lemma Qc_unit_interval (a b : Qc) :
  (0 <= a)%Qc -> (a <= b)%Qc -> b <> 0%Qc ->
  (0 <= a / b)%Qc /\ (a / b <= 1)%Qc.
Proof.
  intros Ha Hab Hb.
  assert (Hpos : (0 < b)%Qc).
  { destruct (Qcle_lt_or_eq 0%Qc b (Qcle_trans _ _ _ Ha Hab)) as [H|H];
      [assumption|congruence]. }
  assert (Hmul : (a / b * b)%Qc = a).
  { rewrite Qcmult_comm. apply Qcmult_div_r. assumption. }
  split; apply (Qcmult_lt_0_le_reg_r _ _ b Hpos); rewrite Hmul.
  - rewrite Qcmult_0_l. assumption.
  - rewrite Qcmult_1_l. assumption.
Qed.

(** Line 178 never raises on a non-empty array: the division is numpy's. *)
Lemma RescaleImageColorMap_cells (g : grid) (lo hi : float64) :
  amin g = Ok lo -> amax g = Ok hi ->
  RescaleImageColorMap g =
  Ok (map2d (fun v => div (sub v lo) (sub hi lo)) g).
Proof.
  intros Hlo Hhi. unfold RescaleImageColorMap.
  rewrite Hlo, Hhi. cbn [bind]. rewrite map2d_map2d. reflexivity.
Qed.

Lemma Qc_leb_false (a b : Qc) : Qc_leb a b = false <-> (b < a)%Qc.
Proof.
  split.
  - intros H. apply Qcnot_le_lt. intros Hle.
    apply Qc_leb_le in Hle. congruence.
  - intros H. destruct (Qc_leb a b) eqn:E; [|reflexivity].
    apply Qc_leb_le in E. apply Qcle_not_lt in E. contradiction.
Qed.

Lemma overflow_bound_neg : (- overflow_bound < 0)%Qc.
Proof. vm_compute. reflexivity. Qed.

Lemma overflow_bound_above_1 : (1 < overflow_bound)%Qc.
Proof. vm_compute. reflexivity. Qed.

(** A result that is not negative can only overflow upwards. *)
Lemma fin_nonneg (q : Qc) :
  (0 <= q)%Qc ->
  fin q = if Qc_leb overflow_bound q then PInf else Fin q.
Proof.
  intros H. unfold fin.
  destruct (Qc_leb overflow_bound q); [reflexivity|].
  assert (E : Qc_leb q (- overflow_bound) = false).
  { apply Qc_leb_false.
    eapply Qclt_le_trans; [exact overflow_bound_neg|exact H]. }
  rewrite E. reflexivity.
Qed.

Lemma fin_unit_interval (q : Qc) :
  (0 <= q)%Qc -> (q <= 1)%Qc -> fin q = Fin q.
Proof.
  intros H0 H1. rewrite fin_nonneg by assumption.
  assert (E : Qc_leb overflow_bound q = false).
  { apply Qc_leb_false.
    eapply Qcle_lt_trans; [exact H1|exact overflow_bound_above_1]. }
  rewrite E. reflexivity.
Qed.

Lemma sub_Fin (a b : Qc) : sub (Fin a) (Fin b) = fin (a + - b).
Proof. reflexivity. Qed.

(** One cell of the rescaling, for a value between the minimum [l] and the
    maximum [h]. *)
Lemma rescale_value (q l h : Qc) :
  (l <= q)%Qc -> (q <= h)%Qc ->
  let v := div (sub (Fin q) (Fin l)) (sub (Fin h) (Fin l)) in
  (eqb (Fin h) (Fin l) = true -> v = NaN) /\
  (eqb (Fin h) (Fin l) = false ->
   is_finite (sub (Fin h) (Fin l)) = true ->
   leb (of_Z 0) v = true /\ leb v (of_Z 1) = true) /\
  (is_finite (sub (Fin h) (Fin l)) = false ->
   eqb v (of_Z 0) = true \/ is_nan v = true).
Proof.
  intros Hl Hh. cbv zeta.
  assert (Hq : (0 <= q + - l)%Qc) by (apply -> Qcle_minus_iff; assumption).
  assert (Hqh : (q + - l <= h + - l)%Qc)
    by (apply Qcplus_le_compat; [assumption|apply Qcle_refl]).
  assert (Hd : (0 <= h + - l)%Qc) by (eapply Qcle_trans; eassumption).
  rewrite !sub_Fin, (fin_nonneg _ Hq), (fin_nonneg _ Hd).
  destruct (Qc_leb overflow_bound (h + - l)) eqn:Eh.
  - (* the range overflows *)
    split; [|split].
    + intros E. apply Qc_eqb_eq in E. subst h.
      rewrite Qcplus_opp_r in Eh. vm_compute in Eh. discriminate.
    + discriminate.
    + intros _. destruct (Qc_leb overflow_bound (q + - l)).
      * right. reflexivity.
      * left. reflexivity.
  - assert (Eq : Qc_leb overflow_bound (q + - l) = false).
    { apply Qc_leb_false. apply Qc_leb_false in Eh.
      eapply Qcle_lt_trans; eassumption. }
    rewrite Eq. cbn [div is_finite].
    split; [|split].
    + intros E. apply Qc_eqb_eq in E. subst h.
      assert (q = l) by (apply Qcle_antisym; assumption). subst q.
      rewrite Qcplus_opp_r.
      change (Qc_eqb 0%Qc zeroQc) with true. reflexivity.
    + intros E _. apply Qc_eqb_false in E.
      assert (Hb : (h + - l)%Qc <> 0%Qc).
      { intros H0. apply E.
        replace h with ((h + - l) + l)%Qc by ring.
        rewrite H0. ring. }
      destruct (Qc_eqb (h + - l) zeroQc) eqn:Ez.
      * apply Qc_eqb_eq in Ez. contradiction.
      * destruct (Qc_unit_interval (q + - l) (h + - l)) as [H0 H1];
          try assumption.
        rewrite (fin_unit_interval _ H0 H1).
        split; apply Qc_leb_le; assumption.
    + discriminate.
Qed.

(** C8, as stated, fails: on the uniform grid nothing is raised; the
    result is a grid of NaN.  So it is on a grid with a NaN, whose maximum
    and minimum are NaN and do not compare equal.  On a grid whose range
    overflows, the maximum is mapped to NaN (infinity divided by infinity),
    which is outside [0, 1]. *)
Lemma rescale_of_flat_grid_is_nan :
  amin grid_flat = amax grid_flat /\
  RescaleImageColorMap grid_flat = Ok [[NaN; NaN]; [NaN; NaN]] /\
  amin grid_nan = Ok NaN /\
  amax grid_nan = Ok NaN /\
  eqb NaN NaN = false /\
  RescaleImageColorMap grid_nan = Ok [[NaN; NaN]] /\
  sub (of_Z (2 ^ 1023)) (of_Z (- 2 ^ 1023)) = PInf /\
  RescaleImageColorMap grid_wide = Ok [[of_Z 0; NaN]].
Proof. repeat split; vm_compute; reflexivity. Qed.

(** C8, amended.  On a grid of finite values with at least one cell the
    rescaling never fails: it returns the grid mapped element-wise by
    [(value - min) / (max - min)].  When the maximum equals the minimum
    every result is NaN (numpy's 0/0).  When they differ and their
    difference is a finite float64, all results lie in [0, 1].  When the
    difference overflows to infinity, every result is 0 or NaN.  The grid
    holding 0, 5, 10 is mapped to 0, 0.5, 1. *)
Theorem rescale_normalized_or_nan :
  forall g : grid,
    concat g <> [] ->
    Forall (fun v => is_finite v = true) (concat g) ->
    (exists (lo hi : float64) (out : grid),
       amin g = Ok lo /\ amax g = Ok hi /\
       RescaleImageColorMap g = Ok out /\
       (forall r c,
          cell out r c =
          option_map (fun v => div (sub v lo) (sub hi lo)) (cell g r c)) /\
       (eqb hi lo = true ->
        forall r c v, cell out r c = Some v -> is_nan v = true) /\
       (eqb hi lo = false ->
        is_finite (sub hi lo) = true ->
        forall r c v, cell out r c = Some v ->
                      leb (of_Z 0) v = true /\ leb v (of_Z 1) = true) /\
       (is_finite (sub hi lo) = false ->
        forall r c v, cell out r c = Some v ->
                      eqb v (of_Z 0) = true \/ is_nan v = true))
    /\ exists a b c : float64,
         RescaleImageColorMap grid_0_5_10 = Ok [[a; b; c]] /\
         eqb a (of_Z 0) = true /\
         eqb b (of_Q (1 # 2)) = true /\
         eqb c (of_Z 1) = true.
Proof.
  intros g Hne Hfin.
  split.
  2:{ do 3 eexists. split; [reflexivity|].
      repeat split; vm_compute; reflexivity. }
  assert (Hnan : Forall (fun v => is_nan v = false) (concat g)).
  { eapply Forall_impl; [|exact Hfin]. intros [q| | |]; simpl; congruence. }
  destruct (amin_spec g Hne Hnan) as [lo [Hlo [Hlo_in [_ Hlo_min]]]].
  destruct (amax_spec g Hne Hnan) as [hi [Hhi [Hhi_in [_ Hhi_max]]]].
  exists lo, hi. eexists.
  split; [exact Hlo|]. split; [exact Hhi|].
  split; [exact (RescaleImageColorMap_cells g lo hi Hlo Hhi)|].
  assert (Hvalue : forall r c v,
            cell (map2d (fun v => div (sub v lo) (sub hi lo)) g) r c = Some v ->
            (eqb hi lo = true -> v = NaN) /\
            (eqb hi lo = false ->
             is_finite (sub hi lo) = true ->
             leb (of_Z 0) v = true /\ leb v (of_Z 1) = true) /\
            (is_finite (sub hi lo) = false ->
             eqb v (of_Z 0) = true \/ is_nan v = true)).
  { intros r c v Hcell. rewrite cell_map2d in Hcell.
    destruct (cell g r c) as [x|] eqn:Hx; [|discriminate].
    simpl in Hcell. injection Hcell as <-.
    assert (Hin : In x (concat g)) by (apply In_concat_cell; eauto).
    rewrite Forall_forall in Hfin.
    pose proof (Hfin x Hin) as Fx.
    pose proof (Hfin lo Hlo_in) as Fl.
    pose proof (Hfin hi Hhi_in) as Fh.
    pose proof (Hlo_min x Hin) as Hl.
    pose proof (Hhi_max x Hin) as Hh.
    destruct x as [q| | |], lo as [l| | |], hi as [h| | |]; try discriminate.
    apply rescale_value; apply Qc_leb_le; assumption. }
  split; [intros r c; apply cell_map2d|].
  split; [|split].
  - intros E r c v Hcell.
    destruct (Hvalue r c v Hcell) as [H _]. rewrite (H E). reflexivity.
  - intros E F r c v Hcell.
    destruct (Hvalue r c v Hcell) as [_ [H _]]. exact (H E F).
  - intros F r c v Hcell.
    destruct (Hvalue r c v Hcell) as [_ [_ H]]. exact (H F).
Qed.

Lemma rescale_normalized_or_nan_witness :
  concat grid_flat <> [] /\
  Forall (fun v => is_finite v = true) (concat grid_flat) /\
  raises (RescaleImageColorMap grid_flat) = false.
Proof.
  assert (Hne : concat grid_flat <> []) by discriminate.
  assert (Hfin : Forall (fun v => is_finite v = true) (concat grid_flat))
    by (repeat constructor).
  split; [exact Hne|]. split; [exact Hfin|].
  destruct (rescale_normalized_or_nan grid_flat Hne Hfin)
    as [[lo [hi [out [_ [_ [Hout _]]]]]] _].
  rewrite Hout. reflexivity.
Defined.

(** * Further properties of the conversion *)

Lemma zip_map2d_same {A B C D : Type} (h : B -> C -> D) (f : A -> B)
  (f' : A -> C) (g : array2 A) :
  zip_with (zip_with h) (map2d f g) (map2d f' g) =
  map2d (fun x => h (f x) (f' x)) g.
Proof.
  unfold map2d.
  induction g as [|row g IH]; simpl; [reflexivity|].
  f_equal; [|exact IH].
  induction row as [|x row IHrow]; simpl; [reflexivity|].
  f_equal. exact IHrow.
Qed.

Lemma map_length_map2d {A B : Type} (f : A -> B) (g : array2 A) :
  map (@length B) (map2d f g) = map (@length A) g.
Proof.
  unfold map2d. rewrite map_map. apply map_ext; intros row.
  apply length_map.
Qed.

Lemma FixByteOrder_map (bo : string) (g : array2 Z) :
  FixByteOrder bo g = if is_little bo then map2d swap16 g else g.
Proof.
  unfold FixByteOrder.
  destruct (is_little bo); [|reflexivity].
  unfold add_u16, right_shift, left_shift, bitwise_and.
  rewrite map2d_map2d.
  apply (zip_map2d_same (fun x y => u16 (x + y))).
Qed.

Lemma swap16_div_mod (raw : Z) :
  0 <= raw < 65536 ->
  swap16 raw = raw / 256 + (raw mod 256) * 256.
Proof.
  intros Hraw. unfold swap16.
  destruct (swap_in_range raw Hraw) as [Hhi Hsum].
  unfold u16.
  rewrite (Z.mod_small (Z.shiftl _ _)) by assumption.
  rewrite Z.mod_small by assumption.
  change 255 with (Z.ones 8).
  rewrite Z.land_ones, Z.shiftl_mul_pow2, Z.shiftr_div_pow2 by lia.
  reflexivity.
Qed.

Lemma swap16_range (raw : Z) :
  0 <= raw < 65536 -> 0 <= swap16 raw < 65536.
Proof.
  intros Hraw. rewrite swap16_div_mod by assumption.
  assert (0 <= raw mod 256 < 256) by (apply Z.mod_pos_bound; lia).
  assert (0 <= raw / 256 < 256).
  { split; [apply Z.div_pos; lia|apply Z.div_lt_upper_bound; lia]. }
  lia.
Qed.

Lemma swap16_involutive (raw : Z) :
  0 <= raw < 65536 -> swap16 (swap16 raw) = raw.
Proof.
  intros Hraw.
  rewrite (swap16_div_mod (swap16 raw)) by (apply swap16_range; assumption).
  rewrite swap16_div_mod by assumption.
  assert (Hl : 0 <= raw mod 256 < 256) by (apply Z.mod_pos_bound; lia).
  assert (Hh : 0 <= raw / 256 < 256).
  { split; [apply Z.div_pos; lia|apply Z.div_lt_upper_bound; lia]. }
  rewrite Z.div_add by lia.
  rewrite Z.mod_add by lia.
  rewrite (Z.div_small (raw / 256)), (Z.mod_small (raw / 256)) by lia.
  pose proof (Z.div_mod raw 256 ltac:(lia)). lia.
Qed.

Lemma map2d_id_on {A : Type} (P : A -> Prop) (f : A -> A) (g : array2 A) :
  (forall x, P x -> f x = x) ->
  Forall (Forall P) g -> map2d f g = g.
Proof.
  intros Hf Hg. unfold map2d.
  induction Hg as [|row g Hrow _ IH]; simpl; [reflexivity|].
  f_equal; [|exact IH].
  induction Hrow as [|x row Hx _ IHrow]; simpl; [reflexivity|].
  f_equal; [apply Hf; assumption|exact IHrow].
Qed.

Lemma Forall2d_map2d {A B : Type} (P : A -> Prop) (Q : B -> Prop)
  (f : A -> B) (g : array2 A) :
  (forall x, P x -> Q (f x)) ->
  Forall (Forall P) g -> Forall (Forall Q) (map2d f g).
Proof.
  intros Hf Hg. unfold map2d.
  apply Forall_map. eapply Forall_impl; [|exact Hg].
  intros row Hrow. apply Forall_map.
  eapply Forall_impl; [|exact Hrow]. exact Hf.
Qed.

(** X1.  The byte-order fix-up keeps a grid of 16-bit samples a grid of 16-bit
    samples of the same shape, and applying it twice under the same
    declared byte order gives the grid back. *)
Theorem FixByteOrder_involutive :
  forall (bo : string) (g : array2 Z),
    samples_16bit g ->
    samples_16bit (FixByteOrder bo g) /\
    map (@length Z) (FixByteOrder bo g) = map (@length Z) g /\
    FixByteOrder bo (FixByteOrder bo g) = g.
Proof.
  intros bo g Hg.
  rewrite !FixByteOrder_map.
  destruct (is_little bo).
  - split; [|split].
    + apply (Forall2d_map2d (fun raw => 0 <= raw < 65536)); [|assumption].
      intros x. apply swap16_range.
    + apply map_length_map2d.
    + rewrite map2d_map2d.
      apply (map2d_id_on (fun raw => 0 <= raw < 65536)); [|assumption].
      intros x. apply swap16_involutive.
  - repeat split. assumption.
Qed.

Lemma FixByteOrder_involutive_witness :
  samples_16bit [[30000; 1]; [258; 65535]] /\
  FixByteOrder "Little-endian (Intel, II)" [[30000; 1]; [258; 65535]] =
    [[12405; 256]; [513; 65535]] /\
  FixByteOrder "Little-endian (Intel, II)" [[12405; 256]; [513; 65535]] =
    [[30000; 1]; [258; 65535]].
Proof.
  assert (H : samples_16bit [[30000; 1]; [258; 65535]]).
  { repeat constructor; lia. }
  split; [exact H|]. split; [reflexivity|].
  exact (proj2 (proj2 (FixByteOrder_involutive
                         "Little-endian (Intel, II)" _ H))).
Defined.

(** X2.  Whatever the grid, the byte order and the other constants, the
    conversion raises exactly when [RAT + 273.15] is zero, and then
    [ZeroDivisionError]; otherwise it returns a grid of the shape of the
    raw grid. *)
Theorem GetThermalData_shape :
  forall (np_exp np_log : float64 -> float64) (c : Calibration)
         (bo : string) (g : array2 Z),
    if eqb (add (RAT c) kelvin) (of_Z 0)
    then GetThermalData np_exp np_log c bo g = Raise ZeroDivisionError
    else exists T : grid,
           GetThermalData np_exp np_log c bo g = Ok T /\
           map (@length float64) T = map (@length Z) g.
Proof.
  intros np_exp np_log c bo g.
  unfold GetThermalData. rewrite Radiance2Temperature_pixels.
  unfold spec_ReflFactor, truediv.
  change (Fin zeroQc) with (of_Z 0).
  destruct (eqb (add (RAT c) kelvin) (of_Z 0)); simpl; [reflexivity|].
  eexists. split; [reflexivity|].
  rewrite map_length_map2d, FixByteOrder_map.
  destruct (is_little bo); [apply map_length_map2d|reflexivity].
Qed.

(** * Further properties of the grid queries *)

Lemma amin_nonempty (g : grid) :
  concat g <> [] -> exists lo, amin g = Ok lo.
Proof.
  unfold amin. destruct (concat g); [contradiction|]. eauto.
Qed.

Lemma amax_nonempty (g : grid) :
  concat g <> [] -> exists hi, amax g = Ok hi.
Proof.
  unfold amax. destruct (concat g); [contradiction|]. eauto.
Qed.

Lemma amin_empty (g : grid) : concat g = [] -> amin g = Raise ValueError.
Proof. unfold amin. intros ->. reflexivity. Qed.

(** *** Rescaling *)

(** X3.  The rescaling raises exactly on an array without cells, and then
    [ValueError]; on every other array, whatever its values, it returns
    an array of the same shape. *)
Theorem RescaleImageColorMap_shape :
  forall g : grid,
    match concat g with
    | [] => RescaleImageColorMap g = Raise ValueError
    | _ :: _ =>
        exists out : grid,
          RescaleImageColorMap g = Ok out /\
          map (@length float64) out = map (@length float64) g
    end.
Proof.
  intros g.
  destruct (concat g) as [|x xs] eqn:E.
  - unfold RescaleImageColorMap. rewrite amin_empty by assumption.
    reflexivity.
  - assert (Hne : concat g <> []) by (rewrite E; discriminate).
    destruct (amin_nonempty g Hne) as [lo Hlo].
    destruct (amax_nonempty g Hne) as [hi Hhi].
    eexists. split; [exact (RescaleImageColorMap_cells g lo hi Hlo Hhi)|].
    apply map_length_map2d.
Qed.

Lemma In_cell_map2d {A B : Type} (f : A -> B) (g : array2 A) (v : A) :
  In v (concat g) -> exists r c, cell (map2d f g) r c = Some (f v).
Proof.
  intros Hin. apply In_concat_cell in Hin. destruct Hin as [r [c Hc]].
  exists r, c. rewrite cell_map2d, Hc. reflexivity.
Qed.

(** X4.  On a grid of finite values that are not all equal and whose range
    [max - min] is a finite float64, the rescaled grid attains both ends of
    the unit interval: the cells of the minimum become 0 and the cells of
    the maximum become 1. *)
Theorem rescale_attains_zero_and_one :
  forall (g : grid) (lo hi : float64),
    Forall (fun v => is_finite v = true) (concat g) ->
    amin g = Ok lo -> amax g = Ok hi -> eqb hi lo = false ->
    is_finite (sub hi lo) = true ->
    exists out : grid,
      RescaleImageColorMap g = Ok out /\
      (forall r c, cell g r c = Some lo -> cell out r c = Some (of_Z 0)) /\
      (forall r c, cell g r c = Some hi -> cell out r c = Some (of_Z 1)) /\
      (exists r c, cell out r c = Some (of_Z 0)) /\
      (exists r c, cell out r c = Some (of_Z 1)).
Proof.
  intros g lo hi Hfin Hlo Hhi Hne Hrange.
  assert (Hcat : concat g <> []).
  { intros E. rewrite (amin_empty g E) in Hlo. discriminate. }
  assert (Hnan : Forall (fun v => is_nan v = false) (concat g)).
  { eapply Forall_impl; [|exact Hfin]. intros [q| | |]; simpl; congruence. }
  destruct (amin_spec g Hcat Hnan) as [lo' [Hlo' [Hlo_in [_ Hlo_min]]]].
  destruct (amax_spec g Hcat Hnan) as [hi' [Hhi' [Hhi_in _]]].
  rewrite Hlo in Hlo'. injection Hlo' as <-.
  rewrite Hhi in Hhi'. injection Hhi' as <-.
  pose proof (Hlo_min hi Hhi_in) as Hle.
  rewrite Forall_forall in Hfin.
  pose proof (Hfin lo Hlo_in) as Fl. pose proof (Hfin hi Hhi_in) as Fh.
  destruct lo as [l| | |], hi as [h| | |]; try discriminate.
  simpl in Hne. apply Qc_eqb_false in Hne.
  apply Qc_leb_le in Hle.
  assert (Hd : (0 <= h + - l)%Qc) by (apply -> Qcle_minus_iff; assumption).
  assert (Hb : (h + - l)%Qc <> 0%Qc).
  { intros H0. apply Hne.
    replace h with ((h + - l) + l)%Qc by ring. rewrite H0. ring. }
  assert (Hz : Qc_eqb (h + - l) zeroQc = false).
  { destruct (Qc_eqb (h + - l) zeroQc) eqn:Ez; [|reflexivity].
    apply Qc_eqb_eq in Ez. contradiction. }
  assert (Hsub : sub (Fin h) (Fin l) = Fin (h + - l)).
  { rewrite sub_Fin in *. rewrite (fin_nonneg _ Hd) in *.
    destruct (Qc_leb overflow_bound (h + - l)); [discriminate|reflexivity]. }
  assert (Hzero : div (sub (Fin l) (Fin l)) (sub (Fin h) (Fin l)) = of_Z 0).
  { rewrite Hsub, sub_Fin, Qcplus_opp_r.
    change (fin 0%Qc) with (Fin 0%Qc). cbn [div]. rewrite Hz.
    replace (0 / (h + - l))%Qc with 0%Qc
      by (unfold Qcdiv; rewrite Qcmult_0_l; reflexivity).
    reflexivity. }
  assert (Hone : div (sub (Fin h) (Fin l)) (sub (Fin h) (Fin l)) = of_Z 1).
  { rewrite Hsub. cbn [div]. rewrite Hz.
    replace ((h + - l) / (h + - l))%Qc with 1%Qc
      by (unfold Qcdiv; rewrite Qcmult_inv_r by assumption; reflexivity).
    reflexivity. }
  eexists.
  split; [exact (RescaleImageColorMap_cells g (Fin l) (Fin h) Hlo Hhi)|].
  split; [|split; [|split]].
  - intros r c Hc. rewrite cell_map2d, Hc. simpl option_map.
    f_equal. exact Hzero.
  - intros r c Hc. rewrite cell_map2d, Hc. simpl option_map.
    f_equal. exact Hone.
  - destruct (In_cell_map2d
                (fun v => div (sub v (Fin l)) (sub (Fin h) (Fin l)))
                g (Fin l) Hlo_in) as [r [c H]].
    exists r, c. rewrite H. f_equal. exact Hzero.
  - destruct (In_cell_map2d
                (fun v => div (sub v (Fin l)) (sub (Fin h) (Fin l)))
                g (Fin h) Hhi_in) as [r [c H]].
    exists r, c. rewrite H. f_equal. exact Hone.
Qed.

Lemma rescale_attains_zero_and_one_witness :
  exists out : grid,
    RescaleImageColorMap grid_0_5_10 = Ok out /\
    cell out 0 0 = Some (of_Z 0) /\ cell out 0 2 = Some (of_Z 1).
Proof.
  destruct (rescale_attains_zero_and_one grid_0_5_10 (of_Z 0) (of_Z 10))
    as [out [Hout [Hlo [Hhi _]]]].
  - repeat constructor.
  - reflexivity.
  - reflexivity.
  - reflexivity.
  - reflexivity.
  - exists out. split; [exact Hout|].
    split; [apply Hlo|apply Hhi]; reflexivity.
Defined.

(** *** Minimum and maximum *)

Lemma fold_minimum_nan (xs : list float64) : fold_left minimum xs NaN = NaN.
Proof. induction xs as [|a xs IH]; simpl; [reflexivity|exact IH]. Qed.

Lemma fold_maximum_nan (xs : list float64) : fold_left maximum xs NaN = NaN.
Proof. induction xs as [|a xs IH]; simpl; [reflexivity|exact IH]. Qed.

Lemma minimum_nan_r (a : float64) : minimum a NaN = NaN.
Proof. destruct a; reflexivity. Qed.

Lemma maximum_nan_r (a : float64) : maximum a NaN = NaN.
Proof. destruct a; reflexivity. Qed.

Lemma fold_minimum_with_nan (xs : list float64) (x : float64) :
  In NaN (x :: xs) -> fold_left minimum xs x = NaN.
Proof.
  revert x. induction xs as [|a xs IH]; intros x [Hx|Hin]; simpl.
  - assumption.
  - destruct Hin.
  - subst x. apply fold_minimum_nan.
  - destruct Hin as [Ha|Hin].
    + subst a. rewrite minimum_nan_r. apply fold_minimum_nan.
    + apply IH. right. assumption.
Qed.

Lemma fold_maximum_with_nan (xs : list float64) (x : float64) :
  In NaN (x :: xs) -> fold_left maximum xs x = NaN.
Proof.
  revert x. induction xs as [|a xs IH]; intros x [Hx|Hin]; simpl.
  - assumption.
  - destruct Hin.
  - subst x. apply fold_maximum_nan.
  - destruct Hin as [Ha|Hin].
    + subst a. rewrite maximum_nan_r. apply fold_maximum_nan.
    + apply IH. right. assumption.
Qed.

Lemma eqb_nan_r (v : float64) : eqb v NaN = false.
Proof. destruct v; reflexivity. Qed.

Lemma where_row_nan (row : list float64) (r c : nat) :
  where_row NaN row r c = [].
Proof.
  revert c. induction row as [|x row IH]; intros c; simpl; [reflexivity|].
  rewrite eqb_nan_r. apply IH.
Qed.

Lemma where_from_nan (g : grid) (r : nat) : where_from NaN g r = [].
Proof.
  revert r. induction g as [|row g IH]; intros r; simpl; [reflexivity|].
  rewrite where_row_nan, IH. reflexivity.
Qed.

(** X5.  The two ways in which the query for the extrema fails: [ValueError] on
    a grid without cells, and [IndexError] on a grid holding a NaN, whose
    minimum is NaN and equals no cell.  On every other grid it returns. *)
Theorem GetMinMaxTemperatureAndLocation_errors :
  forall T : grid,
    (concat T = [] ->
     GetMinMaxTemperatureAndLocation T = Raise ValueError) /\
    (In NaN (concat T) ->
     GetMinMaxTemperatureAndLocation T = Raise IndexError) /\
    (concat T <> [] -> ~ In NaN (concat T) ->
     raises (GetMinMaxTemperatureAndLocation T) = false).
Proof.
  intros T. split; [|split].
  - intros E. unfold GetMinMaxTemperatureAndLocation.
    rewrite amin_empty by assumption. reflexivity.
  - intros Hin. unfold GetMinMaxTemperatureAndLocation, amin, amax.
    destruct (concat T) as [|x xs]; [destruct Hin|].
    rewrite fold_minimum_with_nan, fold_maximum_with_nan by assumption.
    cbn [bind]. unfold where_eq. rewrite where_from_nan. reflexivity.
  - intros Hne Hnot.
    assert (Hnan : Forall (fun v => is_nan v = false) (concat T)).
    { apply Forall_forall. intros [q| | |] Hv; try reflexivity.
      contradiction. }
    destruct (amin_spec T Hne Hnan) as [lo [Hlo [Hlo_in [Hlo_nan _]]]].
    destruct (amax_spec T Hne Hnan) as [hi [Hhi [Hhi_in [Hhi_nan _]]]].
    destruct (first_position T lo Hlo_nan Hlo_in)
      as [ymin [xmin [rest_lo [Hwlo _]]]].
    destruct (first_position T hi Hhi_nan Hhi_in)
      as [ymax [xmax [rest_hi [Hwhi _]]]].
    unfold GetMinMaxTemperatureAndLocation.
    rewrite Hlo, Hhi. cbn [bind]. rewrite Hwlo, Hwhi.
    unfold take_cells. cbn [map fst snd combine].
    rewrite !index_0_cons. reflexivity.
Qed.

Lemma GetMinMaxTemperatureAndLocation_errors_witness :
  GetMinMaxTemperatureAndLocation [[]; []] = Raise ValueError /\
  GetMinMaxTemperatureAndLocation grid_nan = Raise IndexError /\
  raises (GetMinMaxTemperatureAndLocation grid2) = false.
Proof.
  split; [|split].
  - apply (GetMinMaxTemperatureAndLocation_errors [[]; []]). reflexivity.
  - apply (GetMinMaxTemperatureAndLocation_errors grid_nan).
    left. reflexivity.
  - apply (GetMinMaxTemperatureAndLocation_errors grid2).
    + discriminate.
    + simpl. intros [H|[H|[H|[H|[]]]]]; discriminate.
Defined.

Lemma nan_free_dec (l : list float64) :
  {In NaN l} + {Forall (fun v => is_nan v = false) l}.
Proof.
  destruct (existsb is_nan l) eqn:E.
  - left. apply existsb_exists in E. destruct E as [x [Hin Hx]].
    destruct x; try discriminate. assumption.
  - right. apply Forall_forall. intros x Hin.
    destruct (is_nan x) eqn:Hx; [|reflexivity].
    assert (existsb is_nan l = true)
      by (apply existsb_exists; exists x; split; assumption).
    congruence.
Qed.

(** The value of the query on a grid with at least one cell and no NaN. *)
Lemma GetMinMaxTemperatureAndLocation_value (T : grid) :
  concat T <> [] ->
  Forall (fun v => is_nan v = false) (concat T) ->
  exists (lo hi : float64) (ymin xmin ymax xmax : nat),
    GetMinMaxTemperatureAndLocation T =
      Ok {| MinTemperature := lo;
            MaxTemperature := hi;
            MinLocation := (4 * Z.of_nat xmin, 4 * Z.of_nat ymin);
            MaxLocation := (4 * Z.of_nat xmax, 4 * Z.of_nat ymax) |} /\
    cell T ymin xmin = Some lo /\
    cell T ymax xmax = Some hi /\
    leb lo hi = true.
Proof.
  intros Hne Hnan.
  destruct (amin_spec T Hne Hnan) as [lo [Hlo [Hlo_in [Hlo_nan Hlo_min]]]].
  destruct (amax_spec T Hne Hnan) as [hi [Hhi [Hhi_in [Hhi_nan _]]]].
  destruct (first_position T lo Hlo_nan Hlo_in)
    as [ymin [xmin [rest_lo [Hwlo [Hclo _]]]]].
  destruct (first_position T hi Hhi_nan Hhi_in)
    as [ymax [xmax [rest_hi [Hwhi [Hchi _]]]]].
  exists lo, hi, ymin, xmin, ymax, xmax.
  split; [|split; [assumption|split; [assumption|apply Hlo_min; assumption]]].
  unfold GetMinMaxTemperatureAndLocation.
  rewrite Hlo, Hhi. cbn [bind]. rewrite Hwlo, Hwhi.
  unfold take_cells. cbn [map fst snd combine].
  rewrite !index_0_cons. cbn [bind].
  rewrite (cell_nth T ymin xmin lo Hclo), (cell_nth T ymax xmax hi Hchi).
  reflexivity.
Qed.

Lemma GetMinMaxTemperatureAndLocation_ok (T : grid) (r : MinMax) :
  GetMinMaxTemperatureAndLocation T = Ok r ->
  concat T <> [] /\ Forall (fun v => is_nan v = false) (concat T).
Proof.
  intros Hr. split.
  - intros E. unfold GetMinMaxTemperatureAndLocation in Hr.
    rewrite amin_empty in Hr by assumption. discriminate.
  - destruct (nan_free_dec (concat T)) as [Hin|Hfree]; [|assumption].
    exfalso. unfold GetMinMaxTemperatureAndLocation, amin, amax in Hr.
    destruct (concat T) as [|x xs]; [destruct Hin|].
    rewrite fold_minimum_with_nan, fold_maximum_with_nan in Hr by assumption.
    cbn [bind] in Hr. unfold where_eq in Hr.
    rewrite where_from_nan in Hr. discriminate.
Qed.

Lemma display_to_data_scaled (z : Z) : display_to_data (inject_Z (4 * z)) = z.
Proof.
  unfold display_to_data, scale_down, ResolutionScale, Py.int.
  change (Z.quot (4 * z * 1) 4 = z).
  rewrite Z.mul_1_r, (Z.mul_comm 4 z).
  apply Z.quot_mul. discriminate.
Qed.

Lemma index_nth_error {A : Type} (l : list A) (n : nat) (a : A) :
  nth_error l n = Some a -> index l (Z.of_nat n) = Ok a.
Proof.
  intros H. unfold index.
  assert (Hlt : (n < length l)%nat)
    by (apply nth_error_Some; congruence).
  destruct (Z.ltb_spec (Z.of_nat n) 0); [lia|].
  destruct (Z.ltb_spec (Z.of_nat n) 0); [lia|].
  destruct (Z.leb_spec (Z.of_nat (length l)) (Z.of_nat n)); [lia|].
  simpl. rewrite Nat2Z.id, H. reflexivity.
Qed.

Lemma index2_cell {A : Type} (g : array2 A) (r c : nat) (v : A) :
  cell g r c = Some v -> index2 g (Z.of_nat r) (Z.of_nat c) = Ok v.
Proof.
  unfold cell, index2. intros H.
  destruct (nth_error g r) as [row|] eqn:Hr; [|discriminate].
  rewrite (index_nth_error g r row Hr). cbn [bind].
  apply index_nth_error. assumption.
Qed.

Lemma cell_bounds {A : Type} (g : array2 A) (w r c : nat) (v : A) :
  Forall (fun row => length row = w) g ->
  cell g r c = Some v -> (r < length g)%nat /\ (c < w)%nat.
Proof.
  unfold cell. intros Hw H.
  destruct (nth_error g r) as [row|] eqn:Hr; [|discriminate].
  split.
  - apply nth_error_Some. congruence.
  - rewrite Forall_forall in Hw.
    rewrite <- (Hw row (nth_error_In _ _ Hr)).
    apply nth_error_Some. congruence.
Qed.

(** X6.  Whenever the query returns, its two locations lead back to the
    extrema: dividing a location by 4 as a click does and reading the
    thermal data there gives the minimum, respectively the maximum, and
    the minimum is at most the maximum.  The locations are multiples of 4
    inside the picture, at most 4 * (width - 1) and 4 * (height - 1). *)
Theorem min_max_locations_round_trip :
  forall (T : grid) (w : nat) (r : MinMax),
    Forall (fun row => length row = w) T ->
    GetMinMaxTemperatureAndLocation T = Ok r ->
    index2 T (display_to_data (inject_Z (snd (MinLocation r))))
             (display_to_data (inject_Z (fst (MinLocation r)))) =
      Ok (MinTemperature r) /\
    index2 T (display_to_data (inject_Z (snd (MaxLocation r))))
             (display_to_data (inject_Z (fst (MaxLocation r)))) =
      Ok (MaxTemperature r) /\
    leb (MinTemperature r) (MaxTemperature r) = true /\
    (forall p, p = MinLocation r \/ p = MaxLocation r ->
       0 <= fst p <= 4 * (Z.of_nat w - 1) /\
       0 <= snd p <= 4 * (Z.of_nat (length T) - 1) /\
       fst p mod 4 = 0 /\ snd p mod 4 = 0).
Proof.
  intros T w r Hw Hr.
  destruct (GetMinMaxTemperatureAndLocation_ok T r Hr) as [Hne Hnan].
  destruct (GetMinMaxTemperatureAndLocation_value T Hne Hnan)
    as [lo [hi [ymin [xmin [ymax [xmax [Hv [Hclo [Hchi Hle]]]]]]]]].
  rewrite Hr in Hv.
  assert (E : r = {| MinTemperature := lo;
                     MaxTemperature := hi;
                     MinLocation := (4 * Z.of_nat xmin, 4 * Z.of_nat ymin);
                     MaxLocation := (4 * Z.of_nat xmax, 4 * Z.of_nat ymax) |})
    by congruence.
  rewrite E. cbn [MinLocation MaxLocation MinTemperature MaxTemperature
                  fst snd].
  rewrite !display_to_data_scaled.
  split; [apply index2_cell; assumption|].
  split; [apply index2_cell; assumption|].
  split; [assumption|].
  destruct (cell_bounds T w ymin xmin lo Hw Hclo) as [Hy1 Hx1].
  destruct (cell_bounds T w ymax xmax hi Hw Hchi) as [Hy2 Hx2].
  intros p [-> | ->]; cbn [fst snd];
    rewrite !(Z.mul_comm 4), !Z.mod_mul by discriminate;
    repeat split; lia.
Qed.

Lemma min_max_locations_round_trip_witness :
  exists r : MinMax,
    GetMinMaxTemperatureAndLocation grid_ties = Ok r /\
    index2 grid_ties (display_to_data (inject_Z (snd (MinLocation r))))
                     (display_to_data (inject_Z (fst (MinLocation r)))) =
      Ok (of_Z 1).
Proof.
  eexists. split; [reflexivity|].
  exact (proj1 (min_max_locations_round_trip grid_ties 3 _
                  ltac:(repeat constructor) eq_refl)).
Defined.

(** *** Marker labels *)

Lemma Qltb_ge (a b : Q) : Qltb a b = false <-> (b <= a)%Q.
Proof.
  unfold Qltb. rewrite negb_false_iff. apply Qle_bool_iff.
Qed.

Lemma GetMarkerTextCoordinates_bounds (X Y : Q) :
  (0 <= X)%Q -> (X < 640)%Q -> (0 <= Y)%Q -> (Y < 480)%Q ->
  (10 <= fst (GetMarkerTextCoordinates X Y))%Q /\
  (fst (GetMarkerTextCoordinates X Y) <= 610)%Q /\
  (3 <= snd (GetMarkerTextCoordinates X Y))%Q /\
  (snd (GetMarkerTextCoordinates X Y) < 480)%Q.
Proof.
  intros HX0 HX HY0 HY. unfold GetMarkerTextCoordinates. cbn [fst snd].
  destruct (Qltb 600 X) eqn:EX; destruct (Qltb 473 Y) eqn:EY;
    try (apply Qltb_lt in EX); try (apply Qltb_ge in EX);
    try (apply Qltb_lt in EY); try (apply Qltb_ge in EY);
    repeat split; lra.
Qed.

(** X7.  The label of a marker placed inside the 640x480 picture is anchored
    inside the picture: between 10 and 610 horizontally and between 3 and
    480 vertically. *)
Theorem marker_label_inside_picture :
  forall X Y : Q,
    (0 <= X)%Q -> (X < 640)%Q -> (0 <= Y)%Q -> (Y < 480)%Q ->
    (10 <= fst (GetMarkerTextCoordinates X Y))%Q /\
    (fst (GetMarkerTextCoordinates X Y) <= 610)%Q /\
    (3 <= snd (GetMarkerTextCoordinates X Y))%Q /\
    (snd (GetMarkerTextCoordinates X Y) < 480)%Q.
Proof. exact GetMarkerTextCoordinates_bounds. Qed.

Lemma marker_label_inside_picture_witness :
  (10 <= fst (GetMarkerTextCoordinates 636 476))%Q /\
  (fst (GetMarkerTextCoordinates 636 476) <= 610)%Q /\
  (3 <= snd (GetMarkerTextCoordinates 636 476))%Q /\
  (snd (GetMarkerTextCoordinates 636 476) < 480)%Q.
Proof.
  apply (marker_label_inside_picture 636 476); [discriminate|reflexivity|discriminate|reflexivity].
Defined.

(** X8.  On a 120x160 grid without NaN the two extremum markers are drawn, on
    multiples of 4 inside the 640x480 picture, and their labels are
    anchored inside the picture. *)
Theorem PlotMinMaxMarkers_inside_picture :
  forall T : grid,
    length T = 120%nat ->
    Forall (fun row => length row = 160%nat) T ->
    Forall (fun v => is_nan v = false) (concat T) ->
    exists m : MinMaxMarkers,
      PlotMinMaxMarkers T = Ok m /\
      forall p t,
        (p = MinMarker m /\ t = MinText m) \/
        (p = MaxMarker m /\ t = MaxText m) ->
        (0 <= fst p)%Q /\ (fst p <= 636)%Q /\
        (0 <= snd p)%Q /\ (snd p <= 476)%Q /\
        (10 <= fst t)%Q /\ (fst t <= 610)%Q /\
        (3 <= snd t)%Q /\ (snd t < 480)%Q.
Proof.
  intros T Hh Hw Hnan.
  assert (Hne : concat T <> []).
  { destruct T as [|row T]; [discriminate|].
    inversion Hw as [|? ? Hrow _]; subst.
    destruct row; [discriminate|]. discriminate. }
  destruct (GetMinMaxTemperatureAndLocation_value T Hne Hnan)
    as [lo [hi [ymin [xmin [ymax [xmax [Hv [Hclo [Hchi _]]]]]]]]].
  destruct (cell_bounds T 160 ymin xmin lo Hw Hclo) as [Hy1 Hx1].
  destruct (cell_bounds T 160 ymax xmax hi Hw Hchi) as [Hy2 Hx2].
  rewrite Hh in Hy1, Hy2.
  unfold PlotMinMaxMarkers. rewrite Hv. cbn [bind MinLocation MaxLocation fst snd].
  eexists. split; [reflexivity|].
  cbn [MinMarker MaxMarker MinText MaxText].
  assert (Hin : forall n k : nat, (n < k)%nat ->
            (0 <= inject_Z (4 * Z.of_nat n))%Q /\
            (inject_Z (4 * Z.of_nat n) <= inject_Z (4 * (Z.of_nat k - 1)))%Q).
  { intros n k Hlt. rewrite <- !Zle_Qle.
    change 0%Q with (inject_Z 0). rewrite <- Zle_Qle. lia. }
  destruct (Hin xmin 160%nat Hx1) as [Ha1 Ha2].
  destruct (Hin ymin 120%nat Hy1) as [Hb1 Hb2].
  destruct (Hin xmax 160%nat Hx2) as [Hc1 Hc2].
  destruct (Hin ymax 120%nat Hy2) as [Hd1 Hd2].
  change (inject_Z (4 * (Z.of_nat 160 - 1))) with 636%Q in *.
  change (inject_Z (4 * (Z.of_nat 120 - 1))) with 476%Q in *.
  intros p t [[-> ->] | [-> ->]]; cbn [fst snd];
    (split; [assumption|]); (split; [assumption|]);
    (split; [assumption|]); (split; [assumption|]);
    apply GetMarkerTextCoordinates_bounds; lra.
Qed.

(** * Further properties of the region operations *)

(** ** Sums *)

Lemma length_zip_with {A B C : Type} (f : A -> B -> C) (u : list A)
  (v : list B) :
  length u = length v -> length (zip_with f u v) = length u.
Proof.
  revert v. induction u as [|a u IH]; intros [|b v] Hlen;
    try discriminate; simpl; [reflexivity|].
  f_equal. apply IH. injection Hlen as Hlen. assumption.
Qed.

Lemma length_concat_rect {A : Type} (k : nat) (rows : list (list A)) :
  Forall (fun row => length row = k) rows ->
  length (concat rows) = (length rows * k)%nat.
Proof.
  induction 1 as [|row rows Hrow _ IH]; simpl; [reflexivity|].
  rewrite length_app, IH, Hrow. reflexivity.
Qed.

(** Adding up the rows of a rectangular array gives a vector with one
    entry for each column. *)
Lemma fold_rows (k : nat) (rows : list (list float64)) (v : list float64) :
  length v = k ->
  Forall (fun row => length row = k) rows ->
  length (fold_left (zip_with add) rows v) = k.
Proof.
  intros Hv Hrows. revert v Hv.
  induction Hrows as [|row rows Hrow _ IH]; intros v Hv;
    cbn [fold_left]; [assumption|].
  apply IH. rewrite length_zip_with; congruence.
Qed.

(** ** Shapes of slices *)

Lemma length_slice_same {A B : Type} (start stop : Z) (l : list A)
  (l' : list B) :
  length l = length l' ->
  length (slice start stop l) = length (slice start stop l').
Proof.
  intros H. unfold slice.
  rewrite !length_firstn, !length_skipn, H. reflexivity.
Qed.

Lemma slice_rows_same_length {A : Type} (w : nat) (c0 c1 : Z)
  (rows : list (list A)) :
  Forall (fun row => length row = w) rows ->
  exists k : nat,
    Forall (fun row => length row = k) (map (slice c0 c1) rows) /\
    (forall row : list A, length row = w -> length (slice c0 c1 row) = k).
Proof.
  intros Hrows.
  exists (length (slice c0 c1 (repeat tt w))).
  assert (Hk : forall row : list A, length row = w ->
            length (slice c0 c1 row) = length (slice c0 c1 (repeat tt w))).
  { intros row Hrow. apply length_slice_same.
    rewrite repeat_length. assumption. }
  split; [|exact Hk].
  apply Forall_map. eapply Forall_impl; [|exact Hrows].
  exact Hk.
Qed.

Lemma concat_nil_rows {A : Type} (k : nat) (rows : list (list A)) :
  Forall (fun row => length row = k) rows ->
  rows <> [] ->
  (concat rows = [] <-> k = 0%nat).
Proof.
  intros Hrows Hne.
  destruct rows as [|r rest]; [contradiction|].
  inversion Hrows as [|? ? Hr Hrest]; subst. split.
  - simpl. intros E. apply app_eq_nil in E. destruct E as [-> _].
    reflexivity.
  - intros Hk. apply concat_all_nil.
    eapply Forall_impl; [|exact Hrows].
    intros row Hrow. simpl in Hrow. rewrite Hk in Hrow.
    destruct row; [reflexivity|discriminate].
Qed.

(** X11.  The three outcomes of the average of a box on a rectangular grid:
    [TypeError] when the slice selects no row, [ZeroDivisionError] when it
    selects rows but no column, and otherwise a value: the rows of the
    subregion are added element-wise from the first one, which gives one
    sum for each column; these are added from the left, and the total is
    divided by the number of cells. *)
Theorem AverageTemperature_outcomes :
  forall (T : grid) (w : nat) (b : Box),
    Forall (fun row => length row = w) T ->
    match Subregion T b with
    | [] => AverageTemperature T b = Raise TypeError
    | r0 :: rest =>
        match concat (Subregion T b) with
        | [] => AverageTemperature T b = Raise ZeroDivisionError
        | _ :: _ =>
            exists (x : float64) (xs : list float64),
              fold_left (zip_with add) rest (map (add (of_Z 0)) r0) = x :: xs /\
              length (x :: xs) = length r0 /\
              size (Subregion T b) = (length (r0 :: rest) * length r0)%nat /\
              AverageTemperature T b =
              Ok (div (fold_left add xs (add (of_Z 0) x))
                      (of_Z (Z.of_nat (size (Subregion T b)))))
        end
    end.
Proof.
  intros T w b Hw.
  rewrite AverageTemperature_region.
  assert (Hrect : exists k, Forall (fun row => length row = k) (Subregion T b)).
  { unfold Subregion, slice2.
    destruct (slice_rows_same_length w
                (display_to_data (X1 b) - 1) (display_to_data (X2 b))
                (slice (display_to_data (Y1 b) - 1) (display_to_data (Y2 b)) T))
      as [k [Hk _]]; [apply Forall_slice; assumption|].
    exists k. assumption. }
  destruct Hrect as [k Hk].
  destruct (Subregion T b) as [|r0 rest] eqn:Esub; [reflexivity|].
  pose proof (length_concat_rect k (r0 :: rest) Hk) as Hsize.
  inversion Hk as [|? ? Hr0 Hrest]; subst.
  pose proof (fold_rows (length r0) rest (map (add (of_Z 0)) r0)
                (length_map _ _) Hrest) as Hlen.
  unfold sum_rows, size.
  destruct (concat (r0 :: rest)) as [|c cs] eqn:Ecat.
  - assert (Hzero : length r0 = 0%nat).
    { simpl in Ecat. apply app_eq_nil in Ecat. destruct Ecat as [-> _].
      reflexivity. }
    rewrite Hzero in Hlen.
    destruct (fold_left (zip_with add) rest (map (add (of_Z 0)) r0));
      [|discriminate].
    reflexivity.
  - destruct (fold_left (zip_with add) rest (map (add (of_Z 0)) r0))
      as [|y ys] eqn:Efold.
    + exfalso. simpl in Hlen.
      destruct r0; [|discriminate].
      simpl in Ecat.
      assert (Hall : Forall (fun row => row = []) rest).
      { eapply Forall_impl; [|exact Hrest].
        intros row Hrow. destruct row; [reflexivity|discriminate]. }
      rewrite (concat_all_nil rest Hall) in Ecat. discriminate.
    + exists y, ys.
      split; [reflexivity|]. split; [exact Hlen|].
      split; [exact Hsize|]. reflexivity.
Qed.

Lemma AverageTemperature_outcomes_witness :
  Forall (fun row => length row = 4%nat) grid4 /\
  exists a : float64,
    AverageTemperature grid4 box_inner = Ok a /\
    eqb a (of_Q (7 # 2)) = true.
Proof.
  assert (Hw : Forall (fun row => length row = 4%nat) grid4)
    by (repeat constructor).
  split; [exact Hw|].
  pose proof (AverageTemperature_outcomes grid4 4 box_inner Hw) as H.
  assert (Es : Subregion grid4 box_inner = map (map of_Z) [[1; 2]; [5; 6]])
    by reflexivity.
  rewrite Es in H. cbn [map concat app] in H.
  destruct H as [x [xs [_ [_ [_ H]]]]].
  eexists. split; [exact H|].
  match type of H with
  | _ = Ok ?v => remember v as a eqn:Ha; clear Ha
  end.
  assert (E : Ok a = AverageTemperature grid4 box_inner)
    by (symmetry; exact H).
  vm_compute in E. injection E as ->. vm_compute. reflexivity.
Defined.

(** ** The shape and the cells of a subregion *)

Lemma In_slice {A : Type} (start stop : Z) (l : list A) (a : A) :
  In a (slice start stop l) -> In a l.
Proof.
  intros H.
  assert (Hall : Forall (fun x => In x l) (slice start stop l)).
  { apply Forall_slice. apply Forall_forall. auto. }
  rewrite Forall_forall in Hall. apply Hall. assumption.
Qed.

(** Whatever the box, every cell of its subregion is a cell of the grid. *)
Lemma In_Subregion {A : Type} (T : array2 A) (b : Box) (v : A) :
  In v (concat (Subregion T b)) -> In v (concat T).
Proof.
  unfold Subregion, slice2. rewrite !in_concat.
  intros [row [Hrow Hv]].
  apply in_map_iff in Hrow. destruct Hrow as [row0 [<- Hrow0]].
  exists row0. split.
  - eapply In_slice. eassumption.
  - eapply In_slice. eassumption.
Qed.

(** X9.  For a box whose truncated corners satisfy 1 <= x1 <= x2 <= width and
    1 <= y1 <= y2 <= height, the subregion has y2 - y1 + 1 rows of
    x2 - x1 + 1 cells.  The frame drawn for the box spans x2 - x1 by
    y2 - y1 cells from the cell (x1, y1): the subregion has one more column
    and one more row than the frame. *)
Theorem Subregion_shape :
  forall (A : Type) (T : array2 A) (w : nat) (b : Box),
    Forall (fun row => length row = w) T ->
    1 <= display_to_data (X1 b) <= display_to_data (X2 b) ->
    display_to_data (X2 b) <= Z.of_nat w ->
    1 <= display_to_data (Y1 b) <= display_to_data (Y2 b) ->
    display_to_data (Y2 b) <= Z.of_nat (length T) ->
    let columns := display_to_data (X2 b) - display_to_data (X1 b) + 1 in
    let rows := display_to_data (Y2 b) - display_to_data (Y1 b) + 1 in
    Z.of_nat (length (Subregion T b)) = rows /\
    Forall (fun row => Z.of_nat (length row) = columns) (Subregion T b) /\
    Z.of_nat (size (Subregion T b)) = rows * columns /\
    MeasurementFrame b =
      ((4 * display_to_data (X1 b), 4 * display_to_data (Y1 b)),
       4 * (columns - 1), 4 * (rows - 1)).
Proof.
  intros A T w b Hw Hx Hx2 Hy Hy2 columns rows.
  assert (Hrows : length (Subregion T b) = Z.to_nat rows).
  { unfold Subregion, slice2. rewrite length_map, length_slice by lia.
    unfold rows. f_equal. lia. }
  assert (Hcols : Forall (fun row => length row = Z.to_nat columns)
                         (Subregion T b)).
  { unfold Subregion, slice2. apply Forall_map.
    eapply Forall_impl; [|apply Forall_slice; exact Hw].
    intros row Hrow. cbv beta in Hrow. rewrite length_slice by lia.
    unfold columns. f_equal. lia. }
  split; [rewrite Hrows; unfold rows; lia|].
  split.
  - eapply Forall_impl; [|exact Hcols].
    intros row Hrow. rewrite Hrow. unfold columns. lia.
  - split.
    + unfold size. rewrite (length_concat_rect _ _ Hcols), Hrows.
      unfold rows, columns. lia.
    + unfold MeasurementFrame, columns, rows.
      apply f_equal2; [apply f_equal2; [apply f_equal2|]|]; lia.
Qed.

Lemma Subregion_shape_witness :
  Z.of_nat (length (Subregion grid4 box_lower)) = 3 /\
  Z.of_nat (size (Subregion grid4 box_lower)) = 9 /\
  MeasurementFrame box_lower = ((8, 8), 8, 8).
Proof.
  destruct (Subregion_shape float64 grid4 4 box_lower)
    as [H1 [_ [H3 H4]]].
  - repeat constructor.
  - split; discriminate.
  - discriminate.
  - split; discriminate.
  - discriminate.
  - split; [exact H1|]. split; [exact H3|exact H4].
Defined.

(** ** A selection never reaches the last row or column *)

Lemma int_nonpos (q : Q) : (q <= 0)%Q -> Py.int q <= 0.
Proof.
  destruct q as [n d]. unfold Qle, Py.int. simpl. intros Hn.
  rewrite <- (Z.quot_0_l (Z.pos d)) by discriminate.
  apply Z.quot_le_mono; lia.
Qed.

Lemma int_lt (q : Q) (k : Z) : 0 < k -> (q < inject_Z k)%Q -> Py.int q < k.
Proof.
  intros Hk Hq.
  destruct (Qlt_le_dec q 0) as [Hneg|Hpos].
  - pose proof (int_nonpos q (Qlt_le_weak _ _ Hneg)). lia.
  - rewrite int_floor by assumption.
    rewrite Zlt_Qlt. eapply Qle_lt_trans; [apply Qfloor_le|assumption].
Qed.

Lemma int_zero_iff (q : Q) : Py.int q = 0 <-> (-1 < q)%Q /\ (q < 1)%Q.
Proof.
  destruct q as [n d]. unfold Py.int, Qlt. simpl.
  rewrite Z.quot_small_iff by discriminate.
  split; intros H; lia.
Qed.

Lemma display_to_data_lt (x : Q) (w : Z) :
  0 < w -> (x < inject_Z (4 * w))%Q -> display_to_data x < w.
Proof.
  intros Hw Hx. unfold display_to_data, scale_down, ResolutionScale.
  apply int_lt; [assumption|].
  apply Qlt_shift_div_r; [reflexivity|].
  rewrite <- inject_Z_mult, Z.mul_comm. assumption.
Qed.

Lemma clip_below (n i : Z) : 0 < n -> i < n -> clip n i <= n - 1.
Proof.
  intros Hn Hi. unfold clip.
  destruct (Z.ltb_spec i 0).
  - destruct (Z.ltb_spec (i + n) 0); [lia|].
    destruct (Z.ltb_spec n (i + n)); lia.
  - destruct (Z.ltb_spec i 0); [lia|].
    destruct (Z.ltb_spec n i); lia.
Qed.

Lemma clip_range (n i : Z) : 0 <= n -> 0 <= clip n i <= n.
Proof.
  intros Hn. unfold clip.
  destruct (Z.ltb_spec i 0).
  - destruct (Z.ltb_spec (i + n) 0); [lia|].
    destruct (Z.ltb_spec n (i + n)); lia.
  - destruct (Z.ltb_spec i 0); [lia|].
    destruct (Z.ltb_spec n i); lia.
Qed.

(** The elements of a slice, by position; a stop below the length keeps
    the last element out, whatever the start. *)
Lemma slice_positions {A : Type} (start stop : Z) (l : list A) :
  stop < Z.of_nat (length l) ->
  exists offset : nat,
    forall (j : nat) (v : A),
      nth_error (slice start stop l) j = Some v ->
      nth_error l (offset + j) = Some v /\
      (offset + j < length l - 1)%nat.
Proof.
  intros Hstop. unfold slice.
  set (n := Z.of_nat (length l)) in *.
  exists (Z.to_nat (clip n start)).
  intros j v Hj.
  rewrite nth_error_firstn, nth_error_skipn in Hj.
  destruct (Nat.ltb_spec j (Z.to_nat (clip n stop - clip n start)));
    [|discriminate].
  split; [assumption|].
  assert (Hn : 0 < n).
  { assert (nth_error l (Z.to_nat (clip n start) + j) <> None) by congruence.
    apply nth_error_Some in H0. unfold n. lia. }
  pose proof (clip_below n stop Hn Hstop).
  pose proof (clip_range n start ltac:(lia)).
  unfold n in *. lia.
Qed.

(** X10.  For a box accepted by the selection callback, no cell of the last row
    (119) or of the last column (159) of a 120x160 grid is part of a
    slice taken for it: every row slice and every column slice ends
    before the last index. *)
Theorem accepted_box_misses_last_row_and_column :
  forall (b : Box) (T : grid) (row : list float64),
    selection_accepted b = true ->
    length T = 120%nat ->
    length row = 160%nat ->
    (exists offset : nat,
       forall (j : nat) (v : float64),
         nth_error (slice (display_to_data (X1 b) - 1)
                          (display_to_data (X2 b)) row) j = Some v ->
         nth_error row (offset + j) = Some v /\ (offset + j < 159)%nat) /\
    (exists offset : nat,
       forall (i : nat) (r : list float64),
         nth_error (slice (display_to_data (Y1 b) - 1)
                          (display_to_data (Y2 b)) T) i = Some r ->
         nth_error T (offset + i) = Some r /\ (offset + i < 119)%nat).
Proof.
  intros b T row Hacc HT Hrow.
  unfold selection_accepted in Hacc.
  apply andb_true_iff in Hacc. destruct Hacc as [Hacc Hy2].
  apply andb_true_iff in Hacc. destruct Hacc as [Hacc Hy1].
  apply andb_true_iff in Hacc. destruct Hacc as [Hx1 Hx2].
  apply Qltb_lt in Hx2. apply Qltb_lt in Hy2.
  split.
  - destruct (slice_positions (display_to_data (X1 b) - 1)
                (display_to_data (X2 b)) row) as [offset H].
    + rewrite Hrow. apply display_to_data_lt; [lia|exact Hx2].
    + exists offset. intros j v Hj. rewrite Hrow in H. apply H. assumption.
  - destruct (slice_positions (display_to_data (Y1 b) - 1)
                (display_to_data (Y2 b)) T) as [offset H].
    + rewrite HT. apply display_to_data_lt; [lia|exact Hy2].
    + exists offset. intros i r Hi. rewrite HT in H. apply H. assumption.
Qed.

Lemma accepted_box_misses_last_row_and_column_witness :
  selection_accepted box_display = true /\
  slice (display_to_data (X1 box_lower) - 1) (display_to_data (X2 box_lower))
        [of_Z 1; of_Z 2; of_Z 3; of_Z 4] = [of_Z 2; of_Z 3; of_Z 4] /\
  exists offset : nat,
    forall (j : nat) (v : float64),
      nth_error (slice (display_to_data (X1 box_display) - 1)
                       (display_to_data (X2 box_display))
                       (repeat (of_Z 7) 160)) j = Some v ->
      nth_error (repeat (of_Z 7) 160) (offset + j) = Some v /\
      (offset + j < 159)%nat.
Proof.
  split; [reflexivity|]. split; [reflexivity|].
  exact (proj1 (accepted_box_misses_last_row_and_column box_display
                  (repeat [] 120) (repeat (of_Z 7) 160)
                  eq_refl eq_refl eq_refl)).
Defined.

(** ** The loop over the measurement boxes *)

Lemma PlotMeasurementBoxes_app_raise (T : grid) (boxes more : list Box)
  (e : exn) :
  PlotMeasurementBoxes T boxes = Raise e ->
  PlotMeasurementBoxes T (boxes ++ more) = Raise e.
Proof.
  induction boxes as [|b boxes IH]; simpl; [discriminate|].
  destruct (AverageTemperature T b) as [a|e']; simpl; [|auto].
  destruct (PlotMeasurementBoxes T boxes) as [tl|e']; simpl; [discriminate|].
  intros H. rewrite (IH H). reflexivity.
Qed.

Lemma PlotMeasurementBoxes_Ok (T : grid) (boxes : list Box)
  (averages : list float64) :
  PlotMeasurementBoxes T boxes = Ok averages <->
  Forall2 (fun b a => AverageTemperature T b = Ok a) boxes averages.
Proof.
  revert averages.
  induction boxes as [|b boxes IH]; intros averages; simpl.
  - split.
    + intros H. injection H as <-. constructor.
    + intros H. inversion H. reflexivity.
  - split.
    + destruct (AverageTemperature T b) as [a|e] eqn:Ea; simpl;
        [|discriminate].
      destruct (PlotMeasurementBoxes T boxes) as [tl|e]; simpl;
        [|discriminate].
      intros H. injection H as <-.
      constructor; [assumption|]. apply IH. reflexivity.
    + intros H. inversion H as [|? a ? tl Ha Htl]; subst.
      rewrite Ha. simpl.
      apply IH in Htl. rewrite Htl. reflexivity.
Qed.

Lemma PlotMeasurementBoxes_Raise (T : grid) (boxes : list Box) (e : exn) :
  PlotMeasurementBoxes T boxes = Raise e <->
  exists (before : list Box) (box : Box) (after : list Box),
    boxes = before ++ box :: after /\
    Forall (fun b => raises (AverageTemperature T b) = false) before /\
    AverageTemperature T box = Raise e.
Proof.
  induction boxes as [|b boxes IH]; simpl.
  - split; [discriminate|].
    intros [before [box [after [H _]]]].
    destruct before; discriminate.
  - destruct (AverageTemperature T b) as [a|e1] eqn:Ea; simpl.
    + destruct (PlotMeasurementBoxes T boxes) as [tl|e2] eqn:Erec; simpl.
      * split; [discriminate|].
        intros [before [box [after [Happ [Hok Hr]]]]].
        destruct before as [|b0 before]; simpl in Happ;
          injection Happ as Hb Hboxes; subst.
        -- congruence.
        -- inversion Hok; subst.
           assert (Habs : Ok tl = Raise e).
           { apply IH. exists before, box, after.
             split; [reflexivity|]. split; assumption. }
           discriminate.
      * split.
        -- intros H. injection H as ->.
           destruct (proj1 IH eq_refl)
             as [before [box [after [-> [Hok Hr]]]]].
           exists (b :: before), box, after.
           split; [reflexivity|].
           split; [|assumption].
           constructor; [rewrite Ea; reflexivity|assumption].
        -- intros [before [box [after [Happ [Hok Hr]]]]].
           destruct before as [|b0 before]; simpl in Happ;
             injection Happ as Hb Hboxes; subst.
           ++ congruence.
           ++ inversion Hok; subst. apply IH.
              exists before, box, after.
              split; [reflexivity|]. split; assumption.
    + split.
      * intros H. injection H as ->.
        exists [], b, boxes. repeat split; [constructor|assumption].
      * intros [before [box [after [Happ [Hok Hr]]]]].
        destruct before as [|b0 before]; simpl in Happ;
          injection Happ as Hb Hboxes; subst.
        -- congruence.
        -- inversion Hok as [|? ? Hb0 _]; subst.
           rewrite Ea in Hb0. discriminate.
Qed.

(** X12.  The loop over the measurement boxes returns one average per box, in
    order, when every box has one; otherwise it raises the exception of
    the first box that has none, and it goes on raising it however many
    boxes are appended. *)
Theorem PlotMeasurementBoxes_first_failure :
  forall (T : grid) (boxes : list Box),
    (forall averages : list float64,
       PlotMeasurementBoxes T boxes = Ok averages <->
       Forall2 (fun b a => AverageTemperature T b = Ok a) boxes averages) /\
    (forall e : exn,
       PlotMeasurementBoxes T boxes = Raise e <->
       exists (before : list Box) (box : Box) (after : list Box),
         boxes = before ++ box :: after /\
         Forall (fun b => raises (AverageTemperature T b) = false) before /\
         AverageTemperature T box = Raise e) /\
    (forall (e : exn) (more : list Box),
       PlotMeasurementBoxes T boxes = Raise e ->
       PlotMeasurementBoxes T (boxes ++ more) = Raise e).
Proof.
  intros T boxes. split; [|split].
  - intros averages. apply PlotMeasurementBoxes_Ok.
  - intros e. apply PlotMeasurementBoxes_Raise.
  - intros e more. apply PlotMeasurementBoxes_app_raise.
Qed.

Lemma PlotMeasurementBoxes_first_failure_witness :
  PlotMeasurementBoxes grid4 [box_inner; box_full; box_left; box_lower] =
    Raise TypeError /\
  PlotMeasurementBoxes grid4
    ([box_inner; box_full; box_left; box_lower] ++ [box_inner]) =
    Raise TypeError.
Proof.
  split; [reflexivity|].
  apply (proj2 (proj2 (PlotMeasurementBoxes_first_failure grid4
                         [box_inner; box_full; box_left; box_lower]))).
  reflexivity.
Defined.

(** ** Overlays *)

Lemma AddOverlayBox_unfold (st : State) (b : Box) :
  CurrentSelectionBox st = Some b ->
  AddOverlayBox st =
  (_ <- truediv_int (100 * (Py.int (Y2 b - Y1 b)%Q - 38))
                    (Py.int (Y2 b - Y1 b)%Q) ;;
   _ <- truediv_int 1000 (Py.int (X2 b - X1 b)%Q) ;;
   _ <- resize (Py.int (X2 b - X1 b)%Q) (Py.int (Y2 b - Y1 b)%Q) ;;
   lo <- amin (Subregion (ThermalData st) b) ;;
   hi <- amax (Subregion (ThermalData st) b) ;;
   Ok {| ThermalData := ThermalData st;
         MeasurementPoints := MeasurementPoints st;
         MeasurementBoxes := MeasurementBoxes st;
         OverlayBoxes :=
           OverlayBoxes st ++
           [{| PixelWidth := Py.int (X2 b - X1 b)%Q;
               PixelHeight := Py.int (Y2 b - Y1 b)%Q;
               OverlayAxes := NextAxes st;
               OverlayColorBarAxes := S (NextAxes st);
               TemperatureArray := Subregion (ThermalData st) b;
               ThermalMin := lo;
               ThermalMax := hi |}];
         CurrentSelectionBox := CurrentSelectionBox st;
         NextAxes := S (S (NextAxes st)) |}).
Proof.
  intros Hb. unfold AddOverlayBox. rewrite Hb. reflexivity.
Qed.

Lemma truediv_int_raises (a b : Z) :
  truediv_int a b = Raise ZeroDivisionError <-> b = 0.
Proof.
  unfold truediv_int. destruct (Z.eqb_spec b 0); split; intros H;
    try reflexivity; try assumption; try discriminate; contradiction.
Qed.

Lemma truediv_int_ok (a b : Z) :
  b <> 0 -> exists q, truediv_int a b = Ok q.
Proof.
  unfold truediv_int. destruct (Z.eqb_spec b 0); [contradiction|]. eauto.
Qed.

Lemma resize_raises (width height : Z) :
  width <= 0 \/ height <= 0 -> resize width height = Raise ValueError.
Proof.
  intros H. unfold resize.
  destruct (Z.leb_spec width 0), (Z.leb_spec height 0); try reflexivity.
  lia.
Qed.

Lemma resize_ok (width height : Z) :
  0 < width -> 0 < height -> resize width height = Ok tt.
Proof.
  intros Hw Hh. unfold resize.
  destruct (Z.leb_spec width 0), (Z.leb_spec height 0); try lia.
  reflexivity.
Qed.

(** X13.  When [AddOverlayBox] fails and how, by the pixel width and height
    it computes for the selection: [AttributeError] before any selection
    was made; [ZeroDivisionError] when the width or the height is 0;
    [ValueError] when neither is 0 and one is negative (the selection was
    dragged towards the left or upwards), or when the subregion has no
    cell.  In every other case it appends one overlay, which holds the
    subregion and the pixel size. *)
Theorem AddOverlayBox_outcomes :
  forall st : State,
    match CurrentSelectionBox st with
    | None => AddOverlayBox st = Raise AttributeError
    | Some b =>
        let width := Py.int (X2 b - X1 b)%Q in
        let height := Py.int (Y2 b - Y1 b)%Q in
        (height = 0 \/ width = 0 ->
         AddOverlayBox st = Raise ZeroDivisionError) /\
        (height <> 0 -> width <> 0 -> height < 0 \/ width < 0 ->
         AddOverlayBox st = Raise ValueError) /\
        (0 < height -> 0 < width ->
         match concat (Subregion (ThermalData st) b) with
         | [] => AddOverlayBox st = Raise ValueError
         | _ :: _ =>
             exists (st' : State) (overlay : Overlay),
               AddOverlayBox st = Ok st' /\
               OverlayBoxes st' = OverlayBoxes st ++ [overlay] /\
               TemperatureArray overlay = Subregion (ThermalData st) b /\
               PixelWidth overlay = width /\
               PixelHeight overlay = height
         end)
    end.
Proof.
  intros st.
  destruct (CurrentSelectionBox st) as [b|] eqn:Hb.
  2:{ unfold AddOverlayBox. rewrite Hb. reflexivity. }
  rewrite (AddOverlayBox_unfold st b Hb). cbv zeta.
  split; [|split].
  - intros [Hy|Hx].
    + rewrite Hy. reflexivity.
    + rewrite Hx.
      unfold truediv_int at 1.
      destruct (Py.int (Y2 b - Y1 b)%Q =? 0); reflexivity.
  - intros Hy Hx Hneg.
    destruct (truediv_int_ok (100 * (Py.int (Y2 b - Y1 b)%Q - 38)) _ Hy)
      as [q1 ->].
    destruct (truediv_int_ok 1000 _ Hx) as [q2 ->].
    cbn [bind]. rewrite resize_raises by lia. reflexivity.
  - intros Hy Hx.
    destruct (truediv_int_ok (100 * (Py.int (Y2 b - Y1 b)%Q - 38))
                (Py.int (Y2 b - Y1 b)%Q)) as [q1 ->]; [lia|].
    destruct (truediv_int_ok 1000 (Py.int (X2 b - X1 b)%Q)) as [q2 ->];
      [lia|].
    cbn [bind]. rewrite resize_ok by assumption. cbn [bind].
    destruct (concat (Subregion (ThermalData st) b)) as [|x xs] eqn:Ecat.
    + rewrite amin_empty by assumption. reflexivity.
    + assert (Hne : concat (Subregion (ThermalData st) b) <> [])
        by (rewrite Ecat; discriminate).
      destruct (amin_nonempty _ Hne) as [lo ->].
      destruct (amax_nonempty _ Hne) as [hi ->].
      cbn [bind]. do 2 eexists. split; [reflexivity|].
      repeat split.
Qed.

Lemma AddOverlayBox_outcomes_witness :
  AddOverlayBox (select {| X1 := 10; Y1 := 10; X2 := 40; Y2 := 21 # 2 |}
                        (initial_state grid4)) = Raise ZeroDivisionError /\
  AddOverlayBox (select {| X1 := 7; Y1 := 4; X2 := 4; Y2 := 12 |}
                        (initial_state grid4)) = Raise ValueError /\
  AddOverlayBox (select box_left (initial_state grid4)) = Raise ValueError /\
  AddOverlayBox (initial_state grid4) = Raise AttributeError.
Proof.
  split; [|split; [|split]].
  - apply (AddOverlayBox_outcomes
             (select {| X1 := 10; Y1 := 10; X2 := 40; Y2 := 21 # 2 |}
                     (initial_state grid4))).
    left. reflexivity.
  - apply (AddOverlayBox_outcomes
             (select {| X1 := 7; Y1 := 4; X2 := 4; Y2 := 12 |}
                     (initial_state grid4))).
    + discriminate.
    + discriminate.
    + right. reflexivity.
  - pose proof (AddOverlayBox_outcomes (select box_left (initial_state grid4)))
      as H.
    cbn [CurrentSelectionBox select initial_state] in H.
    change (SelectionBoxMouseClickCallback None box_left) with (Some box_left)
      in H.
    cbv beta iota zeta in H.
    apply (proj2 (proj2 H)); reflexivity.
  - exact (AddOverlayBox_outcomes (initial_state grid4)).
Defined.

(** X14.  The colour range of a new overlay lies inside the range of the whole
    picture: on thermal data without NaN, the minimum and the maximum kept
    with the overlay are values of cells of the thermal data, they bound
    every cell of the overlay's temperature array, and they lie between the
    minimum and the maximum of the thermal data. *)
Theorem overlay_range_within_picture :
  forall (st st' : State) (b : Box),
    CurrentSelectionBox st = Some b ->
    AddOverlayBox st = Ok st' ->
    Forall (fun v => is_nan v = false) (concat (ThermalData st)) ->
    exists (overlay : Overlay) (lo hi : float64),
      OverlayBoxes st' = OverlayBoxes st ++ [overlay] /\
      amin (ThermalData st) = Ok lo /\
      amax (ThermalData st) = Ok hi /\
      In (ThermalMin overlay) (concat (ThermalData st)) /\
      In (ThermalMax overlay) (concat (ThermalData st)) /\
      leb lo (ThermalMin overlay) = true /\
      leb (ThermalMin overlay) (ThermalMax overlay) = true /\
      leb (ThermalMax overlay) hi = true /\
      forall v, In v (concat (TemperatureArray overlay)) ->
                leb (ThermalMin overlay) v = true /\
                leb v (ThermalMax overlay) = true.
Proof.
  intros st st' b Hb Hadd Hnan.
  rewrite (AddOverlayBox_unfold st b Hb) in Hadd.
  destruct (truediv_int _ _) as [q1|e]; [|discriminate].
  destruct (truediv_int _ _) as [q2|e]; [|discriminate].
  destruct (resize _ _) as [u|e]; [|discriminate].
  cbn [bind] in Hadd.
  set (sub := Subregion (ThermalData st) b) in *.
  assert (Hsub_ne : concat sub <> []).
  { intros E. rewrite (amin_empty sub E) in Hadd. discriminate. }
  assert (Hsub_nan : Forall (fun v => is_nan v = false) (concat sub)).
  { apply Forall_forall. intros v Hv.
    rewrite Forall_forall in Hnan. apply Hnan.
    apply (In_Subregion _ b). exact Hv. }
  assert (Hne : concat (ThermalData st) <> []).
  { destruct (concat sub) as [|x xs] eqn:E; [contradiction|].
    assert (Hx : In x (concat sub)) by (rewrite E; left; reflexivity).
    apply (In_Subregion _ b) in Hx. intros E0. rewrite E0 in Hx. destruct Hx. }
  destruct (amin_spec sub Hsub_ne Hsub_nan) as [slo [Hslo [Hslo_in [_ Hslo_min]]]].
  destruct (amax_spec sub Hsub_ne Hsub_nan) as [shi [Hshi [Hshi_in [_ Hshi_max]]]].
  destruct (amin_spec _ Hne Hnan) as [lo [Hlo [_ [_ Hlo_min]]]].
  destruct (amax_spec _ Hne Hnan) as [hi [Hhi [_ [_ Hhi_max]]]].
  rewrite Hslo, Hshi in Hadd. cbn [bind] in Hadd.
  injection Hadd as <-.
  eexists. exists lo, hi.
  split; [reflexivity|]. cbn [ThermalMin ThermalMax TemperatureArray].
  split; [assumption|]. split; [assumption|].
  split; [apply (In_Subregion _ b); assumption|].
  split; [apply (In_Subregion _ b); assumption|].
  split; [apply Hlo_min, (In_Subregion _ b); assumption|].
  split; [apply Hslo_min; assumption|].
  split; [apply Hhi_max, (In_Subregion _ b); assumption|].
  intros v Hv. split; [apply Hslo_min|apply Hshi_max]; assumption.
Qed.

Lemma overlay_range_within_picture_witness :
  exists overlay : Overlay,
    OverlayBoxes session_with_overlay = [overlay] /\
    ThermalMin overlay = of_Z 6 /\ ThermalMax overlay = of_Z 16 /\
    leb (of_Z 1) (ThermalMin overlay) = true.
Proof.
  destruct (overlay_range_within_picture session_start session_with_overlay
              box_lower eq_refl eq_refl ltac:(repeat constructor))
    as [overlay [lo [hi [Hov [Hlo [_ [_ [_ [Hle _]]]]]]]]].
  exists overlay. split; [exact Hov|].
  assert (E : overlay = hd overlay (OverlayBoxes session_with_overlay))
    by (rewrite Hov; reflexivity).
  assert (Elo : Ok lo = Ok (of_Z 1)) by (rewrite <- Hlo; reflexivity).
  injection Elo as ->.
  split; [rewrite E; reflexivity|].
  split; [rewrite E; reflexivity|exact Hle].
Defined.

(** * Sessions *)

Lemma extends_refl {A : Type} (l : list A) : extends l l.
Proof. exists []. symmetry. apply app_nil_r. Qed.

Lemma extends_trans {A : Type} (l1 l2 l3 : list A) :
  extends l1 l2 -> extends l2 l3 -> extends l1 l3.
Proof.
  intros [m1 ->] [m2 ->]. exists (m1 ++ m2). symmetry. apply app_assoc.
Qed.

Lemma grows_refl (st : State) : grows st st.
Proof. repeat split; try apply extends_refl. lia. Qed.

Lemma grows_trans (st1 st2 st3 : State) :
  grows st1 st2 -> grows st2 st3 -> grows st1 st3.
Proof.
  intros [H1 [H2 [H3 [H4 H5]]]] [K1 [K2 [K3 [K4 K5]]]].
  split; [congruence|].
  split; [eapply extends_trans; eassumption|].
  split; [eapply extends_trans; eassumption|].
  split; [eapply extends_trans; eassumption|lia].
Qed.

Lemma perform_grows (a : action) (st st' : State) :
  perform a st = Ok st' -> grows st st'.
Proof.
  destruct a as [b| | |host x y]; simpl.
  - intros H. injection H as <-.
    repeat split; simpl; try apply extends_refl. lia.
  - unfold CreateAverageTemperatureBox.
    destruct (CurrentSelectionBox st) as [b|]; [|discriminate].
    intros H. injection H as <-.
    repeat split; simpl; try apply extends_refl; [eexists; reflexivity|lia].
  - intros H.
    destruct (CurrentSelectionBox st) as [b|] eqn:Hb.
    2:{ unfold AddOverlayBox in H. rewrite Hb in H. discriminate. }
    rewrite (AddOverlayBox_unfold st b Hb) in H.
    destruct (truediv_int _ _); [|discriminate].
    destruct (truediv_int _ _); [|discriminate].
    destruct (resize _ _); [|discriminate].
    destruct (amin _); [|discriminate].
    destruct (amax _); [|discriminate].
    cbn [bind] in H. injection H as <-.
    repeat split; simpl; try apply extends_refl; [eexists; reflexivity|lia].
  - unfold AddMeasurementPointMouseClickCallback.
    destruct (SamplePoint st host x y) as [[t|]|e]; simpl; try discriminate;
      intros H; injection H as <-.
    + repeat split; simpl; try apply extends_refl; [eexists; reflexivity|lia].
    + apply grows_refl.
Qed.

Lemma after_failure_grows (a : action) (st : State) :
  grows st (after_failure a st).
Proof.
  destruct a; simpl; try apply grows_refl.
  repeat split; simpl; try apply extends_refl. lia.
Qed.

Lemma run_grows (actions : list action) (st : State) :
  grows st (run actions st).
Proof.
  revert st. induction actions as [|a actions IH]; intros st; simpl.
  - apply grows_refl.
  - destruct (perform a st) as [st'|e] eqn:E.
    + eapply grows_trans; [exact (perform_grows a st st' E)|apply IH].
    + eapply grows_trans; [apply (after_failure_grows a)|apply IH].
Qed.

(** X15.  Whatever the user does, the thermal data stay as loaded and nothing is
    ever removed from or changed in the markers, the measurement boxes and
    the overlays: each sequence only has elements appended. *)
Theorem session_only_appends :
  forall (actions : list action) (st : State),
    ThermalData (run actions st) = ThermalData st /\
    (exists more, MeasurementPoints (run actions st) =
                  MeasurementPoints st ++ more) /\
    (exists more, MeasurementBoxes (run actions st) =
                  MeasurementBoxes st ++ more) /\
    (exists more, OverlayBoxes (run actions st) = OverlayBoxes st ++ more).
Proof.
  intros actions st.
  destruct (run_grows actions st) as [H1 [H2 [H3 [H4 _]]]].
  repeat split; assumption.
Qed.

(** X16.  Once the average of a measurement box fails, every later redraw fails:
    the loop over the boxes raises the same exception after any further
    actions, because the box stays in the list. *)
Theorem failed_box_stops_every_later_redraw :
  forall (st : State) (e : exn) (actions : list action) (show : bool),
    PlotMeasurementBoxes (ThermalData st) (MeasurementBoxes st) = Raise e ->
    PlotMeasurementBoxes (ThermalData (run actions st))
                         (MeasurementBoxes (run actions st)) = Raise e /\
    raises (PlotImages show (run actions st)) = true.
Proof.
  intros st e actions show Hfail.
  destruct (run_grows actions st) as [HT [_ [[more Hboxes] _]]].
  assert (H : PlotMeasurementBoxes (ThermalData (run actions st))
                (MeasurementBoxes (run actions st)) = Raise e).
  { rewrite HT, Hboxes. apply PlotMeasurementBoxes_app_raise. assumption. }
  split; [assumption|].
  unfold PlotImages.
  destruct show; [|simpl; rewrite H; reflexivity].
  destruct (PlotMinMaxMarkers _); simpl; [rewrite H|]; reflexivity.
Qed.

Lemma failed_box_stops_every_later_redraw_witness :
  raises (PlotImages true
            (run [Select box_left; KeyAverage; Select box_inner; KeyAverage;
                  KeyOverlay; Click 0%nat 6 5]
                 (initial_state grid4))) = true.
Proof.
  apply (failed_box_stops_every_later_redraw
           (run [Select box_left; KeyAverage] (initial_state grid4))
           TypeError
           [Select box_inner; KeyAverage; KeyOverlay; Click 0%nat 6 5]
           true).
  reflexivity.
Defined.

Lemma session_ok_initial (T : grid) : session_ok (initial_state T).
Proof.
  unfold session_ok, axes_distinct. simpl.
  repeat split; try constructor. discriminate.
Qed.

Lemma session_ok_select (b : Box) (st : State) :
  session_ok st -> session_ok (select b st).
Proof.
  intros [Hd [Hn [Hov [Hsel Hboxes]]]].
  unfold session_ok, axes_distinct in *. simpl.
  repeat split; try tauto.
  intros b0. unfold SelectionBoxMouseClickCallback.
  destruct (selection_accepted b) eqn:Hb.
  - intros H. injection H as <-. assumption.
  - apply Hsel.
Qed.

Lemma session_ok_perform (a : action) (st st' : State) :
  session_ok st -> perform a st = Ok st' -> session_ok st'.
Proof.
  intros Hok Hp.
  destruct a as [b| | |host x y]; simpl in Hp.
  - injection Hp as <-. apply session_ok_select. assumption.
  - destruct Hok as [Hd [Hn [Hov [Hsel Hboxes]]]].
    unfold CreateAverageTemperatureBox in Hp.
    destruct (CurrentSelectionBox st) as [b|] eqn:Hb; [|discriminate].
    injection Hp as <-.
    unfold session_ok, axes_distinct in *. simpl.
    repeat split; try tauto.
    apply Forall_app. split; [assumption|].
    constructor; [apply Hsel; reflexivity|constructor].
  - pose proof Hok as [Hd [Hn [Hov [Hsel Hboxes]]]].
    pose proof (axes_distinct_AddOverlayBox st st' Hd Hp) as Hd'.
    destruct (CurrentSelectionBox st) as [b|] eqn:Hb.
    2:{ unfold AddOverlayBox in Hp. rewrite Hb in Hp. discriminate. }
    rewrite (AddOverlayBox_unfold st b Hb) in Hp.
    unfold truediv_int in Hp.
    destruct (Z.eqb_spec (Py.int (Y2 b - Y1 b)%Q) 0) as [|Hh]; [discriminate|].
    destruct (Z.eqb_spec (Py.int (X2 b - X1 b)%Q) 0) as [|Hw]; [discriminate|].
    cbn [bind] in Hp.
    destruct (resize _ _) as [u|]; [|discriminate].
    cbn [bind] in Hp.
    destruct (amin (Subregion (ThermalData st) b)) as [lo|] eqn:Hlo;
      [|discriminate].
    destruct (amax (Subregion (ThermalData st) b)) as [hi|]; [|discriminate].
    cbn [bind] in Hp.
    assert (Hcells : concat (Subregion (ThermalData st) b) <> []).
    { intros E. rewrite (amin_empty _ E) in Hlo. discriminate. }
    injection Hp as <-.
    unfold session_ok. split; [exact Hd'|]. simpl.
    split; [lia|]. split.
    + apply Forall_app. split; [assumption|].
      constructor; [|constructor]. simpl. repeat split; try assumption.
    + split; [|assumption].
      intros b0 Hb0. apply Hsel. congruence.
  - pose proof Hok as [Hd [Hn [Hov [Hsel Hboxes]]]].
    pose proof (axes_distinct_AddMeasurementPoint st st' host x y Hd Hp) as Hd'.
    unfold AddMeasurementPointMouseClickCallback in Hp.
    destruct (SamplePoint st host x y) as [[t|]|e]; simpl in Hp;
      try discriminate; injection Hp as <-.
    + unfold session_ok. split; [exact Hd'|]. simpl. tauto.
    + assumption.
Qed.

Lemma session_ok_after_failure (a : action) (st : State) :
  session_ok st -> session_ok (after_failure a st).
Proof.
  intros Hok. destruct a; simpl; try assumption.
  destruct Hok as [[Hnd Hlt] [Hn [Hov [Hsel Hboxes]]]].
  unfold session_ok, axes_distinct. simpl.
  repeat split; try assumption; try lia.
  eapply Forall_impl; [|exact Hlt]. simpl. intros; lia.
Qed.

Lemma session_ok_run (actions : list action) (st : State) :
  session_ok st -> session_ok (run actions st).
Proof.
  revert st. induction actions as [|a actions IH]; intros st Hok; simpl.
  - assumption.
  - destruct (perform a st) as [st'|e] eqn:E.
    + apply IH. exact (session_ok_perform a st st' Hok E).
    + apply IH. apply session_ok_after_failure. assumption.
Qed.

(** X17.  In every session, however it was reached: the overlays have pairwise
    distinct axes, none of them the axes of the main picture (numbered 0);
    every overlay has at least one temperature cell and a pixel width and
    height other than 0; and the current selection and every measurement
    box passed the guard of the selection callback. *)
Theorem session_invariants :
  forall (T : grid) (actions : list action),
    let st := run actions (initial_state T) in
    NoDup (map OverlayAxes (OverlayBoxes st)) /\
    ~ In 0%nat (map OverlayAxes (OverlayBoxes st)) /\
    Forall (fun overlay =>
              concat (TemperatureArray overlay) <> [] /\
              PixelWidth overlay <> 0 /\
              PixelHeight overlay <> 0)
           (OverlayBoxes st) /\
    (forall b, CurrentSelectionBox st = Some b ->
               selection_accepted b = true) /\
    Forall (fun b => selection_accepted b = true) (MeasurementBoxes st).
Proof.
  intros T actions st.
  destruct (session_ok_run actions (initial_state T) (session_ok_initial T))
    as [[Hnd _] [_ [Hov [Hsel Hboxes]]]].
  fold st in Hnd, Hov, Hsel, Hboxes.
  split; [assumption|]. split.
  - intros Hin. apply in_map_iff in Hin. destruct Hin as [ov [Hax Hin]].
    rewrite Forall_forall in Hov. destruct (Hov ov Hin) as [H1 _]. lia.
  - split; [|split; assumption].
    eapply Forall_impl; [|exact Hov]. simpl. tauto.
Qed.

(** * Further properties of the temperature markers *)

Lemma display_to_data_nonneg (x : Q) : (0 <= x)%Q -> 0 <= display_to_data x.
Proof.
  intros Hx. unfold display_to_data, scale_down, ResolutionScale.
  assert (Hq : (0 <= x / inject_Z 4)%Q).
  { apply Qle_shift_div_l; [reflexivity|]. rewrite Qmult_0_l. assumption. }
  rewrite int_floor by assumption.
  change 0 with (Qfloor 0). apply Qfloor_resp_le. assumption.
Qed.

Lemma display_to_data_floor (x : Q) :
  (0 <= x)%Q -> display_to_data x = Qfloor (x / 4).
Proof.
  intros Hx. unfold display_to_data, scale_down, ResolutionScale.
  apply int_floor.
  apply Qle_shift_div_l; [reflexivity|]. rewrite Qmult_0_l. assumption.
Qed.

Lemma display_to_data_ge (x : Q) (w : Z) :
  0 <= w -> (inject_Z (4 * w) <= x)%Q -> w <= display_to_data x.
Proof.
  intros Hw Hx.
  assert (H0 : (0 <= x)%Q).
  { eapply Qle_trans; [|exact Hx].
    change 0%Q with (inject_Z 0). rewrite <- Zle_Qle. lia. }
  rewrite display_to_data_floor by assumption.
  rewrite <- (Qfloor_Z w). apply Qfloor_resp_le.
  apply Qle_shift_div_l; [reflexivity|].
  rewrite inject_Z_mult in Hx. rewrite Qmult_comm. exact Hx.
Qed.

Lemma index_out_of_range {A : Type} (l : list A) (i : Z) :
  Z.of_nat (length l) <= i -> index l i = Raise IndexError.
Proof.
  intros H. unfold index.
  destruct (Z.ltb_spec i 0); [lia|].
  destruct (Z.ltb_spec i 0); [lia|].
  destruct (Z.leb_spec (Z.of_nat (length l)) i); [reflexivity|lia].
Qed.

Lemma cell_exists {A : Type} (g : array2 A) (w r c : nat) :
  Forall (fun row => length row = w) g ->
  (r < length g)%nat -> (c < w)%nat ->
  exists v, cell g r c = Some v.
Proof.
  intros Hw Hr Hc. unfold cell.
  destruct (nth_error g r) as [row|] eqn:Hrow.
  - rewrite Forall_forall in Hw.
    pose proof (Hw row (nth_error_In _ _ Hrow)) as Hlen.
    destruct (nth_error row c) as [v|] eqn:Hv; [eauto|].
    apply nth_error_None in Hv. lia.
  - apply nth_error_None in Hrow. lia.
Qed.

Lemma index2_in_range {A : Type} (g : array2 A) (w : nat) (i j : Z) :
  Forall (fun row => length row = w) g ->
  0 <= i < Z.of_nat (length g) -> 0 <= j < Z.of_nat w ->
  exists v, index2 g i j = Ok v /\
            cell g (Z.to_nat i) (Z.to_nat j) = Some v.
Proof.
  intros Hw Hi Hj.
  destruct (cell_exists g w (Z.to_nat i) (Z.to_nat j) Hw) as [v Hv]; [lia..|].
  exists v. split; [|assumption].
  rewrite <- (Z2Nat.id i), <- (Z2Nat.id j) by lia.
  apply index2_cell. assumption.
Qed.

Lemma index2_out_of_range {A : Type} (g : array2 A) (w : nat) (i j : Z) :
  Forall (fun row => length row = w) g ->
  0 <= i -> 0 <= j ->
  Z.of_nat (length g) <= i \/ Z.of_nat w <= j ->
  index2 g i j = Raise IndexError.
Proof.
  intros Hw Hi Hj Hout. unfold index2.
  destruct (Z_le_gt_dec (Z.of_nat (length g)) i) as [Hrow|Hrow].
  - rewrite index_out_of_range by assumption. reflexivity.
  - destruct Hout as [Hout|Hout]; [lia|].
    destruct (nth_error g (Z.to_nat i)) as [row|] eqn:Hr.
    + rewrite <- (Z2Nat.id i) by lia.
      rewrite (index_nth_error g _ row Hr). cbn [bind].
      apply index_out_of_range.
      rewrite Forall_forall in Hw.
      rewrite (Hw row (nth_error_In _ _ Hr)). assumption.
    + apply nth_error_None in Hr. lia.
Qed.

(** X18.  A click on axes that belong to no overlay, with X > 1 and Y > 1, reads
    the thermal data at [int(Y/4), int(X/4)]: it returns that cell when
    X < 4 * width and Y < 4 * height, and raises [IndexError] as soon as
    one of the two coordinates reaches that bound. *)
Theorem base_sample_in_bounds :
  forall (st : State) (host : axes) (x y : Q) (w : nat),
    Forall (fun row => length row = w) (ThermalData st) ->
    ~ In host (map OverlayAxes (OverlayBoxes st)) ->
    (1 < x)%Q -> (1 < y)%Q ->
    ((x < inject_Z (4 * Z.of_nat w))%Q ->
     (y < inject_Z (4 * Z.of_nat (length (ThermalData st))))%Q ->
     exists v : float64,
       SamplePoint st host x y = Ok (Some v) /\
       cell (ThermalData st) (Z.to_nat (display_to_data y))
            (Z.to_nat (display_to_data x)) = Some v) /\
    ((inject_Z (4 * Z.of_nat w) <= x)%Q \/
     (inject_Z (4 * Z.of_nat (length (ThermalData st))) <= y)%Q ->
     SamplePoint st host x y = Raise IndexError).
Proof.
  intros st host x y w Hw Hhost Hx Hy.
  assert (Hx0 : (0 <= x)%Q) by lra.
  assert (Hy0 : (0 <= y)%Q) by lra.
  pose proof (display_to_data_nonneg x Hx0) as Hi.
  pose proof (display_to_data_nonneg y Hy0) as Hj.
  assert (Hs : SamplePoint st host x y =
               (t <- index2 (ThermalData st) (display_to_data y)
                            (display_to_data x) ;; Ok (Some t))).
  { unfold SamplePoint.
    apply Qltb_lt in Hx. apply Qltb_lt in Hy. rewrite Hx, Hy.
    cbn [andb]. rewrite overlay_loop_no_match by assumption.
    reflexivity. }
  rewrite Hs. split.
  - intros Hxw Hyh.
    assert (0 < Z.of_nat w).
    { destruct w; [|lia]. exfalso. simpl in Hxw.
      change (inject_Z 0) with 0%Q in Hxw. lra. }
    assert (0 < Z.of_nat (length (ThermalData st))).
    { destruct (length (ThermalData st)); [|lia]. exfalso. simpl in Hyh.
      change (inject_Z 0) with 0%Q in Hyh. lra. }
    destruct (index2_in_range (ThermalData st) w (display_to_data y)
                (display_to_data x) Hw) as [v [Hv Hc]].
    + split; [assumption|]. apply display_to_data_lt; assumption.
    + split; [assumption|]. apply display_to_data_lt; assumption.
    + exists v. rewrite Hv. split; [reflexivity|assumption].
  - intros Hout.
    rewrite (index2_out_of_range (ThermalData st) w); try assumption;
      [reflexivity|].
    destruct Hout as [Hout|Hout]; [right|left];
      apply display_to_data_ge; try lia; assumption.
Qed.

Lemma base_sample_in_bounds_witness :
  SamplePoint session_with_overlay 0%nat 15 (3 # 2) = Ok (Some (of_Z 4)) /\
  SamplePoint session_with_overlay 0%nat 16 (3 # 2) = Raise IndexError.
Proof.
  destruct (base_sample_in_bounds session_with_overlay 0%nat 15 (3 # 2) 4)
    as [Hin _].
  { repeat constructor. }
  { simpl. intros [H|[]]. discriminate. }
  { reflexivity. }
  { reflexivity. }
  destruct (Hin eq_refl eq_refl) as [v [Hv Hc]].
  split.
  - rewrite Hv. vm_compute in Hc. injection Hc as <-. reflexivity.
  - apply (base_sample_in_bounds session_with_overlay 0%nat 16 (3 # 2) 4).
    + repeat constructor.
    + simpl. intros [H|[]]. discriminate.
    + reflexivity.
    + reflexivity.
    + left. discriminate.
Defined.

Lemma overlay_loop_app (host : axes) (x y : Q) (l l' : list Overlay)
  (acc : option float64) :
  overlay_loop host x y (l ++ l') acc =
  (r <- overlay_loop host x y l acc ;; overlay_loop host x y l' r).
Proof.
  revert acc. induction l as [|ov l IH]; intros acc; simpl; [reflexivity|].
  destruct (Nat.eqb host (OverlayAxes ov)); [|apply IH].
  destruct (index2 _ _ _); simpl; [apply IH|reflexivity].
Qed.

Lemma int_positive (q : Q) : 0 < Py.int q -> (0 <= q)%Q.
Proof.
  intros H. destruct (Qlt_le_dec q 0) as [Hneg|Hpos]; [|assumption].
  pose proof (int_nonpos q (Qlt_le_weak _ _ Hneg)). lia.
Qed.

(** The index of a point inside an overlay lies inside the overlay's
    temperature array: the array has one more column than the whole cells
    between the truncated corners. *)
Lemma local_index_bound (a b x : Q) :
  (1 <= a / 4)%Q -> (0 <= x)%Q -> (x < inject_Z (Py.int (b - a)))%Q ->
  Qfloor (x / 4) < Qfloor (b / 4) - Qfloor (a / 4) + 1.
Proof.
  intros Ha Hx Hlt.
  assert (Hpos : 0 < Py.int (b - a)).
  { rewrite Zlt_Qlt. change (inject_Z 0) with 0%Q. lra. }
  pose proof (int_positive _ Hpos) as Hba.
  rewrite (int_floor _ Hba) in Hlt.
  pose proof (Qfloor_le (b - a)) as H1.
  pose proof (Qfloor_le (a / 4)) as H2.
  pose proof (Qlt_floor (b / 4)) as H3.
  pose proof (Qfloor_le (x / 4)) as H4.
  rewrite inject_Z_plus in H3. change (inject_Z 1) with 1%Q in H3.
  cut (Qfloor (x / 4) + Qfloor (a / 4) < Qfloor (b / 4) + 1); [lia|].
  rewrite Zlt_Qlt, !inject_Z_plus.
  change (inject_Z 1) with 1%Q.
  set (fa := inject_Z (Qfloor (a / 4))) in *.
  set (fb := inject_Z (Qfloor (b / 4))) in *.
  set (fx := inject_Z (Qfloor (x / 4))) in *.
  set (fd := inject_Z (Qfloor (b - a))) in *.
  unfold Qdiv in *. change (/ 4)%Q with (1 # 4)%Q in *.
  lra.
Qed.

Lemma display_to_data_ge_1 (a : Q) : 1 <= display_to_data a -> (1 <= a / 4)%Q.
Proof.
  intros H. unfold display_to_data, scale_down, ResolutionScale in H.
  change (inject_Z 4) with 4%Q in H.
  assert (Hq : (0 <= a / 4)%Q) by (apply int_positive; lia).
  rewrite (int_floor _ Hq) in H.
  eapply Qle_trans; [|apply Qfloor_le].
  change 1%Q with (inject_Z 1). rewrite <- Zle_Qle. assumption.
Qed.

Lemma display_to_data_ge_1_nonneg (a : Q) :
  1 <= display_to_data a -> (0 <= a)%Q.
Proof.
  intros H. pose proof (display_to_data_ge_1 a H) as H1.
  unfold Qdiv in H1. change (/ 4)%Q with (1 # 4)%Q in H1. lra.
Qed.

(** X19.  A click inside an overlay just made always finds a temperature.  For a
    box with truncated corners (x1, y1), (x2, y2), 1 <= x1, 1 <= y1,
    x2 <= width, y2 <= height, and a click at (x, y) in the overlay's axes
    with 1 < x < PixelWidth and 1 < y < PixelHeight, the sample is the cell
    of the thermal data in row y1 - 1 + int(y/4) and column
    x1 - 1 + int(x/4). *)
Theorem click_inside_new_overlay :
  forall (st st' : State) (b : Box) (w : nat) (x y : Q),
    axes_distinct st ->
    CurrentSelectionBox st = Some b ->
    AddOverlayBox st = Ok st' ->
    Forall (fun row => length row = w) (ThermalData st) ->
    1 <= display_to_data (X1 b) -> 1 <= display_to_data (Y1 b) ->
    display_to_data (X2 b) <= Z.of_nat w ->
    display_to_data (Y2 b) <= Z.of_nat (length (ThermalData st)) ->
    (1 < x)%Q -> (x < inject_Z (Py.int (X2 b - X1 b)))%Q ->
    (1 < y)%Q -> (y < inject_Z (Py.int (Y2 b - Y1 b)))%Q ->
    exists v : float64,
      SamplePoint st' (NextAxes st) x y = Ok (Some v) /\
      cell (ThermalData st)
           (Z.to_nat (display_to_data (Y1 b) - 1 + display_to_data y))
           (Z.to_nat (display_to_data (X1 b) - 1 + display_to_data x)) =
        Some v.
Proof.
  intros st st' b w x y [Hnd Hlt] Hb Hadd Hw Hx1 Hy1 Hx2 Hy2 Hx Hxw Hy Hyh.
  destruct (AddOverlayBox_region st st' b Hb Hadd)
    as [ov [Hboxes [Harr [Hax _]]]].
  assert (Hx0 : (0 <= x)%Q) by lra.
  assert (Hy0 : (0 <= y)%Q) by lra.
  pose proof (display_to_data_nonneg x Hx0) as Hxi.
  pose proof (display_to_data_nonneg y Hy0) as Hyi.
  pose proof (display_to_data_ge_1_nonneg _ Hx1) as HX1.
  pose proof (display_to_data_ge_1_nonneg _ Hy1) as HY1.
  assert (HX2 : (0 <= X2 b)%Q).
  { assert (0 < Py.int (X2 b - X1 b)).
    { rewrite Zlt_Qlt. change (inject_Z 0) with 0%Q. lra. }
    pose proof (int_positive _ H). lra. }
  assert (HY2 : (0 <= Y2 b)%Q).
  { assert (0 < Py.int (Y2 b - Y1 b)).
    { rewrite Zlt_Qlt. change (inject_Z 0) with 0%Q. lra. }
    pose proof (int_positive _ H). lra. }
  assert (Hcol : display_to_data x <
                 display_to_data (X2 b) - display_to_data (X1 b) + 1).
  { rewrite !display_to_data_floor by assumption.
    apply local_index_bound; try assumption.
    apply display_to_data_ge_1. assumption. }
  assert (Hrow : display_to_data y <
                 display_to_data (Y2 b) - display_to_data (Y1 b) + 1).
  { rewrite !display_to_data_floor by assumption.
    apply local_index_bound; try assumption.
    apply display_to_data_ge_1. assumption. }
  destruct (cell_exists (ThermalData st) w
              (Z.to_nat (display_to_data (Y1 b) - 1 + display_to_data y))
              (Z.to_nat (display_to_data (X1 b) - 1 + display_to_data x)) Hw)
    as [v Hv]; [lia..|].
  assert (Hlocal : cell (TemperatureArray ov)
                        (Z.to_nat (display_to_data y))
                        (Z.to_nat (display_to_data x)) = Some v).
  { rewrite Harr. unfold Subregion. rewrite cell_slice2 by lia.
    rewrite !Z2Nat.id by assumption.
    destruct (Z.ltb_spec (display_to_data y)
                (display_to_data (Y2 b) - (display_to_data (Y1 b) - 1)));
      [|lia].
    destruct (Z.ltb_spec (display_to_data x)
                (display_to_data (X2 b) - (display_to_data (X1 b) - 1)));
      [|lia].
    cbn [andb]. rewrite <- Hv. f_equal; lia. }
  exists v. split; [|exact Hv].
  unfold SamplePoint.
  apply Qltb_lt in Hx. apply Qltb_lt in Hy. rewrite Hx, Hy. cbn [andb].
  rewrite Hboxes, overlay_loop_app.
  rewrite overlay_loop_no_match.
  2:{ intros Hin. apply in_map_iff in Hin. destruct Hin as [ov' [Heq Hin]].
      rewrite Forall_forall in Hlt. specialize (Hlt ov' Hin). lia. }
  cbn [bind overlay_loop]. rewrite Hax, Nat.eqb_refl.
  rewrite <- (Z2Nat.id (display_to_data y)), <- (Z2Nat.id (display_to_data x))
    by assumption.
  rewrite (index2_cell _ _ _ _ Hlocal). reflexivity.
Qed.

Lemma click_inside_new_overlay_witness :
  SamplePoint session_with_overlay 1%nat 6 5 = Ok (Some (of_Z 11)) /\
  cell grid4 2 2 = Some (of_Z 11).
Proof.
  destruct (click_inside_new_overlay session_start session_with_overlay
              box_lower 4 6 5) as [v [Hv Hc]].
  - split; [constructor|constructor].
  - reflexivity.
  - reflexivity.
  - repeat constructor.
  - discriminate.
  - discriminate.
  - discriminate.
  - discriminate.
  - reflexivity.
  - reflexivity.
  - reflexivity.
  - reflexivity.
  - vm_compute in Hc. injection Hc as <-.
    split; [exact Hv|reflexivity].
Defined.

(** * The two modes *)

Lemma filter_out_self (cid : nat) :
  filter (fun c => negb (Nat.eqb c cid)) [cid] = [].
Proof. simpl. rewrite Nat.eqb_refl. reflexivity. Qed.

Lemma press_step (b : button) (m : Modes) (fuel : nat) :
  modes_ok m ->
  exists m' : Modes,
    press (S (S fuel)) b m = Some (Ok m') /\
    modes_ok m' /\
    MeasurementPointActive m' =
      match b with
      | MarkerButton => negb (MeasurementPointActive m)
      | SelectBoxButton => false
      end /\
    SelectorActive m' =
      match b with
      | MarkerButton => false
      | SelectBoxButton => negb (SelectorActive m)
      end.
Proof.
  intros [Hex [Hconn Hhelp]].
  destruct m as [mpa sa conn cid next help]. simpl in *.
  destruct b, mpa, sa; try discriminate; simpl in *;
    subst;
    try match type of Hconn with
        | exists _, _ => destruct Hconn as [c [-> ->]]
        end;
    (eexists; split; [reflexivity|]);
    unfold modes_ok; simpl; rewrite ?Nat.eqb_refl; simpl;
    repeat split; eauto.
Qed.

(** X20.  Pressing a mode button, in a state in which at most one mode is
    active, toggles the mode of that button and leaves the other mode
    off; the two handlers never call each other more than one level
    deep; and the click callback and the help panel follow the mode. *)
Theorem press_toggles_one_mode :
  forall (b : button) (m : Modes) (fuel : nat),
    modes_ok m ->
    exists m' : Modes,
      press (S (S fuel)) b m = Some (Ok m') /\
      modes_ok m' /\
      MeasurementPointActive m' =
        match b with
        | MarkerButton => negb (MeasurementPointActive m)
        | SelectBoxButton => false
        end /\
      SelectorActive m' =
        match b with
        | MarkerButton => false
        | SelectBoxButton => negb (SelectorActive m)
        end.
Proof. intros b m fuel. apply press_step. Qed.

Lemma modes_ok_initial : modes_ok initial_modes.
Proof. unfold modes_ok. simpl. auto. Qed.

Lemma press_toggles_one_mode_witness :
  modes_ok initial_modes /\
  exists m' : Modes,
    press 2 SelectBoxButton initial_modes = Some (Ok m') /\
    SelectorActive m' = true /\ MeasurementPointActive m' = false.
Proof.
  split; [exact modes_ok_initial|].
  destruct (press_toggles_one_mode SelectBoxButton initial_modes 0
              modes_ok_initial) as [m' [Hp [_ [Hm Hs]]]].
  exists m'. split; [exact Hp|]. split; [exact Hs|exact Hm].
Defined.

Lemma presses_ok (buttons : list button) (m : Modes) :
  modes_ok m ->
  exists m' : Modes, presses 2 buttons m = Some (Ok m') /\ modes_ok m'.
Proof.
  revert m. induction buttons as [|b rest IH]; intros m Hok; simpl.
  - eauto.
  - destruct (press_step b m 0 Hok) as [m1 [Hp [Hok1 _]]].
    rewrite Hp. apply IH. assumption.
Qed.

(** X21.  After any sequence of button presses from the initial state, no press
    has raised, the marker mode and the box-selection mode are never
    active together, the click callback is connected exactly when the
    marker mode is active (and only once), and the help panel holds
    exactly the text of the active mode. *)
Theorem modes_stay_exclusive :
  forall buttons : list button,
    exists m : Modes,
      presses 2 buttons initial_modes = Some (Ok m) /\
      (MeasurementPointActive m && SelectorActive m = false) /\
      length (Connected m) = (if MeasurementPointActive m then 1 else 0)%nat /\
      HelpPanel m =
        (if MeasurementPointActive m then [MarkerHelpText]
         else if SelectorActive m then [SelectionBoxHelpText]
         else []).
Proof.
  intros buttons.
  destruct (presses_ok buttons initial_modes modes_ok_initial)
    as [m [Hp [Hex [Hconn Hhelp]]]].
  exists m. split; [assumption|]. split; [assumption|].
  split; [|assumption].
  destruct (MeasurementPointActive m).
  - destruct Hconn as [cid [_ ->]]. reflexivity.
  - rewrite Hconn. reflexivity.
Qed.

(** * Key presses *)

Lemma key_in_cases (key : string) :
  (key_in key ["A"%string; "a"%string] = true /\
   key_in key ["T"%string; "t"%string] = false) \/
  (key_in key ["A"%string; "a"%string] = false).
Proof.
  unfold key_in. simpl.
  destruct (String.eqb_spec key "A"); [subst; left; split; reflexivity|].
  destruct (String.eqb_spec key "a"); [subst; left; split; reflexivity|].
  right. reflexivity.
Qed.

(** X22.  A key press changes the session only in box-selection mode and only
    for the four keys a, A, t, T: there the first two do what
    [CreateAverageTemperatureBox] does and the last two what
    [AddOverlayBox] does.  In particular, in every state of the modes
    reached by button presses in which the marker mode is active, no key
    changes the session. *)
Theorem keys_act_only_in_selection_mode :
  forall (key : string) (st : State),
    ProcessKeyPresses false key st = Ok st /\
    (key_in key ["A"; "a"; "T"; "t"]%string = false ->
     ProcessKeyPresses true key st = Ok st) /\
    (key_in key ["A"; "a"]%string = true ->
     ProcessKeyPresses true key st = CreateAverageTemperatureBox st) /\
    (key_in key ["T"; "t"]%string = true ->
     ProcessKeyPresses true key st = AddOverlayBox st) /\
    (forall (buttons : list button) (m : Modes),
       presses 2 buttons initial_modes = Some (Ok m) ->
       MeasurementPointActive m = true ->
       ProcessKeyPresses (SelectorActive m) key st = Ok st).
Proof.
  intros key st.
  assert (Hoff : ProcessKeyPresses false key st = Ok st).
  { unfold ProcessKeyPresses. rewrite !andb_false_r. reflexivity. }
  split; [exact Hoff|].
  split; [|split; [|split]].
  - intros H. unfold ProcessKeyPresses, key_in in *. simpl in *.
    destruct (String.eqb key "A"); [discriminate|].
    destruct (String.eqb key "a"); [discriminate|].
    destruct (String.eqb key "T"); [discriminate|].
    destruct (String.eqb key "t"); [discriminate|].
    reflexivity.
  - intros H. unfold ProcessKeyPresses.
    destruct (key_in_cases key) as [[_ HT]|HA]; [|congruence].
    rewrite H, HT. simpl.
    destruct (CreateAverageTemperatureBox st); reflexivity.
  - intros H. unfold ProcessKeyPresses.
    destruct (key_in_cases key) as [[_ HT]|HA]; [congruence|].
    rewrite H, HA. reflexivity.
  - intros buttons m Hp Hactive.
    destruct (presses_ok buttons initial_modes modes_ok_initial)
      as [m' [Hp' [Hex _]]].
    rewrite Hp in Hp'. injection Hp' as <-.
    rewrite Hactive in Hex. simpl in Hex. rewrite Hex. exact Hoff.
Qed.

Lemma keys_act_only_in_selection_mode_witness :
  ProcessKeyPresses true "a" (select box_inner (initial_state grid4)) =
    CreateAverageTemperatureBox (select box_inner (initial_state grid4)) /\
  ProcessKeyPresses true "x" (select box_inner (initial_state grid4)) =
    Ok (select box_inner (initial_state grid4)).
Proof.
  destruct (keys_act_only_in_selection_mode "a"
              (select box_inner (initial_state grid4)))
    as [_ [_ [Ha _]]].
  destruct (keys_act_only_in_selection_mode "x"
              (select box_inner (initial_state grid4)))
    as [_ [Hx _]].
  split; [apply Ha|apply Hx]; reflexivity.
Defined.

Lemma PlotMinMaxMarkers_inside_picture_witness :
  exists m : MinMaxMarkers,
    PlotMinMaxMarkers (repeat (repeat (of_Z 7) 160) 120) = Ok m /\
    (10 <= fst (MinText m))%Q /\ (snd (MaxText m) < 480)%Q.
Proof.
  destruct (PlotMinMaxMarkers_inside_picture
              (repeat (repeat (of_Z 7) 160) 120)) as [m [Hm Hin]].
  - apply repeat_length.
  - apply Forall_forall. intros row Hrow.
    apply repeat_spec in Hrow. subst row. apply repeat_length.
  - apply Forall_forall. intros v Hv.
    apply in_concat in Hv. destruct Hv as [row [Hrow Hv]].
    apply repeat_spec in Hrow. subst row.
    apply repeat_spec in Hv. subst v. reflexivity.
  - exists m. split; [exact Hm|].
    destruct (Hin (MinMarker m) (MinText m) (or_introl (conj eq_refl eq_refl)))
      as [_ [_ [_ [_ [H1 _]]]]].
    destruct (Hin (MaxMarker m) (MaxText m) (or_intror (conj eq_refl eq_refl)))
      as [_ [_ [_ [_ [_ [_ [_ H2]]]]]]].
    split; assumption.
Defined.
